(** * FastWorkflowAgentAdapter: the queue-to-turn bridge of
      [src/tau2/agent/fastworkflow_adapter.py]

    A shallow embedding of the adapter class and of the Python behaviour
    it relies on (exceptions, [queue.Queue], a [dict] carried as agent
    state), followed by the properties of its turn function
    [generate_next_message], its poll-and-drain loop and its lifecycle
    methods [reset] / [stop]. *)

From stdpp Require Import base list strings gmap pretty.

(** ** Python values and exceptions *)

(** An instance of (a subclass of) [Exception]; [text] is what [str(e)]
    returns.  Every [except Exception] clause of the source catches it. *)
Inductive exn : Type := Exception (text : string).

Definition str (e : exn) : string := let 'Exception s := e in s.

(** What a Python call does: it returns a value or raises. *)
Inductive result (A : Type) : Type :=
  | Return (a : A)
  | Raise (e : exn).
Arguments Return {A} a.
Arguments Raise {A} e.

(** The attribute values the adapter reads off runner objects with
    [getattr]; a [dict] keeps its insertion order. *)
#[warnings="-register-all"]
Inductive pyval : Type :=
  | PyNone
  | PyBool (b : bool)
  | PyInt (n : Z)
  | PyStr (s : string)
  | PyDict (d : list (string * pyval)).

Definition kwargs : Type := list (string * pyval).

(** The line separator of ["\n".join(texts)]. *)
Definition LF : string := String (Ascii.ascii_of_nat 10) "".

(** A Python [str] is kept as its UTF-8 encoding, one [ascii] per byte:
    concatenation, emptiness, prefix and substring tests on strings are
    those on their encodings. *)

(** Truth value of a [str]. *)
Definition str_truthy (s : string) : bool :=
  match s with EmptyString => false | String _ _ => true end.

(** [str.isspace] on one character, given by its code point: the
    characters [str.strip()] removes.  They are tab, LF, VT, FF, CR, FS,
    GS, RS, US and space, and beyond ASCII U+0085, U+00A0, U+1680,
    U+2000 to U+200A, U+2028, U+2029, U+202F, U+205F and U+3000. *)
Definition isspace (cp : N) : bool :=
  (((0x09 <=? cp) && (cp <=? 0x0D)) || ((0x1C <=? cp) && (cp <=? 0x20)) ||
   (cp =? 0x85) || (cp =? 0xA0) || (cp =? 0x1680) ||
   ((0x2000 <=? cp) && (cp <=? 0x200A)) ||
   (cp =? 0x2028) || (cp =? 0x2029) || (cp =? 0x202F) || (cp =? 0x205F) ||
   (cp =? 0x3000))%N.

(** The payload bits of a byte of an encoded character. *)
Definition bits (mask : N) (c : Ascii.ascii) : N :=
  N.land (Ascii.N_of_ascii c) mask.

(** The code point of the character a string starts with, and what
    follows that character; [None] for the empty string and for bytes
    that start no character. *)
Definition decode (s : string) : option (N * string) :=
  match s with
  | EmptyString => None
  | String a r =>
      let x := Ascii.N_of_ascii a in
      if (x <? 0x80)%N then Some (x, r)
      else if (x <? 0xC0)%N then None
      else if (x <? 0xE0)%N then
        match r with
        | String b r' => Some (N.shiftl (bits 0x1F a) 6 + bits 0x3F b, r')%N
        | _ => None
        end
      else if (x <? 0xF0)%N then
        match r with
        | String b (String c r') =>
            Some (N.shiftl (bits 0x0F a) 12 + N.shiftl (bits 0x3F b) 6 +
                  bits 0x3F c, r')%N
        | _ => None
        end
      else
        match r with
        | String b (String c (String d r')) =>
            Some (N.shiftl (bits 0x07 a) 18 + N.shiftl (bits 0x3F b) 12 +
                  N.shiftl (bits 0x3F c) 6 + bits 0x3F d, r')%N
        | _ => None
        end
  end.

(** The number of bytes of the whitespace character a string starts
    with; [0] when it starts with none. *)
Definition space_width (s : string) : nat :=
  match decode s with
  | Some (cp, rest) =>
      if isspace cp then String.length s - String.length rest else 0
  | None => 0
  end.

(** [str.lstrip()]: the leading whitespace characters are dropped, each
    with all its bytes. *)
Fixpoint lstrip (s : string) : string :=
  match s with
  | EmptyString => EmptyString
  | String _ r1 =>
      match space_width s with
      | 0 => s
      | 1 => lstrip r1
      | 2 => match r1 with String _ r2 => lstrip r2 | _ => s end
      | 3 => match r1 with String _ (String _ r3) => lstrip r3 | _ => s end
      | _ => match r1 with
             | String _ (String _ (String _ r4)) => lstrip r4
             | _ => s
             end
      end
  end.

(** [str.rstrip()]: the string is cut where only whitespace follows.  A
    byte inside a character starts no character, so the cut never falls
    inside one. *)
Fixpoint rstrip (s : string) : string :=
  match s with
  | EmptyString => EmptyString
  | String a r =>
      if str_truthy (lstrip s) then String a (rstrip r) else EmptyString
  end.

(** [str.strip()]. *)
Definition strip (s : string) : string := rstrip (lstrip s).

(** Truth value of a list used as a condition. *)
Definition list_truthy {A : Type} (l : list A) : bool :=
  match l with [] => false | _ :: _ => true end.

(** ** A [queue.Queue] polled with [get_nowait] *)

(** [items] in FIFO order, oldest first.  [failure = Some e] stands for a
    queue that has been shut down or is otherwise unusable: [put] raises
    [e], and [get_nowait] raises [e] once the remaining items are gone
    (the behaviour of [queue.ShutDown]); it is not [queue.Empty], so the
    drains do not catch it. *)
Record PyQueue (A : Type) : Type := mkQueue {
  items : list A;
  failure : option exn
}.
Arguments mkQueue {A} items failure.
Arguments items {A} _.
Arguments failure {A} _.

Definition empty_queue {A : Type} : PyQueue A := mkQueue [] None.

Inductive get_outcome (A : Type) : Type :=
  | Got (x : A) (q : PyQueue A)
  | Empty
  | GetRaises (e : exn).
Arguments Got {A} x q.
Arguments Empty {A}.
Arguments GetRaises {A} e.

Definition get_nowait {A : Type} (q : PyQueue A) : get_outcome A :=
  match items q with
  | x :: rest => Got x (mkQueue rest (failure q))
  | [] => match failure q with
          | Some e => GetRaises e
          | None => Empty
          end
  end.

Definition put {A : Type} (x : A) (q : PyQueue A) : result (PyQueue A) :=
  match failure q with
  | Some e => Raise e
  | None => Return (mkQueue (items q ++ [x]) None)
  end.

(** ** The runner's records (fastworkflow) *)

(** [fastworkflow.CommandTraceEventDirection]. *)
Inductive CommandTraceEventDirection : Type :=
  | AGENT_TO_WORKFLOW
  | WORKFLOW_TO_AGENT.

Global Instance direction_eq_dec : EqDecision CommandTraceEventDirection.
Proof. solve_decision. Defined.

(** An event of [command_trace_queue], by the attributes the adapter
    reads.  [command_name] and [parameters] are kept as Python values
    because the source tests their type at run time. *)
Record CommandTraceEvent : Type := mkEvent {
  direction : CommandTraceEventDirection;
  command_name : pyval;
  parameters : pyval;
  response_text : option string;
  success : bool
}.

(** An item of [command_output_queue]: an object whose
    [command_responses] is a list (each entry given by its [response]
    attribute, [PyNone] when it has none), a plain [str], or anything
    else. *)
Inductive CommandOutput : Type :=
  | OutResponses (command_responses : list pyval)
  | OutStr (s : string)
  | OutOther.

(** The imported [fastworkflow] module object. *)
Inductive FwModule : Type := fastworkflow_module.

(** A [fastworkflow.ChatSession], by its three queues. *)
Record ChatSession : Type := mkSession {
  command_trace_queue : PyQueue CommandTraceEvent;
  command_output_queue : PyQueue CommandOutput;
  user_message_queue : PyQueue string
}.

Definition new_session : ChatSession :=
  mkSession empty_queue empty_queue empty_queue.

(** ** The evaluator's messages (tau2.data_model.message) *)

Record ToolCall : Type := mkToolCall {
  id : string;
  name : string;
  arguments : kwargs;
  requestor : string
}.

(** [cost] is always [0.0] and is left out. *)
Record AssistantMessage : Type := mkAssistant {
  role : string;
  content : option string;
  tool_calls : option (list ToolCall)
}.

Record UserMessage : Type := mkUser { user_content : string }.

Record ToolMessage : Type := mkTool {
  tool_id : string;
  tool_content : string
}.

(** [ValidAgentInputMessage]. *)
Inductive ValidAgentInputMessage : Type :=
  | InUser (m : UserMessage)
  | InTool (m : ToolMessage)
  | InMultiTool (tool_messages : list ToolMessage).

Inductive Message : Type :=
  | MsgUser (m : UserMessage)
  | MsgTool (m : ToolMessage)
  | MsgAssistant (m : AssistantMessage).

(** ** The agent state: a [dict] *)

Inductive Item : Type :=
  | ItemMessage (m : Message)
  | ItemToolCall (t : ToolCall).

Inductive StateVal : Type :=
  | VBool (b : bool)
  | VList (l : list Item).

(** [get_init_state]. *)
Definition get_init_state (message_history : option (list Message))
  : gmap string StateVal :=
  <["message_history" :=
      VList (match message_history with
             | Some h => ItemMessage <$> h
             | None => []
             end)]>
  (<["awaiting_response" := VBool false]>
  (<["last_tool_calls" := VList []]> ∅)).

(** ** The adapter object and its surroundings *)

Record FastWorkflowAgentAdapter : Type := mkAdapter {
  workflow_path : string;
  fastworkflow : option FwModule;
  chat_session : option ChatSession;
  is_initialized : bool
}.

(** The object [__init__] leaves behind. *)
Definition fresh_adapter (path : string) : FastWorkflowAgentAdapter :=
  mkAdapter path None None false.

(** The calls the trace keeps.  [initialize m] records that
    [_initialize_fastworkflow] was entered with the adapter uninitialized
    and [initial_message = m]; [time_sleep] is [time.sleep(0.15)]; the
    others are calls into the fastworkflow library. *)
Inductive Call : Type :=
  | initialize (initial_message : string)
  | import_fastworkflow
  | fastworkflow_init
  | clear_workflow_stack
  | ChatSession_new
  | start_workflow (path startup_command : string)
  | time_sleep.

Global Instance Call_eq_dec : EqDecision Call.
Proof. solve_decision. Defined.

(** What the runner does between two polls of the adapter. *)
Inductive Activity : Type :=
  | Produces (events : list CommandTraceEvent) (outputs : list CommandOutput)
  | Crashes (e : exn).

(** Everything outside the adapter object.  [faults] fixes the outcome of
    the successive library calls ([Some e]: the call raises [e]; an
    exhausted list: the call succeeds); [schedule] fixes what the
    concurrently running runner enqueues before each successive poll
    iteration; [trace] lists the calls made so far, oldest first. *)
Record World : Type := mkWorld {
  faults : list (option exn);
  schedule : list Activity;
  trace : list Call
}.

(** The adapter, its surroundings, and the parameter / local variable
    [state] of the method under execution. *)
Record Store : Type := mkStore {
  self : FastWorkflowAgentAdapter;
  world : World;
  state : option (gmap string StateVal)
}.

(** ** Python computations: state that survives a raised exception *)

Definition Py (A : Type) : Type := Store → result A * Store.

Global Instance Py_ret : MRet Py := λ A a s, (Return a, s).

Global Instance Py_bind : MBind Py := λ A B k m s,
  match m s with
  | (Return a, s') => k a s'
  | (Raise e, s') => (Raise e, s')
  end.

Definition raise {A : Type} (e : exn) : Py A := λ s, (Raise e, s).

(** [try: m  except Exception as e: h e]. *)
Definition try_except {A : Type} (m : Py A) (h : exn → Py A) : Py A := λ s,
  match m s with
  | (Return a, s') => (Return a, s')
  | (Raise e, s') => h e s'
  end.

(** [with contextlib.suppress(Exception): m]. *)
Definition suppress (m : Py unit) : Py unit :=
  try_except m (λ _, mret tt).

Definition get_self : Py FastWorkflowAgentAdapter := λ s, (Return (self s), s).

Definition set_self (a : FastWorkflowAgentAdapter) : Py unit := λ s,
  (Return tt, mkStore a (world s) (state s)).

Definition get_state : Py (option (gmap string StateVal)) :=
  λ s, (Return (state s), s).

Definition set_state (st : option (gmap string StateVal)) : Py unit := λ s,
  (Return tt, mkStore (self s) (world s) st).

(** A call into the library: it is appended to the trace and its outcome
    is the next one of [faults]. *)
Definition lib_call (c : Call) : Py unit := λ s,
  let w := world s in
  let s' := mkStore (self s)
              (mkWorld (tail (faults w)) (schedule w) (trace w ++ [c]))
              (state s) in
  match faults w with
  | Some e :: _ => (Raise e, s')
  | _ => (Return tt, s')
  end.

(** A call that cannot fail: it only enters the trace. *)
Definition note (c : Call) : Py unit := λ s,
  let w := world s in
  (Return tt,
   mkStore (self s) (mkWorld (faults w) (schedule w) (trace w ++ [c])) (state s)).

Definition modify_self (f : FastWorkflowAgentAdapter → FastWorkflowAgentAdapter)
  : Py unit := λ s, (Return tt, mkStore (f (self s)) (world s) (state s)).

Definition with_fastworkflow (m : option FwModule) (a : FastWorkflowAgentAdapter) :=
  mkAdapter (workflow_path a) m (chat_session a) (is_initialized a).

Definition with_chat_session (cs : option ChatSession) (a : FastWorkflowAgentAdapter) :=
  mkAdapter (workflow_path a) (fastworkflow a) cs (is_initialized a).

Definition with_is_initialized (b : bool) (a : FastWorkflowAgentAdapter) :=
  mkAdapter (workflow_path a) (fastworkflow a) (chat_session a) b.

(** ** The runner, running concurrently *)

Definition enqueue {A : Type} (xs : list A) (q : PyQueue A) : PyQueue A :=
  mkQueue (items q ++ xs) (failure q).

Definition break_queue {A : Type} (e : exn) (q : PyQueue A) : PyQueue A :=
  mkQueue (items q) (Some e).

Definition deliver (act : Activity) (cs : ChatSession) : ChatSession :=
  match act with
  | Produces events outputs =>
      mkSession (enqueue events (command_trace_queue cs))
                (enqueue outputs (command_output_queue cs))
                (user_message_queue cs)
  | Crashes e =>
      mkSession (break_queue e (command_trace_queue cs))
                (break_queue e (command_output_queue cs))
                (break_queue e (user_message_queue cs))
  end.

(** The runner's share of one poll iteration: with a session alive, the
    next entry of the schedule reaches the session's queues. *)
Definition runner_turn : Py unit := λ s,
  match chat_session (self s), schedule (world s) with
  | Some cs, act :: rest =>
      (Return tt,
       mkStore (with_chat_session (Some (deliver act cs)) (self s))
               (mkWorld (faults (world s)) rest (trace (world s)))
               (state s))
  | _, _ => (Return tt, s)
  end.

(** ** The methods of [FastWorkflowAgentAdapter] *)

(** [_initialize_fastworkflow] (source lines 103-146).  [dotenv_values]
    only reads files into a dict and is left out. *)
Definition _initialize_fastworkflow (initial_message : string) : Py unit :=
  a ← get_self;
  if is_initialized a then mret tt
  else
    note (initialize initial_message);;
    try_except
      (lib_call import_fastworkflow;;
       modify_self (with_fastworkflow (Some fastworkflow_module));;
       lib_call fastworkflow_init;;
       suppress (lib_call clear_workflow_stack);;
       lib_call ChatSession_new;;
       modify_self (with_chat_session (Some new_session));;
       (if str_truthy initial_message
        then a' ← get_self;
             lib_call (start_workflow (workflow_path a') initial_message)
        else mret tt);;
       modify_self (with_is_initialized true))
      (λ e, raise e).

(** [_to_plain_kwargs]: [None] gives [{}], a dict is returned as it is;
    a bool, an int or a str has no [model_dump] and no [dict()], and
    [dict(params)] raises or is empty, so the result is [{}]. *)
Definition _to_plain_kwargs (params : pyval) : kwargs :=
  match params with
  | PyDict d => d
  | _ => []
  end.

(** An entry of [executed_commands]:
    [(command_name, parameters, response_text, success)]. *)
Definition Command : Type := string * kwargs * option string * bool.

(** The direction test of [_drain_command_trace]: the imported module has
    [CommandTraceEventDirection]; with no module object [hasattr] is
    false and so is the test. *)
Definition is_agent_to_workflow (fw : option FwModule)
    (evt : CommandTraceEvent) : bool :=
  match fw with
  | Some _ => bool_decide (direction evt = AGENT_TO_WORKFLOW)
  | None => false
  end.

(** The body of the loop of [_drain_command_trace] after [get_nowait]. *)
Definition record_command (fw : option FwModule) (evt : CommandTraceEvent)
    (executed_commands : list Command) : list Command :=
  if is_agent_to_workflow fw evt then executed_commands
  else
    match command_name evt with
    | PyStr cmd_name =>
        if (0 <? String.length cmd_name)%nat
        then executed_commands ++
               [(cmd_name, _to_plain_kwargs (parameters evt),
                 response_text evt, success evt)]
        else executed_commands
    | _ => executed_commands
    end.

(** [while processed < max_drain]: [budget] is [max_drain - processed]. *)
Fixpoint drain_trace (fw : option FwModule) (budget : nat)
    (q : PyQueue CommandTraceEvent) (executed_commands : list Command)
  : result (list Command) * PyQueue CommandTraceEvent :=
  match budget with
  | O => (Return executed_commands, q)
  | S budget' =>
      match get_nowait q with
      | Empty => (Return executed_commands, q)
      | GetRaises e => (Raise e, q)
      | Got evt q' =>
          drain_trace fw budget' q' (record_command fw evt executed_commands)
      end
  end.

(** [_drain_command_trace] (source lines 164-205). *)
Definition _drain_command_trace (max_drain : nat) : Py (list Command) := λ s,
  let a := self s in
  match is_initialized a, chat_session a with
  | true, Some cs =>
      let '(r, q') := drain_trace (fastworkflow a) max_drain
                        (command_trace_queue cs) [] in
      (r, mkStore
            (with_chat_session
               (Some (mkSession q' (command_output_queue cs)
                                (user_message_queue cs))) a)
            (world s) (state s))
  | _, _ => (Return [], s)
  end.

(** The texts [_drain_agent_outputs] extracts from one dequeued output. *)
Definition stripped (v : pyval) : list string :=
  match v with
  | PyStr txt => if str_truthy (strip txt) then [strip txt] else []
  | _ => []
  end.

Definition output_texts (out : CommandOutput) : list string :=
  match out with
  | OutResponses command_responses => concat (stripped <$> command_responses)
  | OutStr s => stripped (PyStr s)
  | OutOther => []
  end.

Definition record_output (out : CommandOutput) (agent_texts : list string)
  : list string :=
  let texts := output_texts out in
  if list_truthy texts then agent_texts ++ [String.concat LF texts]
  else agent_texts.

Fixpoint drain_outputs (budget : nat) (q : PyQueue CommandOutput)
    (agent_texts : list string)
  : result (list string) * PyQueue CommandOutput :=
  match budget with
  | O => (Return agent_texts, q)
  | S budget' =>
      match get_nowait q with
      | Empty => (Return agent_texts, q)
      | GetRaises e => (Raise e, q)
      | Got out q' => drain_outputs budget' q' (record_output out agent_texts)
      end
  end.

(** [_drain_agent_outputs] (source lines 207-244). *)
Definition _drain_agent_outputs (max_drain : nat) : Py (list string) := λ s,
  let a := self s in
  match is_initialized a, chat_session a with
  | true, Some cs =>
      let '(r, q') := drain_outputs max_drain (command_output_queue cs) [] in
      (r, mkStore
            (with_chat_session
               (Some (mkSession (command_trace_queue cs) q'
                                (user_message_queue cs))) a)
            (world s) (state s))
  | _, _ => (Return [], s)
  end.

(** [_push_user_message] (source lines 246-250). *)
Definition _push_user_message (user_text : string) : Py unit := λ s,
  let a := self s in
  match is_initialized a, chat_session a with
  | true, Some cs =>
      match put user_text (user_message_queue cs) with
      | Return q' =>
          (Return tt,
           mkStore
             (with_chat_session
                (Some (mkSession (command_trace_queue cs)
                                 (command_output_queue cs) q')) a)
             (world s) (state s))
      | Raise e => (Raise e, s)
      end
  | _, _ => (Return tt, s)
  end.

(** [_convert_commands_to_tool_calls] (source lines 252-266): the loop,
    started from the calls built so far. *)
Fixpoint convert_onto (tool_calls : list ToolCall) (commands : list Command)
  : list ToolCall :=
  match commands with
  | [] => tool_calls
  | (cmd_name, params, _, _) :: rest =>
      convert_onto
        (tool_calls ++
           [mkToolCall ("call_" +:+ pretty (length tool_calls))
                       cmd_name params "assistant"])
        rest
  end.

Definition _convert_commands_to_tool_calls (commands : list Command)
  : list ToolCall := convert_onto [] commands.

(** *** Operations on the state dict *)

Definition KeyError (key : string) : exn := Exception ("'" +:+ key +:+ "'").

Definition not_subscriptable : exn :=
  Exception "'NoneType' object is not subscriptable".

Definition no_append : exn :=
  Exception "'bool' object has no attribute 'append'".

(** [state["message_history"].append(m)]. *)
Definition history_append (m : Message) : Py unit := λ s,
  match state s with
  | None => (Raise not_subscriptable, s)
  | Some d =>
      match d !! "message_history" with
      | None => (Raise (KeyError "message_history"), s)
      | Some (VBool _) => (Raise no_append, s)
      | Some (VList l) =>
          (Return tt,
           mkStore (self s) (world s)
             (Some (<["message_history" := VList (l ++ [ItemMessage m])]> d)))
      end
  end.

(** [state[key] = v]. *)
Definition state_setitem (key : string) (v : StateVal) : Py unit := λ s,
  match state s with
  | None => (Raise (Exception "'NoneType' object does not support item assignment"), s)
  | Some d => (Return tt, mkStore (self s) (world s) (Some (<[key := v]> d)))
  end.

(** The dict [generate_next_message] builds when [state is None]. *)
Definition initial_state : gmap string StateVal :=
  <["message_history" := VList []]>
  (<["awaiting_response" := VBool false]>
  (<["last_tool_calls" := VList []]> ∅)).

(** *** [generate_next_message] (source lines 268-409) *)

Definition max_num_steps : nat := 5000.
Definition idle_limit : nat := 150.

Definition apology : string :=
  "I apologize, but I am unable to assist with this request at this time.".

(** The local variables of the interaction loop.  [progress] is not in
    the source: it keeps the value of [progressed] of every iteration
    executed so far, oldest first ([true] for 1). *)
Record PollVars : Type := mkVars {
  idle_cycles : nat;
  steps_taken : nat;
  all_commands : list Command;
  all_texts : list string;
  progress : list bool
}.

Definition poll_start : PollVars := mkVars 0 0 [] [] [].

(** [for tm in message.tool_messages: state["message_history"].append(tm)]. *)
Fixpoint append_tool_messages (tool_messages : list ToolMessage) : Py unit :=
  match tool_messages with
  | [] => mret tt
  | tm :: rest => history_append (MsgTool tm);; append_tool_messages rest
  end.

(** Source lines 298-324. *)
Definition dispatch (message : ValidAgentInputMessage) : Py unit :=
  match message with
  | InUser m =>
      let user_content := user_content m in
      a ← get_self;
      if negb (is_initialized a)
      then _initialize_fastworkflow user_content;;
           history_append (MsgUser m)
      else _push_user_message user_content;;
           history_append (MsgUser m)
  | InTool m => history_append (MsgTool m)
  | InMultiTool tool_messages => append_tool_messages tool_messages
  end.

(** Source lines 339-348: what an iteration that drained [commands] and
    [texts] does to the loop variables. *)
Definition after_poll (v : PollVars) (commands : list Command)
    (texts : list string) : PollVars :=
  if list_truthy commands || list_truthy texts
  then mkVars 0 (steps_taken v + 1)
              (all_commands v ++ commands) (all_texts v ++ texts)
              (progress v ++ [true])
  else mkVars (idle_cycles v + 1) (steps_taken v + 0)
              (all_commands v) (all_texts v) (progress v ++ [false]).

(** One iteration of the interaction loop up to [steps_taken += progressed]
    (source lines 336-348), after the runner's share. *)
Definition poll_once (v : PollVars) : Py PollVars :=
  runner_turn;;
  commands ← _drain_command_trace 200;
  texts ← _drain_agent_outputs 200;
  mret (after_poll v commands texts).

(** [for _ in range(n)]: the iteration, the idle test with its [break],
    and [time.sleep(0.15)]. *)
Fixpoint poll_loop (n : nat) (v : PollVars) : Py PollVars :=
  match n with
  | O => mret v
  | S n' =>
      v' ← poll_once v;
      if (idle_limit <=? idle_cycles v')%nat then mret v'
      else note time_sleep;; poll_loop n' v'
  end.

Definition opt_list_truthy {A : Type} (o : option (list A)) : bool :=
  match o with Some l => list_truthy l | None => false end.

Definition opt_str_truthy (o : option string) : bool :=
  match o with Some s => str_truthy s | None => false end.

(** Source lines 371-394. *)
Definition build_message (response_content : option string)
    (response_tool_calls : option (list ToolCall)) : AssistantMessage :=
  if opt_list_truthy response_tool_calls
  then mkAssistant "assistant" None response_tool_calls
  else if opt_str_truthy response_content
  then mkAssistant "assistant" response_content None
  else mkAssistant "assistant" (Some apology) None.

(** Source lines 356-396. *)
Definition respond (v : PollVars) : Py AssistantMessage :=
  let response_content :=
    if list_truthy (all_texts v) then last (all_texts v) else None in
  response_tool_calls ←
    (if list_truthy (all_commands v)
     then let calls := _convert_commands_to_tool_calls (all_commands v) in
          state_setitem "last_tool_calls" (VList (ItemToolCall <$> calls));;
          mret (Some calls)
     else mret None);
  let assistant_msg := build_message response_content response_tool_calls in
  history_append (MsgAssistant assistant_msg);;
  mret assistant_msg.

Definition error_message (e : exn) : AssistantMessage :=
  mkAssistant "assistant" (Some ("I encountered an error: " +:+ str e)) None.

(** Source lines 290-296. *)
Definition setup_state : Py unit :=
  st ← get_state;
  match st with
  | None => set_state (Some initial_state)
  | Some _ => mret tt
  end.

(** Source lines 290-324: the state is set up and the message handled. *)
Definition receive (message : ValidAgentInputMessage) : Py unit :=
  setup_state;;
  dispatch message.

(** Source lines 326-397: the interaction loop and the answer built from
    what it collected. *)
Definition answer : Py (AssistantMessage * option (gmap string StateVal)) :=
  v ← poll_loop max_num_steps poll_start;
  assistant_msg ← respond v;
  st' ← get_state;
  mret (assistant_msg, st').

(** The [try] block. *)
Definition turn (message : ValidAgentInputMessage)
  : Py (AssistantMessage * option (gmap string StateVal)) :=
  receive message;;
  answer.

(** The [except Exception as e] clause (source lines 399-409). *)
Definition on_error (e : exn)
  : Py (AssistantMessage * option (gmap string StateVal)) :=
  st ← get_state;
  mret (error_message e, st).

(** [generate_next_message(message, state)]: [state] is passed in, and
    its final value read back, through the store. *)
Definition generate_next_message (message : ValidAgentInputMessage)
  : Py (AssistantMessage * option (gmap string StateVal)) :=
  try_except (turn message) on_error.

(** *** [reset] and [stop] (source lines 411-442) *)

Definition reset : Py unit :=
  a ← get_self;
  (match is_initialized a, chat_session a with
   | true, Some _ =>
       suppress
         (a' ← get_self;
          (match fastworkflow a' with
           | Some _ => lib_call clear_workflow_stack
           | None => mret tt
           end);;
          modify_self (with_chat_session None))
   | _, _ => mret tt
   end);;
  modify_self (with_is_initialized false).

Definition stop (message : option ValidAgentInputMessage) : Py unit := reset.

(** [is_stop] (source lines 463-476). *)
Fixpoint is_prefix (p s : string) : bool :=
  match p, s with
  | EmptyString, _ => true
  | String a p', String b s' => bool_decide (a = b) && is_prefix p' s'
  | String _ _, EmptyString => false
  end.

Fixpoint contains (needle hay : string) : bool :=
  is_prefix needle hay ||
  match hay with
  | String _ hay' => contains needle hay'
  | EmptyString => false
  end.

Definition is_stop (m : AssistantMessage) : bool :=
  match content m with
  | Some c => str_truthy c && contains "###STOP###" c
  | None => false
  end.

(** ** Successive calls *)

(** The evaluator calls [generate_next_message] message after message,
    handing back the state it was returned; no [reset] in between. *)
Fixpoint turns (messages : list ValidAgentInputMessage) (s : Store) : Store :=
  match messages with
  | [] => s
  | m :: rest => turns rest (snd (generate_next_message m s))
  end.

(** ** The vocabulary of the specification *)

(** A record is surfaced when it travels from the runner to the
    evaluator and its action name is a non-empty string. *)
Definition surfaced (evt : CommandTraceEvent) : bool :=
  bool_decide (direction evt = WORKFLOW_TO_AGENT) &&
  match command_name evt with
  | PyStr s => negb (bool_decide (s = ""))
  | _ => false
  end.

(** The batch entry of a surfaced record. *)
Definition command_of (evt : CommandTraceEvent) : Command :=
  (match command_name evt with PyStr s => s | _ => "" end,
   _to_plain_kwargs (parameters evt), response_text evt, success evt).

(** The action call at position [i] of an outbound message. *)
Definition tool_call_at (i : nat) (c : Command) : ToolCall :=
  mkToolCall ("call_" +:+ pretty i) c.1.1.1 c.1.1.2 "assistant".

(** The utterance of one dequeued output: its texts joined by a line
    separator, if it has any. *)
Definition utterance (out : CommandOutput) : option string :=
  match output_texts out with
  | [] => None
  | texts => Some (String.concat LF texts)
  end.

(** The number of consecutive idle iterations at the end of a run, given
    the run's [progressed] flags, oldest first. *)
Fixpoint leading_idle (flags : list bool) : nat :=
  match flags with
  | false :: rest => S (leading_idle rest)
  | _ => O
  end.

Definition consecutive_idle (flags : list bool) : nat :=
  leading_idle (reverse flags).

(** The [initial_message]s of the initialization calls of a trace. *)
Fixpoint initialize_calls (t : list Call) : list string :=
  match t with
  | [] => []
  | initialize m :: rest => m :: initialize_calls rest
  | _ :: rest => initialize_calls rest
  end.

(** The [time.sleep] calls of a trace. *)
Fixpoint sleeps (t : list Call) : nat :=
  match t with
  | [] => O
  | time_sleep :: rest => S (sleeps rest)
  | _ :: rest => sleeps rest
  end.

(** What a call returned, if it returned, and what it raised, if it
    raised. *)
Definition returned {A : Type} (r : result A) : option A :=
  match r with Return a => Some a | Raise _ => None end.

Definition raised {A : Type} (r : result A) : option exn :=
  match r with Return _ => None | Raise e => Some e end.

(** The message [generate_next_message] returned. *)
Definition returned_message {B : Type} (r : result (AssistantMessage * B))
  : option AssistantMessage :=
  fst <$> returned r.

(** Texts that are all non-empty strings. *)
Definition truthy_texts (texts : list string) : Prop :=
  Forall (λ t, str_truthy t = true) texts.

(** The content / tool-calls shape of an outbound message. *)
Definition only_content (m : AssistantMessage) : Prop :=
  (∃ c, content m = Some c) ∧ tool_calls m = None.

Definition only_tool_calls (m : AssistantMessage) : Prop :=
  content m = None ∧ ∃ calls, tool_calls m = Some calls ∧ calls ≠ [].

(** The message [respond] builds from the collected batch. *)
Definition outbound (v : PollVars) : AssistantMessage :=
  build_message
    (if list_truthy (all_texts v) then last (all_texts v) else None)
    (if list_truthy (all_commands v)
     then Some (_convert_commands_to_tool_calls (all_commands v))
     else None).

(** The value of [state["message_history"]]. *)
Definition history_of (st : option (gmap string StateVal)) : option StateVal :=
  d ← st; d !! "message_history".

(** The messages a turn adds to the history before it polls. *)
Definition inbound (message : ValidAgentInputMessage) : list Message :=
  match message with
  | InUser m => [MsgUser m]
  | InTool m => [MsgTool m]
  | InMultiTool tool_messages => MsgTool <$> tool_messages
  end.

(** The history of [st'] is the history of [st], a list, followed by
    [ms]. *)
Definition grown (ms : list Message)
    (st st' : option (gmap string StateVal)) : Prop :=
  ∃ l, history_of st = Some (VList l) ∧
       history_of st' = Some (VList (l ++ (ItemMessage <$> ms))).

(** The state the [try] block works on once it is set up. *)
Definition set_up (st : option (gmap string StateVal))
  : option (gmap string StateVal) :=
  Some (default initial_state st).

(** ** Relations between the store before and after a step *)

(** Every run of [m], returning or raising, relates the store it starts
    from to the store it ends in. *)
Definition preserves {A : Type} (R : relation Store) (m : Py A) : Prop :=
  ∀ s r s', m s = (r, s') → R s s'.

(** From [s] to [s'] the initialized flag, the module object and the
    pending library outcomes are kept, and the trace grows by [k] calls
    of [time.sleep] and nothing else. *)
Definition steady (k : nat) (s s' : Store) : Prop :=
  is_initialized (self s') = is_initialized (self s) ∧
  fastworkflow (self s') = fastworkflow (self s) ∧
  workflow_path (self s') = workflow_path (self s) ∧
  faults (world s') = faults (world s) ∧
  trace (world s') = trace (world s) ++ replicate k time_sleep.

(** A computation all of whose runs are steady without sleeping. *)
Definition still {A : Type} (m : Py A) : Prop := preserves (steady 0) m.

(** The [state] variable and the dict it refers to are kept. *)
Definition same_state (s s' : Store) : Prop := state s' = state s.

(** The content of the input sink, if there is a session. *)
Definition sink (s : Store) : option (list string) :=
  (λ cs, items (user_message_queue cs)) <$> chat_session (self s).

Definition same_sink (s s' : Store) : Prop := sink s' = sink s.

(** From [s] to [s'] nothing but sleeping reached the trace, and the
    initialized flag is the same. *)
Definition quiet (s s' : Store) : Prop := ∃ k, steady k s s'.

(** ** Scenarios *)

Definition retail : string := "examples/retail_workflow".

Definition cancel_event : CommandTraceEvent :=
  mkEvent WORKFLOW_TO_AGENT (PyStr "cancel_pending_order")
          (PyDict [("order_id", PyStr "#W123")]) None true.

Definition echo_event : CommandTraceEvent :=
  mkEvent AGENT_TO_WORKFLOW (PyStr "cancel_pending_order") PyNone None true.

Definition cancel_request : ValidAgentInputMessage :=
  InUser (mkUser "I want to cancel order #W123").

(** A runner that answers the start-up text, on the second poll, with an
    echo, an executed action and a line of text. *)
Definition cancel_world : World :=
  mkWorld []
    [Produces [] [];
     Produces [echo_event; cancel_event] [OutStr " Checking your order "]]
    [].

Definition cancel_store : Store :=
  mkStore (fresh_adapter retail) cancel_world None.

Definition cancel_call : ToolCall :=
  mkToolCall "call_0" "cancel_pending_order" [("order_id", PyStr "#W123")]
             "assistant".

(** A session that is up, with the given queue contents. *)
Definition running_store (events : list CommandTraceEvent)
    (outputs : list CommandOutput) : Store :=
  mkStore
    (mkAdapter retail (Some fastworkflow_module)
       (Some (mkSession (mkQueue events None) (mkQueue outputs None)
                        empty_queue))
       true)
    (mkWorld [] [] []) (Some initial_state).

Definition blank_event : CommandTraceEvent :=
  mkEvent WORKFLOW_TO_AGENT (PyStr "") PyNone None true.

Definition status_event : CommandTraceEvent :=
  mkEvent WORKFLOW_TO_AGENT (PyStr "get_order_details")
          (PyDict [("order_id", PyStr "#W123")]) (Some "pending") true.

Definition two_actions : PollVars :=
  mkVars 150 1 [command_of cancel_event; command_of status_event] [] [true].

Definition tool_result : ValidAgentInputMessage :=
  InTool (mkTool "call_0" "order #W123 is pending").

Definition checking : string := "Checking your order...".
Definition which_reason : string :=
  "Which reason: no longer needed or ordered by mistake?".

(** Two outputs waiting in the queue when the turn starts: the first poll
    iteration takes both. *)
Definition two_outputs_store : Store :=
  running_store [] [OutStr checking; OutStr which_reason].

(** A runner that first reports progress and then asks, in one output
    with two responses, its question. *)
Definition question_world : World :=
  mkWorld []
    [Produces [] [OutStr checking];
     Produces [] [OutResponses [PyStr " Which reason: no longer needed ";
                                PyNone; PyStr "   ";
                                PyStr "or ordered by mistake?"]]]
    [].

Definition question_store : Store :=
  mkStore (fresh_adapter retail) question_world None.

Definition question : string :=
  "Which reason: no longer needed" +:+ LF +:+ "or ordered by mistake?".

(** The workflow cannot be started: the fifth library call of the
    initialization, [start_workflow], raises. *)
Definition missing_assets : exn := Exception "workflow folder not found".

Definition missing_assets_world : World :=
  mkWorld [None; None; None; None; Some missing_assets] [] [].

Definition missing_assets_store : Store :=
  mkStore (fresh_adapter retail) missing_assets_world None.

(** The runner stops while the adapter waits for its answer. *)
Definition runner_stopped : exn := Exception "runner stopped".

Definition stopping_store : Store :=
  mkStore
    (mkAdapter retail (Some fastworkflow_module) (Some new_session) true)
    (mkWorld [] [Produces [] []; Crashes runner_stopped] [])
    (Some initial_state).

(** The adapter a failed initialization leaves behind, once the session
    had been created: uninitialized, with a session handle. *)
Definition after_failed_start : Store :=
  snd (generate_next_message cancel_request missing_assets_store).

(** Texts with whitespace beyond ASCII, by their bytes. *)
Definition utf8 (bytes : list nat) : string :=
  foldr (λ n s, String (Ascii.ascii_of_nat n) s) EmptyString bytes.

Definition no_break_space : string := utf8 [194; 160].
Definition em_space : string := utf8 [226; 128; 131].
Definition zero_width_space : string := utf8 [226; 128; 139].

(** The whitespace characters beyond ASCII, encoded. *)
Definition wide_spaces : list string :=
  utf8 <$> [[194; 133]; [194; 160]; [225; 154; 128];
            [226; 128; 128]; [226; 128; 129]; [226; 128; 130];
            [226; 128; 131]; [226; 128; 132]; [226; 128; 133];
            [226; 128; 134]; [226; 128; 135]; [226; 128; 136];
            [226; 128; 137]; [226; 128; 138]; [226; 128; 168];
            [226; 128; 169]; [226; 128; 175]; [226; 129; 159];
            [227; 128; 128]].

(** A library that cannot even be imported, and two user messages. *)
Definition import_error : exn := Exception "No module named 'fastworkflow'".

Definition broken_install_store : Store :=
  mkStore (fresh_adapter retail)
          (mkWorld [Some import_error; Some import_error] [] []) None.

(** ** Further vocabulary and scenarios *)

(** Records waiting in the trace queue when the runner dies. *)
Definition crashing_store : Store :=
  mkStore
    (mkAdapter retail (Some fastworkflow_module)
       (Some (mkSession (mkQueue [cancel_event; status_event] None)
                        empty_queue empty_queue))
       true)
    (mkWorld [] [Crashes runner_stopped] [])
    (Some initial_state).

(** The value of [state[key]], if the state is a dict that has the key. *)
Definition field (key : string) (st : option (gmap string StateVal))
  : option StateVal :=
  d ← st; d !! key.

(** The entry of the state dict under [key] is kept. *)
Definition same_field (key : string) (s s' : Store) : Prop :=
  field key (state s') = field key (state s).

(** What [state["message_history"].append(m)] raises on a state whose
    history is not a list. *)
Definition history_error (st : option (gmap string StateVal)) : option exn :=
  match st with
  | None => Some not_subscriptable
  | Some d =>
      match d !! "message_history" with
      | None => Some (KeyError "message_history")
      | Some (VBool _) => Some no_append
      | Some (VList _) => None
      end
  end.

(** A message that carries tool results. *)
Definition tool_results (message : ValidAgentInputMessage) : bool :=
  match message with
  | InUser _ => false
  | InTool _ | InMultiTool _ => true
  end.

(** A state handed over without its history. *)
Definition no_history_state : gmap string StateVal :=
  <["awaiting_response" := VBool false]> ∅.

Definition no_history_store : Store :=
  mkStore
    (mkAdapter retail (Some fastworkflow_module) (Some new_session) true)
    (mkWorld [] [] []) (Some no_history_state).

(** A session whose input sink has been shut down. *)
Definition sink_closed : exn := Exception "queue is shut down".

Definition closed_sink_store : Store :=
  mkStore
    (mkAdapter retail (Some fastworkflow_module)
       (Some (mkSession empty_queue empty_queue (mkQueue [] (Some sink_closed))))
       true)
    (mkWorld [] [] []) (Some initial_state).

(** A store on which the polls of a turn find nothing: the adapter is not
    initialized or has no session, or the session's trace and output
    queues are empty and usable and the runner stays inactive. *)
Definition silent (s : Store) : Prop :=
  is_initialized (self s) = false ∨
  chat_session (self s) = None ∨
  ∃ cs, chat_session (self s) = Some cs ∧
        command_trace_queue cs = empty_queue ∧
        command_output_queue cs = empty_queue ∧
        schedule (world s) = [].

(** The message returned when the runner stayed silent. *)
Definition apology_message : AssistantMessage :=
  mkAssistant "assistant" (Some apology) None.

(** A runner whose answer carries the stop signal. *)
Definition goodbye : string := "Your order is cancelled. ###STOP###".

Definition goodbye_store : Store := running_store [] [OutStr goodbye].

(** ** The constructor and the working directory *)

(** What the constructor sees of the file system: [os.getcwd()] and
    [os.path.exists]. *)
Record FileSystem : Type := mkFileSystem {
  getcwd : string;
  path_exists : string → bool
}.

Fixpoint ends_with_sep (s : string) : bool :=
  match s with
  | EmptyString => false
  | String c EmptyString => bool_decide (String c EmptyString = "/")
  | String _ rest => ends_with_sep rest
  end.

(** One round of the loop of [os.path.join], as [posixpath] has it: a
    component that starts with the separator replaces what came before. *)
Definition join_step (path b : string) : string :=
  if is_prefix "/" b then b
  else if negb (str_truthy path) || ends_with_sep path then path +:+ b
  else path +:+ "/" +:+ b.

Definition path_join (a : string) (p : list string) : string :=
  foldl join_step a p.

Definition FileNotFoundError (workflow_type workflow_path : string) : exn :=
  Exception ("Could not find " +:+ workflow_type +:+
             " workflow. Expected at: " +:+ workflow_path +:+
             ". Run 'fastworkflow examples fetch " +:+ workflow_type +:+
             "_workflow' to install it.").

(** [_find_workflow_path] (source lines 90-101). *)
Definition _find_workflow_path (fs : FileSystem) (workflow_type : string)
  : result string :=
  let current_dir := getcwd fs in
  let workflow_path :=
    path_join current_dir ["examples"; workflow_type +:+ "_workflow"] in
  if path_exists fs workflow_path then Return workflow_path
  else Raise (FileNotFoundError workflow_type workflow_path).

(** [__init__] (source lines 46-88), by the attributes the other methods
    read. *)
Definition __init__ (fs : FileSystem) (workflow_type : string)
  : result FastWorkflowAgentAdapter :=
  match _find_workflow_path fs workflow_type with
  | Return workflow_path => Return (mkAdapter workflow_path None None false)
  | Raise e => Raise e
  end.

(** ** The life of an adapter *)

(** The calls an evaluator makes on one adapter object.  [Generate]
    passes the state the evaluator holds and keeps the state returned;
    [GetInitState] replaces the state the evaluator holds by the one
    [get_init_state] returns. *)
Inductive Invocation : Type :=
  | Generate (message : ValidAgentInputMessage)
  | ResetAdapter
  | StopAdapter (message : option ValidAgentInputMessage)
  | GetInitState (message_history : option (list Message)).

Definition invoke (inv : Invocation) (s : Store) : Store :=
  match inv with
  | Generate message => snd (generate_next_message message s)
  | ResetAdapter => snd (reset s)
  | StopAdapter message => snd (stop message s)
  | GetInitState message_history =>
      mkStore (self s) (world s) (Some (get_init_state message_history))
  end.

Definition run (invs : list Invocation) (s : Store) : Store :=
  foldl (λ s inv, invoke inv s) s invs.

(** The initialization calls a life is expected to make when the library
    never fails: one for each user message that finds the adapter
    uninitialized, with that message's text. *)
Fixpoint expected_initializations (initialized : bool)
    (invs : list Invocation) : list string :=
  match invs with
  | [] => []
  | Generate (InUser m) :: rest =>
      if initialized then expected_initializations true rest
      else user_content m :: expected_initializations true rest
  | Generate _ :: rest => expected_initializations initialized rest
  | GetInitState _ :: rest => expected_initializations initialized rest
  | ResetAdapter :: rest | StopAdapter _ :: rest =>
      expected_initializations false rest
  end.

(** From [s] to [s'] the workflow path is kept, the trace only grows, and
    every workflow started in between is started on that path with a
    start-up command that satisfies [P]. *)
Definition launches (P : string → Prop) (s s' : Store) : Prop :=
  workflow_path (self s') = workflow_path (self s) ∧
  ∃ new, trace (world s') = trace (world s) ++ new ∧
         ∀ p c, start_workflow p c ∈ new → p = workflow_path (self s) ∧ P c.

(** A session handle, once there, is still there. *)
Definition session_kept (s s' : Store) : Prop :=
  is_Some (chat_session (self s)) → is_Some (chat_session (self s')).

(** An initialized adapter holds the module and a session. *)
Definition coherent (a : FastWorkflowAgentAdapter) : Prop :=
  is_initialized a = true →
  fastworkflow a = Some fastworkflow_module ∧ is_Some (chat_session a).

(** A working directory with the retail workflow installed. *)
Definition home : FileSystem :=
  mkFileSystem "/home/user/bench"
    (λ p, bool_decide (p = "/home/user/bench/examples/retail_workflow")).

(** A library whose [clear_workflow_stack] fails. *)
Definition stack_error : exn := Exception "no workflow stack".

Definition failing_clear_store : Store :=
  mkStore (fresh_adapter retail)
          (mkWorld [None; None; Some stack_error] [] []) None.

Definition failing_reset_store : Store :=
  mkStore
    (mkAdapter retail (Some fastworkflow_module) (Some new_session) true)
    (mkWorld [Some stack_error] [] []) (Some initial_state).

(** An adapter and a runner with nothing scheduled, before the first
    message. *)
Definition idle_store : Store :=
  mkStore (fresh_adapter retail) (mkWorld [] [] []) None.

(** The workflows started in a trace: path and start-up command. *)
Fixpoint workflow_starts (t : list Call) : list (string * string) :=
  match t with
  | [] => []
  | start_workflow p c :: rest => (p, c) :: workflow_starts rest
  | _ :: rest => workflow_starts rest
  end.

(* ================================================================= *)
(** * Properties *)

(** ** Python computations *)

Lemma bind_inv {A B : Type} (m : Py A) (k : A → Py B) s r s' :
  (m ≫= k) s = (r, s') →
  (∃ a s1, m s = (Return a, s1) ∧ k a s1 = (r, s')) ∨
  (∃ e, m s = (Raise e, s') ∧ r = Raise e).
Proof.
  unfold mbind, Py_bind. destruct (m s) as [[a|e] s1]; intros H.
  - left. eauto.
  - right. exists e. by simplify_eq.
Qed.

Lemma bind_Return {A B : Type} (m : Py A) (k : A → Py B) s a s1 :
  m s = (Return a, s1) → (m ≫= k) s = k a s1.
Proof. unfold mbind, Py_bind. by intros ->. Qed.

Lemma bind_Raise {A B : Type} (m : Py A) (k : A → Py B) s e s1 :
  m s = (Raise e, s1) → (m ≫= k) s = (Raise e, s1).
Proof. unfold mbind, Py_bind. by intros ->. Qed.

Lemma returned_inv {A : Type} (x : result A * Store) a :
  returned (fst x) = Some a → x = (Return a, snd x).
Proof. destruct x as [[a'|e] s]; simpl; by intros [= ->]. Qed.

Lemma raised_inv {A : Type} (x : result A * Store) e :
  raised (fst x) = Some e → x = (Raise e, snd x).
Proof. destruct x as [[a|e'] s]; simpl; by intros [= ->]. Qed.

(** ** Strings *)

Lemma str_truthy_app (a b : string) :
  str_truthy a = true → str_truthy (a +:+ b) = true.
Proof. by destruct a. Qed.

Lemma concat_truthy (sep : string) (texts : list string) :
  texts ≠ [] → Forall (λ t, str_truthy t = true) texts →
  str_truthy (String.concat sep texts) = true.
Proof.
  destruct texts as [|t ts]; [done|]. intros _ H.
  apply Forall_cons in H as [Ht _]. simpl.
  destruct ts; [done|]. by apply str_truthy_app.
Qed.

Lemma is_prefix_refl (s : string) : is_prefix s s = true.
Proof.
  induction s as [|c s IH]; simpl; [done|].
  rewrite bool_decide_eq_true_2; done.
Qed.

Lemma contains_app_r (p s : string) : contains s (p +:+ s) = true.
Proof.
  induction p as [|c p IH]; simpl.
  - destruct s; simpl; [done|].
    rewrite bool_decide_eq_true_2 by done. by rewrite is_prefix_refl.
  - rewrite IH. apply orb_true_r.
Qed.

(** ** Draining the two queues *)

Lemma record_command_app fw evt acc :
  record_command fw evt acc = acc ++ record_command fw evt [].
Proof.
  unfold record_command.
  destruct (is_agent_to_workflow fw evt); [by rewrite app_nil_r|].
  destruct (command_name evt); try by rewrite app_nil_r.
  destruct (0 <? String.length s)%nat; [done|by rewrite app_nil_r].
Qed.

Lemma record_command_surfaced m evt :
  record_command (Some m) evt [] =
  if surfaced evt then [command_of evt] else [].
Proof.
  unfold record_command, surfaced, command_of, is_agent_to_workflow.
  destruct (direction evt); simpl; [done|].
  destruct (command_name evt) as [| | |s|]; try done.
  by destruct s.
Qed.

Lemma drain_trace_live fw budget l acc :
  drain_trace fw budget (mkQueue l None) acc =
  (Return (acc ++ (take budget l ≫= λ evt, record_command fw evt [])),
   mkQueue (drop budget l) None).
Proof.
  revert l acc. induction budget as [|n IH]; intros l acc; simpl.
  - by rewrite app_nil_r.
  - destruct l as [|evt l]; simpl.
    + by rewrite app_nil_r.
    + unfold get_nowait; simpl. rewrite IH.
      rewrite (record_command_app fw evt acc), <- app_assoc. done.
Qed.

Lemma record_output_utterance out acc :
  record_output out acc = acc ++ option_list (utterance out).
Proof.
  unfold record_output, utterance.
  destruct (output_texts out); simpl; [by rewrite app_nil_r|done].
Qed.

Lemma drain_outputs_live budget l acc :
  drain_outputs budget (mkQueue l None) acc =
  (Return (acc ++ omap utterance (take budget l)),
   mkQueue (drop budget l) None).
Proof.
  revert l acc. induction budget as [|n IH]; intros l acc; simpl.
  - by rewrite app_nil_r.
  - destruct l as [|out l]; simpl.
    + by rewrite app_nil_r.
    + unfold get_nowait; simpl. rewrite IH, record_output_utterance.
      rewrite <- app_assoc. by destruct (utterance out).
Qed.

(** [lstrip] drops one whitespace character after the other. *)
Lemma lstrip_decode s :
  lstrip s =
  match decode s with
  | Some (cp, rest) => if isspace cp then lstrip rest else s
  | None => s
  end.
Proof.
  destruct s as [|a r1]; [done|].
  cbn [lstrip]. unfold space_width.
  destruct (decode (String a r1)) as [[cp rest]|] eqn:E; [|done].
  destruct (isspace cp) eqn:Ec; [|done].
  unfold decode in E.
  destruct (Ascii.N_of_ascii a <? 0x80)%N.
  { injection E as _ <-. cbn [String.length].
    by replace (S (String.length r1) - String.length r1) with 1 by lia. }
  destruct (Ascii.N_of_ascii a <? 0xC0)%N; [done|].
  destruct (Ascii.N_of_ascii a <? 0xE0)%N.
  { destruct r1 as [|b r2]; [done|]. injection E as _ <-. cbn [String.length].
    by replace (S (S (String.length r2)) - String.length r2) with 2 by lia. }
  destruct (Ascii.N_of_ascii a <? 0xF0)%N.
  { destruct r1 as [|b [|c r3]]; try done. injection E as _ <-.
    cbn [String.length].
    by replace (S (S (S (String.length r3))) - String.length r3) with 3 by lia. }
  destruct r1 as [|b [|c [|d r4]]]; try done. injection E as _ <-.
  cbn [String.length].
  by replace (S (S (S (S (String.length r4)))) - String.length r4) with 4 by lia.
Qed.

(** What [rstrip] cuts off is whitespace only. *)
Lemma rstrip_split s : ∃ w, s = rstrip s +:+ w ∧ lstrip w = "".
Proof.
  induction s as [|a r IH]; [by exists ""|].
  cbn [rstrip]. destruct (str_truthy (lstrip (String a r))) eqn:E.
  - destruct IH as (w & Hr & Hw). exists w. split; [|done].
    change (String a r = String a (rstrip r +:+ w)). by rewrite <- Hr.
  - exists (String a r). split; [done|].
    by destruct (lstrip (String a r)).
Qed.

(** Whitespace beyond ASCII is whitespace to [strip]; a zero-width space
    is not. *)
Example strip_unicode :
  strip (no_break_space +:+ "hi" +:+ em_space) = "hi" ∧
  strip no_break_space = "" ∧
  strip ("a" +:+ no_break_space +:+ "b") = "a" +:+ no_break_space +:+ "b" ∧
  strip (zero_width_space +:+ "x ") = zero_width_space +:+ "x" ∧
  strip (" " +:+ LF +:+ "Which reason? " +:+ LF) = "Which reason?" ∧
  forallb (λ c, String.eqb (strip (c +:+ "x" +:+ c)) "x") wide_spaces = true.
Proof.
  split; [vm_compute; reflexivity|]. split; [vm_compute; reflexivity|].
  split; [vm_compute; reflexivity|]. split; [vm_compute; reflexivity|].
  split; vm_compute; reflexivity.
Qed.

Lemma stripped_truthy v : truthy_texts (stripped v).
Proof.
  destruct v; simpl; try by constructor.
  destruct (str_truthy (strip s)) eqn:E; repeat constructor. done.
Qed.

Lemma output_texts_truthy out : truthy_texts (output_texts out).
Proof.
  destruct out as [crs|s|]; simpl.
  - induction crs as [|cr crs IH]; simpl; [constructor|].
    apply Forall_app. split; [apply stripped_truthy|done].
  - apply (stripped_truthy (PyStr s)).
  - constructor.
Qed.

Lemma utterance_truthy out t : utterance out = Some t → str_truthy t = true.
Proof.
  unfold utterance. pose proof (output_texts_truthy out) as H.
  destruct (output_texts out) as [|x xs] eqn:E; [done|].
  intros [= <-]. by apply (concat_truthy LF (x :: xs)).
Qed.

Lemma record_output_truthy out acc :
  truthy_texts acc → truthy_texts (record_output out acc).
Proof.
  intros H. rewrite record_output_utterance. apply Forall_app. split; [done|].
  destruct (utterance out) eqn:E; simpl; [|constructor].
  repeat constructor. by eapply utterance_truthy.
Qed.

Lemma drain_outputs_truthy budget q acc texts q' :
  truthy_texts acc →
  drain_outputs budget q acc = (Return texts, q') → truthy_texts texts.
Proof.
  revert q acc. induction budget as [|n IH]; intros q acc Hacc; simpl.
  - by intros [= <- _].
  - destruct (get_nowait q) as [out q1| |e].
    + apply IH. by apply record_output_truthy.
    + by intros [= <- _].
    + done.
Qed.

Lemma _drain_agent_outputs_truthy max_drain s texts s' :
  _drain_agent_outputs max_drain s = (Return texts, s') → truthy_texts texts.
Proof.
  unfold _drain_agent_outputs.
  destruct (is_initialized (self s)); [|intros [= <- _]; constructor].
  destruct (chat_session (self s)) as [cs|]; [|intros [= <- _]; constructor].
  destruct (drain_outputs max_drain (command_output_queue cs) []) as [r q'] eqn:E.
  intros [= -> _]. eapply drain_outputs_truthy; [|exact E]. constructor.
Qed.

Lemma poll_loop_S n v :
  poll_loop (S n) v =
  (v' ← poll_once v;
   if (idle_limit <=? idle_cycles v')%nat then mret v'
   else note time_sleep;; poll_loop n v').
Proof. reflexivity. Qed.

(** ** What a step leaves as it was *)

Section preserves.
  Context (R : relation Store) `{!PreOrder R}.

Lemma preserves_ret {A : Type} (a : A) : preserves R (mret a : Py A).
Proof. intros s r s' [= _ <-]. reflexivity. Qed.

Lemma preserves_raise {A : Type} (e : exn) : preserves R (raise e : Py A).
Proof. intros s r s' [= _ <-]. reflexivity. Qed.

Lemma preserves_get_self : preserves R get_self.
Proof. intros s r s' [= _ <-]. reflexivity. Qed.

Lemma preserves_get_state : preserves R get_state.
Proof. intros s r s' [= _ <-]. reflexivity. Qed.

Lemma preserves_bind {A B : Type} (m : Py A) (k : A → Py B) :
  preserves R m → (∀ a, preserves R (k a)) → preserves R (m ≫= k).
Proof.
  intros Hm Hk s r s' H.
  apply bind_inv in H as [(a & s1 & H1 & H2)|(e & H1 & _)].
  - transitivity s1; [by eapply Hm|by eapply Hk].
  - by eapply Hm.
Qed.

Lemma preserves_try_except {A : Type} (m : Py A) (h : exn → Py A) :
  preserves R m → (∀ e, preserves R (h e)) → preserves R (try_except m h).
Proof.
  intros Hm Hh s r s'. unfold try_except.
  destruct (m s) as [[a|e] s1] eqn:E.
  - intros [= _ <-]. by eapply Hm.
  - intros H. transitivity s1; [by eapply Hm|by eapply Hh].
Qed.

Lemma preserves_suppress (m : Py unit) :
  preserves R m → preserves R (suppress m).
Proof.
  intros Hm. apply preserves_try_except; [done|].
  intros _. apply preserves_ret.
Qed.

(** The interaction loop, from what one iteration and one sleep do. *)
Lemma preserves_poll_loop n v :
  (∀ v0, preserves R (poll_once v0)) → preserves R (note time_sleep) →
  preserves R (poll_loop n v).
Proof.
  intros Honce Hsleep. revert v. induction n as [|n IH]; intros v.
  - apply preserves_ret.
  - rewrite poll_loop_S. apply preserves_bind; [done|]. intros v'.
    destruct (idle_limit <=? idle_cycles v')%nat; [apply preserves_ret|].
    apply preserves_bind; [done|]. intros _. apply IH.
Qed.
End preserves.

(** *** Steps that neither initialize nor call the library *)

Lemma steady_refl s : steady 0 s s.
Proof. unfold steady. simpl. by rewrite app_nil_r. Qed.

Lemma steady_trans j k s s1 s2 :
  steady j s s1 → steady k s1 s2 → steady (j + k) s s2.
Proof.
  intros (H1 & H2 & H3 & H4 & H5) (G1 & G2 & G3 & G4 & G5).
  unfold steady. rewrite G1, G2, G3, G4, G5, H5, replicate_add, app_assoc. done.
Qed.

Global Instance steady_preorder : PreOrder (steady 0).
Proof.
  split; [intros s; apply steady_refl|].
  intros s s1 s2 H1 H2. apply (steady_trans 0 0 s s1 s2 H1 H2).
Qed.

Global Instance same_state_preorder : PreOrder same_state.
Proof. split; unfold same_state; [done|]. intros s s1 s2 H1 H2. congruence. Qed.

Global Instance same_sink_preorder : PreOrder same_sink.
Proof. split; unfold same_sink; [done|]. intros s s1 s2 H1 H2. congruence. Qed.

(** Follows each branch of an unfolded primitive. *)
Ltac branches :=
  intros s r s'; cbv beta delta [mbind Py_bind mret Py_ret get_self get_state
                                   set_state set_self];
  repeat case_match; intros ?; simplify_eq;
  first
    [ reflexivity
    | by (unfold steady; simpl; rewrite ?app_nil_r)
    | by (unfold same_state; simpl)
    | by (unfold same_sink, sink, deliver; simpl in *;
          repeat match goal with
                 | H : chat_session _ = _ |- _ => rewrite H
                 end; simpl;
          repeat case_match) ].

Lemma still_runner_turn : still runner_turn.
Proof. unfold runner_turn. branches. Qed.

Lemma still__drain_command_trace max_drain : still (_drain_command_trace max_drain).
Proof. unfold _drain_command_trace. branches. Qed.

Lemma still__drain_agent_outputs max_drain : still (_drain_agent_outputs max_drain).
Proof. unfold _drain_agent_outputs. branches. Qed.

Lemma still__push_user_message user_text : still (_push_user_message user_text).
Proof. unfold _push_user_message. branches. Qed.

Lemma still_history_append m : still (history_append m).
Proof. unfold history_append. branches. Qed.

Lemma still_state_setitem key v : still (state_setitem key v).
Proof. unfold state_setitem. branches. Qed.

Lemma still_setup_state : still setup_state.
Proof. unfold setup_state. branches. Qed.

Lemma still_append_tool_messages tms : still (append_tool_messages tms).
Proof.
  induction tms as [|tm tms IH]; simpl.
  - apply preserves_ret, _.
  - apply preserves_bind; [apply _|apply still_history_append|done].
Qed.

Lemma still_poll_once v : still (poll_once v).
Proof.
  unfold poll_once.
  apply preserves_bind; [apply _|apply still_runner_turn|intros _].
  apply preserves_bind; [apply _|apply still__drain_command_trace|intros commands].
  apply preserves_bind; [apply _|apply still__drain_agent_outputs|intros texts].
  apply preserves_ret, _.
Qed.

Lemma still_respond v : still (respond v).
Proof.
  unfold respond. apply preserves_bind; [apply _| |].
  - destruct (list_truthy (all_commands v)); [|apply preserves_ret, _].
    apply preserves_bind; [apply _|apply still_state_setitem|].
    intros _. apply preserves_ret, _.
  - intros calls. apply preserves_bind; [apply _|apply still_history_append|].
    intros _. apply preserves_ret, _.
Qed.

Lemma note_sleep_steady s r s' : note time_sleep s = (r, s') → steady 1 s s'.
Proof. intros [= _ <-]. by unfold steady. Qed.

(** *** Steps that keep the state dict *)

Lemma same_state_runner_turn : preserves same_state runner_turn.
Proof. unfold runner_turn. branches. Qed.

Lemma same_state__drain_command_trace max_drain :
  preserves same_state (_drain_command_trace max_drain).
Proof. unfold _drain_command_trace. branches. Qed.

Lemma same_state__drain_agent_outputs max_drain :
  preserves same_state (_drain_agent_outputs max_drain).
Proof. unfold _drain_agent_outputs. branches. Qed.

Lemma same_state__push_user_message user_text :
  preserves same_state (_push_user_message user_text).
Proof. unfold _push_user_message. branches. Qed.

Lemma same_state_note c : preserves same_state (note c).
Proof. unfold note. branches. Qed.

Lemma same_state_lib_call c : preserves same_state (lib_call c).
Proof. unfold lib_call. branches. Qed.

Lemma same_state_modify_self f : preserves same_state (modify_self f).
Proof. unfold modify_self. branches. Qed.

Lemma same_state_poll_once v : preserves same_state (poll_once v).
Proof.
  unfold poll_once.
  apply preserves_bind; [apply _|apply same_state_runner_turn|intros _].
  apply preserves_bind; [apply _|apply same_state__drain_command_trace|intros ?].
  apply preserves_bind; [apply _|apply same_state__drain_agent_outputs|intros ?].
  apply preserves_ret, _.
Qed.

Lemma same_state_poll_loop n v : preserves same_state (poll_loop n v).
Proof.
  apply preserves_poll_loop; [apply _|apply same_state_poll_once|].
  apply same_state_note.
Qed.

(** *** Steps that keep the input sink *)

Lemma same_sink_runner_turn : preserves same_sink runner_turn.
Proof. unfold runner_turn. branches. Qed.

Lemma same_sink__drain_command_trace max_drain :
  preserves same_sink (_drain_command_trace max_drain).
Proof. unfold _drain_command_trace. branches. Qed.

Lemma same_sink__drain_agent_outputs max_drain :
  preserves same_sink (_drain_agent_outputs max_drain).
Proof. unfold _drain_agent_outputs. branches. Qed.

Lemma same_sink_note c : preserves same_sink (note c).
Proof. unfold note. branches. Qed.

Lemma same_sink_history_append m : preserves same_sink (history_append m).
Proof. unfold history_append. branches. Qed.

Lemma same_sink_state_setitem key v : preserves same_sink (state_setitem key v).
Proof. unfold state_setitem. branches. Qed.

Lemma same_sink_poll_once v : preserves same_sink (poll_once v).
Proof.
  unfold poll_once.
  apply preserves_bind; [apply _|apply same_sink_runner_turn|intros _].
  apply preserves_bind; [apply _|apply same_sink__drain_command_trace|intros ?].
  apply preserves_bind; [apply _|apply same_sink__drain_agent_outputs|intros ?].
  apply preserves_ret, _.
Qed.

Lemma same_sink_poll_loop n v : preserves same_sink (poll_loop n v).
Proof.
  apply preserves_poll_loop; [apply _|apply same_sink_poll_once|].
  apply same_sink_note.
Qed.

Lemma same_sink_respond v : preserves same_sink (respond v).
Proof.
  unfold respond. apply preserves_bind; [apply _| |].
  - destruct (list_truthy (all_commands v)); [|apply preserves_ret, _].
    apply preserves_bind; [apply _|apply same_sink_state_setitem|].
    intros _. apply preserves_ret, _.
  - intros calls. apply preserves_bind; [apply _|apply same_sink_history_append|].
    intros _. apply preserves_ret, _.
Qed.

(** ** The interaction loop *)

Lemma consecutive_idle_true flags : consecutive_idle (flags ++ [true]) = 0.
Proof. unfold consecutive_idle. by rewrite reverse_snoc. Qed.

Lemma consecutive_idle_false flags :
  consecutive_idle (flags ++ [false]) = S (consecutive_idle flags).
Proof. unfold consecutive_idle. by rewrite reverse_snoc. Qed.

Lemma poll_once_Return v s v1 s1 :
  poll_once v s = (Return v1, s1) →
  ∃ commands texts sa sb,
    runner_turn s = (Return tt, sa) ∧
    _drain_command_trace 200 sa = (Return commands, sb) ∧
    _drain_agent_outputs 200 sb = (Return texts, s1) ∧
    v1 = after_poll v commands texts.
Proof.
  unfold poll_once. intros H.
  apply bind_inv in H as [([] & sa & Ha & H)|(e & _ & ?)]; [|done].
  apply bind_inv in H as [(commands & sb & Hb & H)|(e & _ & ?)]; [|done].
  apply bind_inv in H as [(texts & sc & Hc & H)|(e & _ & ?)]; [|done].
  injection H as <- <-. by exists commands, texts, sa, sb.
Qed.

Lemma after_poll_all_commands v commands texts :
  all_commands (after_poll v commands texts) = all_commands v ++ commands.
Proof.
  unfold after_poll. destruct commands, texts; simpl; by rewrite ?app_nil_r.
Qed.

Lemma after_poll_all_texts v commands texts :
  all_texts (after_poll v commands texts) = all_texts v ++ texts.
Proof.
  unfold after_poll. destruct commands, texts; simpl; by rewrite ?app_nil_r.
Qed.

Lemma after_poll_progress v commands texts :
  ∃ b, progress (after_poll v commands texts) = progress v ++ [b] ∧
       b = list_truthy commands || list_truthy texts ∧
       idle_cycles (after_poll v commands texts) =
         if b then 0 else S (idle_cycles v).
Proof.
  unfold after_poll. exists (list_truthy commands || list_truthy texts).
  destruct (list_truthy commands || list_truthy texts); simpl;
    repeat split; lia.
Qed.

Lemma after_poll_idle v commands texts :
  idle_cycles v = consecutive_idle (progress v) →
  idle_cycles (after_poll v commands texts) =
    consecutive_idle (progress (after_poll v commands texts)) ∧
  idle_cycles (after_poll v commands texts) ≤ S (idle_cycles v).
Proof.
  intros Hv. destruct (after_poll_progress v commands texts) as (b & -> & _ & ->).
  destruct b.
  - rewrite consecutive_idle_true. lia.
  - rewrite consecutive_idle_false. lia.
Qed.

Lemma poll_loop_steady n v s r s' :
  poll_loop n v s = (r, s') → ∃ k, k ≤ n ∧ steady k s s'.
Proof.
  revert v s. induction n as [|n IH]; intros v s.
  - intros [= _ <-]. exists 0. split; [lia|apply steady_refl].
  - rewrite poll_loop_S. intros H. apply bind_inv in H as [(v1 & s1 & H1 & H)|(e & H1 & _)].
    + apply still_poll_once in H1.
      destruct (idle_limit <=? idle_cycles v1)%nat.
      * unfold mret, Py_ret in H. injection H as _ <-.
        exists 0. split; [lia|done].
      * apply bind_inv in H as [([] & s2 & H2 & H)|(e & H2 & _)]; [|done].
        apply note_sleep_steady in H2. apply IH in H as (k & Hk & H).
        exists (S k). split; [lia|].
        apply (steady_trans 0 (S k) s s1 s'); [done|].
        by apply (steady_trans 1 k s1 s2 s').
    + apply still_poll_once in H1. exists 0. split; [lia|done].
Qed.

(** A loop that raises does so within one of its [n] iterations. *)
Lemma poll_loop_Raise n v s e s' :
  poll_loop n v s = (Raise e, s') → ∃ k, k < n ∧ steady k s s'.
Proof.
  revert v s. induction n as [|n IH]; intros v s.
  - intros [= ].
  - rewrite poll_loop_S. intros H.
    apply bind_inv in H as [(v1 & s1 & H1 & H)|(e' & H1 & _)].
    + apply still_poll_once in H1.
      destruct (idle_limit <=? idle_cycles v1)%nat.
      * unfold mret, Py_ret in H. discriminate H.
      * apply bind_inv in H as [([] & s2 & H2 & H)|(e' & H2 & ?)]; [|done].
        apply note_sleep_steady in H2. apply IH in H as (k & Hk & H).
        exists (S k). split; [lia|].
        apply (steady_trans 0 (S k) s s1 s'); [done|].
        by apply (steady_trans 1 k s1 s2 s').
    + apply still_poll_once in H1. exists 0. split; [lia|done].
Qed.

Lemma poll_loop_Return n v s v' s' :
  idle_cycles v = consecutive_idle (progress v) →
  poll_loop n v s = (Return v', s') →
  ∃ flags,
    progress v' = progress v ++ flags ∧ length flags ≤ n ∧
    idle_cycles v' = consecutive_idle (progress v') ∧
    (∀ j, 0 < j < length flags →
          consecutive_idle (progress v ++ take j flags) < idle_limit) ∧
    (length flags < n → idle_limit ≤ idle_cycles v') ∧
    (idle_cycles v < idle_limit → idle_cycles v' ≤ idle_limit).
Proof.
  revert v s. induction n as [|n IH]; intros v s Hv.
  - intros [= <- _]. exists []. rewrite app_nil_r. simpl.
    repeat split; try done; lia.
  - rewrite poll_loop_S. intros H. apply bind_inv in H as [(v1 & s1 & H1 & H)|(e & _ & ?)]; [|done].
    apply poll_once_Return in H1 as (commands & texts & sa & sb & _ & _ & _ & ->).
    destruct (after_poll_idle v commands texts Hv) as [Hv1 Hle].
    destruct (after_poll_progress v commands texts) as (b & Hp & _ & _).
    set (v1 := after_poll v commands texts) in *.
    destruct (idle_limit <=? idle_cycles v1)%nat eqn:E.
    + unfold mret, Py_ret in H. injection H as <- _. apply Nat.leb_le in E.
      exists [b]. simpl. repeat split; try done; lia.
    + apply Nat.leb_gt in E.
      apply bind_inv in H as [([] & s2 & _ & H)|(e & _ & ?)]; [|done].
      apply (IH v1 s2 Hv1) in H
        as (flags & Hf & Hlen & Hidle & Hbefore & Hearly & Hbound).
      exists (b :: flags). simpl. repeat split.
      * by rewrite Hf, Hp, <- app_assoc.
      * lia.
      * done.
      * intros j Hj. destruct j as [|j]; [lia|]. simpl.
        destruct j as [|j].
        -- rewrite take_0, <- Hp, <- Hv1. done.
        -- rewrite cons_middle, app_assoc, <- Hp.
           apply Hbefore. lia.
      * intros Hlt. apply Hearly. lia.
      * intros _. by apply Hbound.
Qed.

Lemma poll_once_truthy v s v1 s1 :
  truthy_texts (all_texts v) →
  poll_once v s = (Return v1, s1) → truthy_texts (all_texts v1).
Proof.
  intros Hv H.
  apply poll_once_Return in H as (commands & texts & sa & sb & _ & _ & Ht & ->).
  rewrite after_poll_all_texts. apply Forall_app. split; [done|].
  by eapply _drain_agent_outputs_truthy.
Qed.

Lemma poll_loop_truthy n v s v' s' :
  truthy_texts (all_texts v) →
  poll_loop n v s = (Return v', s') → truthy_texts (all_texts v').
Proof.
  revert v s. induction n as [|n IH]; intros v s Hv.
  - by intros [= <- _].
  - rewrite poll_loop_S. intros H. apply bind_inv in H as [(v1 & s1 & H1 & H)|(e & _ & ?)]; [|done].
    apply (poll_once_truthy v s v1 s1 Hv) in H1.
    destruct (idle_limit <=? idle_cycles v1)%nat.
    + unfold mret, Py_ret in H. by injection H as <- _.
    + apply bind_inv in H as [([] & s2 & _ & H)|(e & _ & ?)]; [|done].
      by eapply IH.
Qed.

(** ** Conversion to tool calls *)

Lemma convert_onto_imap tool_calls commands :
  convert_onto tool_calls commands =
  tool_calls ++ imap (λ i, tool_call_at (length tool_calls + i)) commands.
Proof.
  revert tool_calls. induction commands as [|[[[cmd_name params] rt] ok] rest IH];
    intros tool_calls; simpl.
  - by rewrite app_nil_r.
  - rewrite IH, <- app_assoc. f_equal. simpl. f_equal.
    + unfold tool_call_at. simpl. by rewrite Nat.add_0_r.
    + apply imap_ext. intros i c _. simpl.
      rewrite length_app. simpl. f_equal. lia.
Qed.

Lemma _convert_imap commands :
  _convert_commands_to_tool_calls commands = imap tool_call_at commands.
Proof.
  unfold _convert_commands_to_tool_calls. rewrite convert_onto_imap. simpl.
  by apply imap_ext.
Qed.

Lemma _convert_length commands :
  length (_convert_commands_to_tool_calls commands) = length commands.
Proof. by rewrite _convert_imap, length_imap. Qed.

Lemma _convert_lookup commands i c :
  commands !! i = Some c →
  _convert_commands_to_tool_calls commands !! i = Some (tool_call_at i c).
Proof. intros H. by rewrite _convert_imap, list_lookup_imap, H. Qed.

Lemma _convert_names commands :
  name <$> _convert_commands_to_tool_calls commands =
  (λ c : Command, c.1.1.1) <$> commands.
Proof.
  rewrite _convert_imap. apply list_eq. intros i.
  rewrite !list_lookup_fmap, list_lookup_imap.
  destruct (commands !! i) as [c|]; reflexivity.
Qed.

Lemma list_truthy_true {A : Type} (l : list A) : list_truthy l = true ↔ l ≠ [].
Proof. by destruct l. Qed.

(** ** The outbound message of a normal return *)

Lemma outbound_tool_calls v :
  all_commands v ≠ [] →
  outbound v = mkAssistant "assistant" None
                 (Some (_convert_commands_to_tool_calls (all_commands v))).
Proof.
  intros H. unfold outbound, build_message.
  apply list_truthy_true in H as Ht. rewrite Ht. simpl.
  assert (_convert_commands_to_tool_calls (all_commands v) ≠ []) as Hc.
  { intros E. apply (f_equal length) in E. rewrite _convert_length in E.
    by destruct (all_commands v). }
  apply list_truthy_true in Hc. by rewrite Hc.
Qed.

Lemma outbound_content v :
  truthy_texts (all_texts v) →
  all_commands v = [] → all_texts v ≠ [] →
  ∃ t, last (all_texts v) = Some t ∧
       outbound v = mkAssistant "assistant" (Some t) None.
Proof.
  intros Hv Hc Ht. unfold outbound, build_message. rewrite Hc. simpl.
  rewrite (proj2 (list_truthy_true _) Ht).
  destruct (last (all_texts v)) as [t|] eqn:E.
  - exists t. split; [done|].
    apply last_Some in E as [front E]. rewrite E in Hv.
    apply Forall_app in Hv as [_ Hv].
    apply (proj1 (Forall_singleton _ _)) in Hv.
    simpl in *. by rewrite Hv.
  - by apply last_None in E.
Qed.

Lemma outbound_apology v :
  all_commands v = [] → all_texts v = [] →
  outbound v = mkAssistant "assistant" (Some apology) None.
Proof. intros Hc Ht. unfold outbound, build_message. by rewrite Hc, Ht. Qed.

Lemma respond_Return v s msg s' :
  respond v s = (Return msg, s') → msg = outbound v.
Proof.
  unfold respond, outbound. intros H.
  apply bind_inv in H as [(calls & s1 & H1 & H)|(e & _ & ?)]; [|done].
  assert (calls = if list_truthy (all_commands v)
                  then Some (_convert_commands_to_tool_calls (all_commands v))
                  else None) as ->.
  { destruct (list_truthy (all_commands v)).
    - apply bind_inv in H1 as [([] & s0 & _ & H1)|(e & _ & ?)]; [|done].
      unfold mret, Py_ret in H1. by injection H1 as <- _.
    - unfold mret, Py_ret in H1. by injection H1 as <- _. }
  apply bind_inv in H as [([] & s2 & _ & H)|(e & _ & ?)]; [|done].
  unfold mret, Py_ret in H. by injection H as <- _.
Qed.

(** ** The [try] block and its handler *)

Lemma turn_Return message s msg st s' :
  turn message s = (Return (msg, st), s') →
  ∃ s1 s2 v,
    receive message s = (Return tt, s1) ∧
    poll_loop max_num_steps poll_start s1 = (Return v, s2) ∧
    respond v s2 = (Return msg, s') ∧
    st = state s'.
Proof.
  unfold turn, answer. intros H.
  apply bind_inv in H as [([] & s1 & H1 & H)|(e & _ & ?)]; [|done].
  apply bind_inv in H as [(v & s2 & H2 & H)|(e & _ & ?)]; [|done].
  apply bind_inv in H as [(m & s3 & H3 & H)|(e & _ & ?)]; [|done].
  apply bind_inv in H as [(st' & s4 & H4 & H)|(e & _ & ?)]; [|done].
  unfold get_state in H4. injection H4 as <- <-.
  unfold mret, Py_ret in H. injection H as <- <- <-.
  by exists s1, s2, v.
Qed.

Lemma generate_next_message_Return message s x s' :
  turn message s = (Return x, s') →
  generate_next_message message s = (Return x, s').
Proof. unfold generate_next_message, try_except. by intros ->. Qed.

Lemma try_except_on_error block s e s' :
  block s = (Raise e, s') →
  try_except block on_error s = (Return (error_message e, state s'), s').
Proof. unfold try_except. by intros ->. Qed.

Lemma generate_next_message_Raise message s e s' :
  turn message s = (Raise e, s') →
  generate_next_message message s = (Return (error_message e, state s'), s').
Proof. unfold generate_next_message, try_except. by intros ->. Qed.

Lemma turn_Return_batch message s msg st s' :
  turn message s = (Return (msg, st), s') →
  ∃ s1 s2 v,
    receive message s = (Return tt, s1) ∧
    poll_loop max_num_steps poll_start s1 = (Return v, s2) ∧
    truthy_texts (all_texts v) ∧
    msg = outbound v.
Proof.
  intros H. apply turn_Return in H as (s1 & s2 & v & Hrecv & Hpoll & Hresp & _).
  exists s1, s2, v. repeat split; try done.
  - eapply poll_loop_truthy; [|exact Hpoll]. constructor.
  - by eapply respond_Return.
Qed.

Lemma turn_returns message s msg :
  returned_message (fst (turn message s)) = Some msg →
  turn message s =
  (Return (msg, state (snd (turn message s))), snd (turn message s)).
Proof.
  destruct (turn message s) as [[[m st]|e] s'] eqn:E; simpl; [|done].
  intros [= ->]. by apply turn_Return in E as (_ & _ & _ & _ & _ & _ & ->).
Qed.

(** [generate_next_message] never raises. *)
Lemma generate_next_message_total message s :
  ∃ msg st s', generate_next_message message s = (Return (msg, st), s').
Proof.
  destruct (turn message s) as [[[msg st]|e] s'] eqn:E.
  - exists msg, st, s'. by apply generate_next_message_Return.
  - exists (error_message e), (state s'), s'.
    by apply generate_next_message_Raise.
Qed.

(** ** C1: one variant per outbound message *)

(** C1.  Whenever the [try] block of [generate_next_message] runs to its
    [return], the returned message has exactly one of [content] and
    [tool_calls]: with [v] the batch the interaction loop collected, the
    converted calls and no content if [all_commands v] is not empty
    (whatever [all_texts v] holds); else the last collected text and no
    calls if [all_texts v] is not empty; else the fixed apology and no
    calls. *)
Theorem generate_next_message_one_variant message s msg st s' :
  turn message s = (Return (msg, st), s') →
  generate_next_message message s = (Return (msg, st), s') ∧
  ∃ s1 s2 v,
    receive message s = (Return tt, s1) ∧
    poll_loop max_num_steps poll_start s1 = (Return v, s2) ∧
    (all_commands v ≠ [] →
       content msg = None ∧
       tool_calls msg = Some (_convert_commands_to_tool_calls (all_commands v))) ∧
    (all_commands v = [] → all_texts v ≠ [] →
       content msg = last (all_texts v) ∧ tool_calls msg = None) ∧
    (all_commands v = [] → all_texts v = [] →
       content msg = Some apology ∧ tool_calls msg = None) ∧
    (only_content msg ∨ only_tool_calls msg) ∧
    ¬ (only_content msg ∧ only_tool_calls msg).
Proof.
  intros H. split; [by apply generate_next_message_Return|].
  apply turn_Return_batch in H as (s1 & s2 & v & Hrecv & Hpoll & Htexts & ->).
  exists s1, s2, v. split; [done|]. split; [done|].
  split; [|split; [|split]].
  - intros Hc. by rewrite (outbound_tool_calls v Hc).
  - intros Hc Ht.
    destruct (outbound_content v Htexts Hc Ht) as (t & Hlast & ->).
    by rewrite Hlast.
  - intros Hc Ht. by rewrite (outbound_apology v Hc Ht).
  - destruct (decide (all_commands v = [])) as [Hc|Hc].
    + assert (only_content (outbound v)) as Hone.
      { destruct (decide (all_texts v = [])) as [Ht|Ht].
        - rewrite (outbound_apology v Hc Ht). split; [by eexists|done].
        - destruct (outbound_content v Htexts Hc Ht) as (t & _ & ->).
          split; [by eexists|done]. }
      split; [by left|]. intros [_ [_ (calls & Hsome & _)]].
      destruct Hone as [_ Hnone]. congruence.
    + assert (only_tool_calls (outbound v)) as Hone.
      { rewrite (outbound_tool_calls v Hc). split; [done|].
        eexists. split; [done|].
        intros E. apply (f_equal length) in E. rewrite _convert_length in E.
        by destruct (all_commands v). }
      split; [by right|]. intros [[(c & Hsome) _] _].
      destruct Hone as [Hnone _]. congruence.
Qed.

(** The start-up request answered with an action and a line of text in
    the same batch: the call is returned, the text is not. *)
Lemma generate_next_message_one_variant_witness :
  returned_message (fst (turn cancel_request cancel_store)) =
    Some (mkAssistant "assistant" None (Some [cancel_call])) ∧
  returned_message (fst (generate_next_message cancel_request cancel_store)) =
    Some (mkAssistant "assistant" None (Some [cancel_call])).
Proof.
  assert (returned_message (fst (turn cancel_request cancel_store)) =
          Some (mkAssistant "assistant" None (Some [cancel_call]))) as H
    by (vm_compute; reflexivity).
  split; [exact H|].
  destruct (generate_next_message_one_variant _ _ _ _ _ (turn_returns _ _ _ H))
    as [-> _].
  reflexivity.
Defined.

(** ** C4: which drained records become action calls *)

Lemma surfaced_iff evt :
  surfaced evt = true ↔
  direction evt = WORKFLOW_TO_AGENT ∧
  ∃ nm, command_name evt = PyStr nm ∧ nm ≠ "".
Proof.
  unfold surfaced. rewrite andb_true_iff, bool_decide_eq_true. split.
  - intros [Hd Hn]. split; [done|].
    destruct (command_name evt) as [| | |nm|]; try done.
    exists nm. split; [done|].
    apply negb_true_iff, bool_decide_eq_false in Hn. done.
  - intros [Hd (nm & -> & Hn)]. split; [done|].
    by apply negb_true_iff, bool_decide_eq_false.
Qed.

Lemma surfaced_not_echo evt :
  direction evt = AGENT_TO_WORKFLOW → surfaced evt = false.
Proof. unfold surfaced. by intros ->. Qed.

Lemma kept_commands m (events : list CommandTraceEvent) :
  (events ≫= λ evt, record_command (Some m) evt []) =
  command_of <$> filter (λ evt, surfaced evt = true) events.
Proof.
  induction events as [|evt events IH]; [done|].
  rewrite bind_cons, IH, record_command_surfaced, filter_cons.
  destruct (decide (surfaced evt = true)) as [E|E].
  - by rewrite E.
  - apply not_true_is_false in E. by rewrite E.
Qed.

Lemma _drain_command_trace_live s cs m max_drain :
  is_initialized (self s) = true →
  chat_session (self s) = Some cs →
  fastworkflow (self s) = Some m →
  failure (command_trace_queue cs) = None →
  fst (_drain_command_trace max_drain s) =
  Return (command_of <$>
            filter (λ evt, surfaced evt = true)
                   (take max_drain (items (command_trace_queue cs)))).
Proof.
  intros Hi Hc Hm Hf. unfold _drain_command_trace. rewrite Hi, Hc, Hm.
  destruct (command_trace_queue cs) as [l f]. simpl in Hf. subst f.
  rewrite drain_trace_live. simpl. by rewrite kept_commands.
Qed.

(** C4.  With a session alive, a record taken off the command-trace
    queue enters the batch, and from there the converted calls, if and
    only if it is surfaced: its direction is [WORKFLOW_TO_AGENT] (the
    runner-to-evaluator direction) and its [command_name] is a non-empty
    string.  A record tagged [AGENT_TO_WORKFLOW] is never surfaced. *)
Theorem drained_record_kept_iff_surfaced s cs m max_drain :
  is_initialized (self s) = true →
  chat_session (self s) = Some cs →
  fastworkflow (self s) = Some m →
  failure (command_trace_queue cs) = None →
  let drained := take max_drain (items (command_trace_queue cs)) in
  let kept := filter (λ evt, surfaced evt = true) drained in
  fst (_drain_command_trace max_drain s) = Return (command_of <$> kept) ∧
  (∀ evt, evt ∈ kept ↔
     evt ∈ drained ∧ direction evt = WORKFLOW_TO_AGENT ∧
     ∃ nm, command_name evt = PyStr nm ∧ nm ≠ "") ∧
  (∀ evt, direction evt = AGENT_TO_WORKFLOW → evt ∉ kept) ∧
  (∀ v texts,
     all_commands (after_poll v (command_of <$> kept) texts) =
     all_commands v ++ (command_of <$> kept)) ∧
  (∀ batch,
     name <$> _convert_commands_to_tool_calls (batch ++ (command_of <$> kept)) =
     ((λ c : Command, c.1.1.1) <$> batch) ++
     ((λ evt, (command_of evt).1.1.1) <$> kept)).
Proof.
  intros Hi Hc Hm Hf drained kept. split; [|split; [|split; [|split]]].
  - by apply (_drain_command_trace_live s cs m).
  - intros evt. unfold kept. rewrite list_elem_of_filter, surfaced_iff. tauto.
  - intros evt Hd [Hs _]%list_elem_of_filter.
    by rewrite (surfaced_not_echo evt Hd) in Hs.
  - intros v texts. apply after_poll_all_commands.
  - intros batch. rewrite _convert_names, fmap_app, <- list_fmap_compose. done.
Qed.

(** Of an echo, an executed action, a record with an empty name and a
    second executed action, the two actions are kept, in queue order. *)
Lemma drained_record_kept_iff_surfaced_witness :
  fst (_drain_command_trace 200
         (running_store
            [echo_event; cancel_event; blank_event; status_event] [])) =
  Return [command_of cancel_event; command_of status_event].
Proof.
  exact (proj1 (drained_record_kept_iff_surfaced
                  (running_store
                     [echo_event; cancel_event; blank_event; status_event] [])
                  (mkSession
                     (mkQueue [echo_event; cancel_event; blank_event; status_event]
                              None)
                     (mkQueue [] None) empty_queue)
                  fastworkflow_module 200 eq_refl eq_refl eq_refl eq_refl)).
Defined.

(** ** C5: names in collection order, ids by position *)

Lemma call_id_inj : Inj (=) (=) (λ i : nat, "call_" +:+ pretty i).
Proof. intros i j H. simpl in H. injection H as H. by apply (inj pretty). Qed.

Lemma _convert_ids commands :
  id <$> _convert_commands_to_tool_calls commands =
  (λ i : nat, "call_" +:+ pretty i) <$> seq 0 (length commands).
Proof.
  rewrite _convert_imap. apply list_eq. intros i.
  rewrite !list_lookup_fmap, list_lookup_imap.
  destruct (commands !! i) as [c|] eqn:E; simpl.
  - apply lookup_lt_Some in E. by rewrite lookup_seq_lt.
  - apply lookup_ge_None in E. by rewrite lookup_seq_ge.
Qed.

(** C5.  When the collected batch is not empty, the message [respond]
    returns carries one call per collected record, in collection order:
    the call at position [i] has id [call_i], the record's name and
    arguments, and requestor ["assistant"].  The ids depend on the
    position in this batch alone, so they start again at [call_0] in every
    message, and they are distinct within one message.  The batch itself
    grows at its end, by the records of each iteration in drain order. *)
Theorem tool_calls_numbered_by_position v s msg s' :
  all_commands v ≠ [] →
  respond v s = (Return msg, s') →
  ∃ calls,
    tool_calls msg = Some calls ∧
    length calls = length (all_commands v) ∧
    (∀ i c, all_commands v !! i = Some c →
            calls !! i = Some (mkToolCall ("call_" +:+ pretty i)
                                          c.1.1.1 c.1.1.2 "assistant")) ∧
    name <$> calls = (λ c : Command, c.1.1.1) <$> all_commands v ∧
    id <$> calls =
      (λ i : nat, "call_" +:+ pretty i) <$> seq 0 (length (all_commands v)) ∧
    NoDup (id <$> calls) ∧
    (∀ commands texts,
       all_commands (after_poll v commands texts) = all_commands v ++ commands).
Proof.
  intros Hne H. apply respond_Return in H as ->.
  rewrite (outbound_tool_calls v Hne). simpl. eexists. split; [done|].
  split; [apply _convert_length|].
  split; [intros i c Hc; by apply _convert_lookup|].
  split; [apply _convert_names|].
  split; [apply _convert_ids|].
  split; [|intros; apply after_poll_all_commands].
  rewrite _convert_ids. apply NoDup_fmap_2; [apply call_id_inj|apply NoDup_seq].
Qed.

Lemma tool_calls_numbered_by_position_witness :
  fst (respond two_actions (running_store [] [])) =
  Return
    (mkAssistant "assistant" None
       (Some [mkToolCall "call_0" "cancel_pending_order"
                         [("order_id", PyStr "#W123")] "assistant";
              mkToolCall "call_1" "get_order_details"
                         [("order_id", PyStr "#W123")] "assistant"])) ∧
  ∃ calls,
    tool_calls (mkAssistant "assistant" None
       (Some [mkToolCall "call_0" "cancel_pending_order"
                         [("order_id", PyStr "#W123")] "assistant";
              mkToolCall "call_1" "get_order_details"
                         [("order_id", PyStr "#W123")] "assistant"])) =
      Some calls ∧
    id <$> calls = ["call_0"; "call_1"].
Proof.
  assert (respond two_actions (running_store [] []) =
          (Return
             (mkAssistant "assistant" None
                (Some [mkToolCall "call_0" "cancel_pending_order"
                                  [("order_id", PyStr "#W123")] "assistant";
                       mkToolCall "call_1" "get_order_details"
                                  [("order_id", PyStr "#W123")] "assistant"])),
           snd (respond two_actions (running_store [] [])))) as H
    by (vm_compute; reflexivity).
  split; [by rewrite H at 1|].
  destruct (tool_calls_numbered_by_position two_actions _ _ _ ltac:(done) H)
    as (calls & Hc & _ & _ & _ & Hid & _).
  exists calls. split; [exact Hc|exact Hid].
Defined.

(** ** C6: the content of a text-only answer *)

Lemma _drain_agent_outputs_live s cs max_drain :
  is_initialized (self s) = true →
  chat_session (self s) = Some cs →
  failure (command_output_queue cs) = None →
  fst (_drain_agent_outputs max_drain s) =
  Return (omap utterance (take max_drain (items (command_output_queue cs)))).
Proof.
  intros Hi Hc Hf. unfold _drain_agent_outputs. rewrite Hi, Hc.
  destruct (command_output_queue cs) as [l f]. simpl in Hf. subst f.
  by rewrite drain_outputs_live.
Qed.

(** An output that is whitespace only, ASCII or not, yields no utterance;
    the others are stripped of it. *)
Example drain_strips_unicode :
  fst (_drain_agent_outputs 200
         (running_store []
            [OutStr (no_break_space +:+ "hi" +:+ em_space);
             OutStr no_break_space;
             OutResponses [PyStr (em_space +:+ " "); PyStr " ok"]])) =
  Return ["hi"; "ok"].
Proof. vm_compute. reflexivity. Qed.

(** The two texts of one poll iteration are not joined: they stay two
    utterances and the content is the second one alone. *)
Lemma content_joined_per_iteration_counterexample :
  fst (_drain_agent_outputs 200 (snd (receive tool_result two_outputs_store))) =
    Return [checking; which_reason] ∧
  returned_message (fst (generate_next_message tool_result two_outputs_store)) =
    Some (mkAssistant "assistant" (Some which_reason) None) ∧
  which_reason ≠ String.concat LF [checking; which_reason].
Proof. split; [|split]; [vm_compute; reflexivity..|done]. Qed.

(** C6 (amended).  In a normal return with no collected record and at
    least one collected utterance, the content is the last utterance
    collected over the whole loop.  The utterances of an iteration are
    appended to those of the earlier ones, in drain order, and each of
    them comes from one dequeued output: the stripped, non-blank texts of
    that output joined by a line separator.  Outputs dequeued in the same
    iteration give separate utterances. *)
Theorem content_is_last_utterance :
  (∀ message s msg st s',
     turn message s = (Return (msg, st), s') →
     ∃ s1 s2 v,
       receive message s = (Return tt, s1) ∧
       poll_loop max_num_steps poll_start s1 = (Return v, s2) ∧
       (all_commands v = [] → all_texts v ≠ [] →
          content msg = last (all_texts v) ∧ tool_calls msg = None)) ∧
  (∀ v commands texts,
     all_texts (after_poll v commands texts) = all_texts v ++ texts) ∧
  (∀ s cs max_drain,
     is_initialized (self s) = true →
     chat_session (self s) = Some cs →
     failure (command_output_queue cs) = None →
     fst (_drain_agent_outputs max_drain s) =
     Return (omap utterance
               (take max_drain (items (command_output_queue cs))))) ∧
  (∀ out acc, record_output out acc = acc ++ option_list (utterance out)).
Proof.
  split; [|split; [|split]].
  - intros message s msg st s' H.
    apply turn_Return_batch in H as (s1 & s2 & v & Hrecv & Hpoll & Htexts & ->).
    exists s1, s2, v. split; [done|]. split; [done|]. intros Hc Ht.
    destruct (outbound_content v Htexts Hc Ht) as (t & Hlast & ->).
    by rewrite Hlast.
  - apply after_poll_all_texts.
  - apply _drain_agent_outputs_live.
  - apply record_output_utterance.
Qed.

Lemma content_is_last_utterance_witness :
  returned_message (fst (turn cancel_request question_store)) =
    Some (mkAssistant "assistant" (Some question) None) ∧
  ∃ s1 s2 v,
    receive cancel_request question_store = (Return tt, s1) ∧
    poll_loop max_num_steps poll_start s1 = (Return v, s2) ∧
    (all_commands v = [] → all_texts v ≠ [] →
       content (mkAssistant "assistant" (Some question) None) =
         last (all_texts v) ∧
       tool_calls (mkAssistant "assistant" (Some question) None) = None).
Proof.
  assert (returned_message (fst (turn cancel_request question_store)) =
          Some (mkAssistant "assistant" (Some question) None)) as H
    by (vm_compute; reflexivity).
  split; [exact H|].
  exact (proj1 content_is_last_utterance _ _ _ _ _ (turn_returns _ _ _ H)).
Defined.

(** ** C7: the interaction loop is bounded *)

(** C7.  From any store the interaction loop of [generate_next_message]
    ends, by returning or by raising, after at most [max_num_steps] = 5000
    calls of [time.sleep].  When it raises, it does so within its first
    5000 iterations.  When it returns it has executed at most 5000
    iterations; [idle_cycles] is the number of consecutive iterations at
    the end of the run that yielded neither records nor text (an
    iteration that yields something sets it back to 0); it never exceeds
    [idle_limit] = 150; no earlier iteration had reached 150; and a loop
    that stops before its 5000th iteration stops with [idle_cycles] =
    150. *)
Theorem poll_loop_terminates_bounded s :
  max_num_steps = 5000 ∧ idle_limit = 150 ∧
  ∃ r s',
    poll_loop max_num_steps poll_start s = (r, s') ∧
    (∃ k, k ≤ max_num_steps ∧
          trace (world s') = trace (world s) ++ replicate k time_sleep) ∧
    match r with
    | Raise _ =>
        ∃ k, k < max_num_steps ∧
             trace (world s') = trace (world s) ++ replicate k time_sleep
    | Return v =>
        length (progress v) ≤ max_num_steps ∧
        idle_cycles v = consecutive_idle (progress v) ∧
        idle_cycles v ≤ idle_limit ∧
        (∀ j, 0 < j < length (progress v) →
              consecutive_idle (take j (progress v)) < idle_limit) ∧
        (length (progress v) < max_num_steps → idle_cycles v = idle_limit) ∧
        (∀ flags, consecutive_idle (flags ++ [true]) = 0 ∧
                  consecutive_idle (flags ++ [false]) =
                    S (consecutive_idle flags)) ∧
        (∀ v0 commands texts,
           last (progress (after_poll v0 commands texts)) =
             Some (list_truthy commands || list_truthy texts))
    end.
Proof.
  split; [reflexivity|]. split; [reflexivity|].
  destruct (poll_loop max_num_steps poll_start s) as [r s'] eqn:E.
  exists r, s'. split; [done|]. split.
  - apply poll_loop_steady in E as (k & Hk & _ & _ & _ & _ & Ht). by exists k.
  - destruct r as [v|e].
    + apply poll_loop_Return in E
        as (flags & Hf & Hlen & Hidle & Hbefore & Hearly & Hbound); [|done].
      simpl in Hf. subst flags.
      assert (idle_cycles v ≤ idle_limit) as Hle.
      { apply Hbound. unfold idle_limit. simpl. lia. }
      split; [done|]. split; [done|]. split; [done|].
      split; [intros j Hj; by apply Hbefore|].
      split; [intros Hlt; apply Nat.le_antisymm; [done|by apply Hearly]|].
      split.
      * intros flags. split;
          [apply consecutive_idle_true|apply consecutive_idle_false].
      * intros v0 commands texts.
        destruct (after_poll_progress v0 commands texts) as (b & -> & -> & _).
        by rewrite last_snoc.
    + apply poll_loop_Raise in E as (k & Hk & _ & _ & _ & _ & Ht). by exists k.
Qed.

(** A runner with nothing to say: the loop gives up after exactly 150
    idle iterations, having slept 149 times. *)
Example poll_loop_idle_timeout :
  match poll_loop max_num_steps poll_start (running_store [] []) with
  | (Return v, s') =>
      progress v = replicate 150 false ∧ idle_cycles v = 150 ∧
      all_commands v = [] ∧ all_texts v = [] ∧
      sleeps (trace (world s')) = 149
  | (Raise _, _) => False
  end.
Proof. vm_compute. repeat split. Qed.

(** Nothing at all for the whole idle window: the fixed apology. *)
Example idle_window_apology :
  returned_message (fst (generate_next_message tool_result (running_store [] []))) =
  Some (mkAssistant "assistant"
          (Some "I apologize, but I am unable to assist with this request at this time.")
          None).
Proof. vm_compute. reflexivity. Qed.

(** ** Initialization *)

Lemma initialize_calls_app t1 t2 :
  initialize_calls (t1 ++ t2) = initialize_calls t1 ++ initialize_calls t2.
Proof.
  induction t1 as [|c t1 IH]; simpl; [done|].
  destruct c; simpl; by rewrite IH.
Qed.

Lemma sleeps_app t1 t2 : sleeps (t1 ++ t2) = sleeps t1 + sleeps t2.
Proof.
  induction t1 as [|c t1 IH]; simpl; [done|].
  destruct c; simpl; by rewrite IH.
Qed.

Lemma initialize_calls_sleep k : initialize_calls (replicate k time_sleep) = [].
Proof. induction k; simpl; done. Qed.

Lemma steady_initialize_calls k s s' :
  steady k s s' →
  initialize_calls (trace (world s')) = initialize_calls (trace (world s)).
Proof.
  intros (_ & _ & _ & _ & ->).
  by rewrite initialize_calls_app, initialize_calls_sleep, app_nil_r.
Qed.

(** An already initialized adapter: [_initialize_fastworkflow] returns at
    once. *)
Lemma _initialize_fastworkflow_again t s :
  is_initialized (self s) = true →
  _initialize_fastworkflow t s = (Return tt, s).
Proof.
  intros H. unfold _initialize_fastworkflow, mbind, Py_bind, get_self.
  by rewrite H.
Qed.

(** An uninitialized adapter: one initialization call is made, with the
    text; the state dict is not touched; the adapter is initialized, with
    a new session, exactly when the call returns. *)
Lemma _initialize_fastworkflow_first t s r s' :
  is_initialized (self s) = false →
  _initialize_fastworkflow t s = (r, s') →
  state s' = state s ∧
  workflow_path (self s') = workflow_path (self s) ∧
  initialize_calls (trace (world s')) =
    initialize_calls (trace (world s)) ++ [t] ∧
  sleeps (trace (world s')) = sleeps (trace (world s)) ∧
  match r with
  | Return _ =>
      is_initialized (self s') = true ∧
      chat_session (self s') = Some new_session ∧
      fastworkflow (self s') = Some fastworkflow_module ∧
      (str_truthy t = true →
       start_workflow (workflow_path (self s)) t ∈ trace (world s'))
  | Raise _ => is_initialized (self s') = false
  end.
Proof.
  intros Hi. destruct s as [[path fw cs ini] [fl sch tr] st].
  simpl in Hi. subst ini.
  unfold _initialize_fastworkflow, mbind, Py_bind, get_self, try_except,
    suppress, try_except, note, lib_call, modify_self, raise, mret, Py_ret.
  simpl.
  destruct fl as [|[e1|] [|[e2|] [|o3 [|[e4|] [|[e5|] fl]]]]];
    try destruct o3 as [e3|]; destruct (str_truthy t) eqn:Et; simpl;
    intros [= <- <-]; simpl;
    rewrite ?initialize_calls_app, ?sleeps_app; simpl;
    rewrite ?app_nil_r, ?Nat.add_0_r;
    repeat split; try done;
    intros _; apply elem_of_app; right; by apply list_elem_of_singleton.
Qed.

(** ** The phases of the [try] block *)

Lemma setup_state_spec s :
  setup_state s = (Return tt, mkStore (self s) (world s) (set_up (state s))).
Proof.
  unfold setup_state, set_up, mbind, Py_bind, get_state, set_state.
  destruct s as [a w [d|]]; reflexivity.
Qed.

Lemma turn_Raise message s e s' :
  turn message s = (Raise e, s') ↔
  receive message s = (Raise e, s') ∨
  (∃ s1, receive message s = (Return tt, s1) ∧
         poll_loop max_num_steps poll_start s1 = (Raise e, s')) ∨
  (∃ s1 s2 v, receive message s = (Return tt, s1) ∧
              poll_loop max_num_steps poll_start s1 = (Return v, s2) ∧
              respond v s2 = (Raise e, s')).
Proof.
  unfold turn, answer. split.
  - intros H. apply bind_inv in H as [([] & s1 & H1 & H)|(e' & H1 & [= <-])];
      [|by left].
    right. apply bind_inv in H as [(v & s2 & H2 & H)|(e' & H2 & [= <-])];
      [|left; by exists s1].
    right. apply bind_inv in H as [(m & s3 & H3 & H)|(e' & H3 & [= <-])];
      [|by exists s1, s2, v].
    apply bind_inv in H as [(st & s4 & _ & H)|(e' & H4 & _)]; done.
  - intros [H|[(s1 & H1 & H2)|(s1 & s2 & v & H1 & H2 & H3)]].
    + by apply bind_Raise.
    + rewrite (bind_Return _ _ _ _ _ H1). by apply bind_Raise.
    + rewrite (bind_Return _ _ _ _ _ H1), (bind_Return _ _ _ _ _ H2).
      by apply bind_Raise.
Qed.

Lemma receive_inv message s r s' :
  receive message s = (r, s') →
  dispatch message (mkStore (self s) (world s) (set_up (state s))) = (r, s').
Proof.
  unfold receive. intros H.
  by rewrite (bind_Return _ _ _ _ _ (setup_state_spec s)) in H.
Qed.

Lemma dispatch_first m s :
  is_initialized (self s) = false →
  dispatch (InUser m) s =
  (_initialize_fastworkflow (user_content m);; history_append (MsgUser m)) s.
Proof.
  intros H. unfold dispatch. unfold mbind at 1. unfold Py_bind, get_self.
  by rewrite H.
Qed.

Lemma dispatch_follow_up m s :
  is_initialized (self s) = true →
  dispatch (InUser m) s =
  (_push_user_message (user_content m);; history_append (MsgUser m)) s.
Proof.
  intros H. unfold dispatch. unfold mbind at 1. unfold Py_bind, get_self.
  by rewrite H.
Qed.

(** ** C2: a failed initialization *)

(** Initialization raises, and [generate_next_message] returns a message
    instead of raising. *)
Lemma initialization_failure_propagates_counterexample :
  raised (fst (_initialize_fastworkflow "I want to cancel order #W123"
                 (snd (setup_state missing_assets_store)))) =
    Some missing_assets ∧
  returned_message
    (fst (generate_next_message cancel_request missing_assets_store)) =
    Some (mkAssistant "assistant"
            (Some "I encountered an error: workflow folder not found") None) ∧
  raised (fst (generate_next_message cancel_request missing_assets_store)) =
    None.
Proof. repeat split; vm_compute; reflexivity. Qed.

(** C2 (amended).  When [_initialize_fastworkflow] raises [e] for the
    first user message of an uninitialized adapter, the exception leaves
    [_initialize_fastworkflow] but not [generate_next_message]: the call
    returns a message whose content is ["I encountered an error: "]
    followed by [str(e)], with no tool calls, together with the state as
    set up, and the adapter is still uninitialized. *)
Theorem initialization_failure_reported m s e s' :
  is_initialized (self s) = false →
  _initialize_fastworkflow (user_content m)
    (mkStore (self s) (world s) (set_up (state s))) = (Raise e, s') →
  generate_next_message (InUser m) s =
    (Return (error_message e, set_up (state s)), s') ∧
  content (error_message e) = Some ("I encountered an error: " +:+ str e) ∧
  tool_calls (error_message e) = None ∧
  is_initialized (self s') = false.
Proof.
  intros Hi Hinit.
  pose proof (_initialize_fastworkflow_first (user_content m)
                (mkStore (self s) (world s) (set_up (state s))) _ _ Hi Hinit)
    as (Hst & _ & _ & _ & Hflag). simpl in Hst.
  assert (turn (InUser m) s = (Raise e, s')) as Hturn.
  { apply turn_Raise. left. unfold receive.
    rewrite (bind_Return _ _ _ _ _ (setup_state_spec s)).
    rewrite dispatch_first by done. by apply bind_Raise. }
  apply generate_next_message_Raise in Hturn. rewrite Hst in Hturn. done.
Qed.

Lemma initialization_failure_reported_witness :
  is_initialized (self missing_assets_store) = false ∧
  raised (fst (_initialize_fastworkflow "I want to cancel order #W123"
                 (mkStore (self missing_assets_store)
                          (world missing_assets_store)
                          (set_up (state missing_assets_store))))) =
    Some missing_assets ∧
  returned_message
    (fst (generate_next_message cancel_request missing_assets_store)) =
    Some (error_message missing_assets).
Proof.
  split; [reflexivity|].
  assert (raised (fst (_initialize_fastworkflow "I want to cancel order #W123"
                         (mkStore (self missing_assets_store)
                                  (world missing_assets_store)
                                  (set_up (state missing_assets_store))))) =
          Some missing_assets) as H by (vm_compute; reflexivity).
  split; [exact H|].
  destruct (initialization_failure_reported
              (mkUser "I want to cancel order #W123") missing_assets_store
              missing_assets _ eq_refl (raised_inv _ _ H))
    as (Hg & _ & _ & _).
  unfold cancel_request. rewrite Hg. reflexivity.
Defined.

(** ** C3: failures after the session exists *)

(** C3.  With the adapter initialized, whenever handling the message,
    polling the queues or building the answer raises [e], the call does
    not raise: it returns a message whose content is
    ["I encountered an error: "] followed by [str(e)], which contains
    [str(e)], and whose tool calls are [None]. *)
Theorem failure_after_init_reported message s e s' :
  is_initialized (self s) = true →
  (receive message s = (Raise e, s') ∨
   (∃ s1, receive message s = (Return tt, s1) ∧
          poll_loop max_num_steps poll_start s1 = (Raise e, s')) ∨
   (∃ s1 s2 v, receive message s = (Return tt, s1) ∧
               poll_loop max_num_steps poll_start s1 = (Return v, s2) ∧
               respond v s2 = (Raise e, s'))) →
  ∃ msg,
    generate_next_message message s = (Return (msg, state s'), s') ∧
    content msg = Some ("I encountered an error: " +:+ str e) ∧
    (∀ c, content msg = Some c → contains (str e) c = true) ∧
    tool_calls msg = None.
Proof.
  intros _ H. apply turn_Raise, generate_next_message_Raise in H.
  exists (error_message e). split; [done|]. split; [done|]. split; [|done].
  intros c [= <-]. apply contains_app_r.
Qed.

Lemma failure_after_init_reported_witness :
  is_initialized (self stopping_store) = true ∧
  returned (fst (receive tool_result stopping_store)) = Some tt ∧
  raised (fst (poll_loop max_num_steps poll_start
                 (snd (receive tool_result stopping_store)))) =
    Some runner_stopped ∧
  ∃ msg,
    returned_message (fst (generate_next_message tool_result stopping_store)) =
      Some msg ∧
    content msg = Some "I encountered an error: runner stopped" ∧
    tool_calls msg = None.
Proof.
  split; [reflexivity|].
  assert (returned (fst (receive tool_result stopping_store)) = Some tt) as H1
    by (vm_compute; reflexivity).
  assert (raised (fst (poll_loop max_num_steps poll_start
                         (snd (receive tool_result stopping_store)))) =
          Some runner_stopped) as H2 by (vm_compute; reflexivity).
  split; [exact H1|]. split; [exact H2|].
  destruct (failure_after_init_reported tool_result stopping_store
              runner_stopped _ eq_refl
              (or_intror (or_introl
                 (ex_intro _ _ (conj (returned_inv _ _ H1) (raised_inv _ _ H2))))))
    as (msg & Hg & Hc & _ & Ht).
  exists msg. rewrite Hg. split; [reflexivity|]. split; [exact Hc|exact Ht].
Defined.

(** ** The message history along a turn *)

Lemma grown_app ms ms' st st1 st2 :
  grown ms st st1 → grown ms' st1 st2 → grown (ms ++ ms') st st2.
Proof.
  intros (l & H1 & H2) (l' & H3 & H4). rewrite H2 in H3. injection H3 as <-.
  exists l. split; [done|]. by rewrite H4, fmap_app, app_assoc.
Qed.

Lemma history_append_inv m s r s' :
  history_append m s = (r, s') →
  match r with
  | Return _ => grown [m] (state s) (state s')
  | Raise _ => s' = s
  end.
Proof.
  unfold history_append. destruct (state s) as [d|] eqn:Es; [|by intros [= <- <-]].
  destruct (d !! "message_history") as [[b|l]|] eqn:Ed; intros [= <- <-]; try done.
  exists l. unfold history_of. simpl. split; [done|].
  by rewrite lookup_insert_eq.
Qed.

Lemma history_append_list m s l :
  history_of (state s) = Some (VList l) →
  ∃ s', history_append m s = (Return tt, s').
Proof.
  unfold history_of, history_append. destruct (state s) as [d|]; [|done].
  simpl. intros ->. by eexists.
Qed.

Lemma append_tool_messages_list tms s l :
  history_of (state s) = Some (VList l) →
  ∃ s', append_tool_messages tms s = (Return tt, s').
Proof.
  revert s l. induction tms as [|tm tms IH]; intros s l Hl; simpl.
  - by eexists.
  - destruct (history_append_list (MsgTool tm) s l Hl) as [s1 H1].
    rewrite (bind_Return _ _ _ _ _ H1).
    apply history_append_inv in H1 as (l1 & _ & H1). by eapply IH.
Qed.

Lemma append_tool_messages_inv tms s r s' :
  append_tool_messages tms s = (r, s') →
  match r with
  | Return _ => (tms = [] ∧ s' = s) ∨
                grown (MsgTool <$> tms) (state s) (state s')
  | Raise _ => s' = s
  end.
Proof.
  revert s. induction tms as [|tm tms IH]; intros s; simpl.
  - intros [= <- <-]. by left.
  - intros H. apply bind_inv in H as [([] & s1 & H1 & H)|(e & H1 & ->)].
    + apply history_append_inv in H1.
      destruct H1 as (l & Hl & Hl1).
      destruct (append_tool_messages_list tms s1 _ Hl1) as [s2 H2].
      rewrite H2 in H. injection H as <- <-.
      right. apply IH in H2 as [[-> ->]|H2].
      * by exists l.
      * apply (grown_app [MsgTool tm] (MsgTool <$> tms) _ (state s1)); [|done].
        by exists l.
    + by apply history_append_inv in H1.
Qed.

Lemma dispatch_inv message s r s' :
  dispatch message s = (r, s') →
  match r with
  | Return _ => (inbound message = [] ∧ state s' = state s) ∨
                grown (inbound message) (state s) (state s')
  | Raise _ => state s' = state s
  end.
Proof.
  destruct message as [m|m|tms]; simpl inbound.
  - assert (∀ (step : Py unit),
              (∀ s0 r0 s1, step s0 = (r0, s1) → state s1 = state s0) →
              (step;; history_append (MsgUser m)) s = (r, s') →
              match r with
              | Return _ => ([MsgUser m] = [] ∧ state s' = state s) ∨
                            grown [MsgUser m] (state s) (state s')
              | Raise _ => state s' = state s
              end) as Hstep.
    { intros step Hkeep H.
      apply bind_inv in H as [([] & s1 & H1 & H)|(e & H1 & ->)].
      - apply Hkeep in H1. apply history_append_inv in H.
        destruct r; [right; by rewrite <- H1|by subst].
      - by apply Hkeep in H1. }
    destruct (is_initialized (self s)) eqn:Hi.
    + rewrite dispatch_follow_up by done. apply Hstep.
      intros s0 r0 s1. apply same_state__push_user_message.
    + rewrite dispatch_first by done. apply Hstep.
      intros s0 r0 s1 H0. destruct (is_initialized (self s0)) eqn:Hi0.
      * rewrite _initialize_fastworkflow_again in H0 by done.
        by injection H0 as _ <-.
      * by apply _initialize_fastworkflow_first in H0 as [? _].
  - intros H. apply history_append_inv in H.
    destruct r; [by right|by subst].
  - intros H. apply append_tool_messages_inv in H.
    destruct r; [|by subst]. destruct H as [[-> ->]|H]; [by left|by right].
Qed.

Lemma state_setitem_history key v s r s' :
  key ≠ "message_history" →
  state_setitem key v s = (r, s') →
  history_of (state s') = history_of (state s).
Proof.
  intros Hk. unfold state_setitem, history_of.
  destruct (state s) as [d|] eqn:Es; intros [= _ <-]; simpl; [|by rewrite Es].
  by rewrite lookup_insert_ne.
Qed.

Lemma respond_Raise v s e s' :
  respond v s = (Raise e, s') →
  history_of (state s') = history_of (state s).
Proof.
  unfold respond. intros H.
  apply bind_inv in H as [(calls & s1 & H1 & H)|(e' & H1 & _)].
  - assert (history_of (state s1) = history_of (state s)) as <-.
    { destruct (list_truthy (all_commands v)).
      - apply bind_inv in H1 as [([] & s0 & H0 & H1)|(e' & _ & ?)]; [|done].
        apply state_setitem_history in H0; [|done].
        unfold mret, Py_ret in H1. by injection H1 as _ <-.
      - unfold mret, Py_ret in H1. by injection H1 as _ <-. }
    apply bind_inv in H as [([] & s2 & _ & H)|(e' & H2 & _)]; [done|].
    apply history_append_inv in H2. by subst.
  - destruct (list_truthy (all_commands v)); [|done].
    apply bind_inv in H1 as [([] & s0 & _ & H1)|(e'' & H0 & _)]; [done|].
    by apply state_setitem_history in H0.
Qed.

Lemma grown_history ms st st1 st2 :
  grown ms st st1 → history_of st2 = history_of st1 → grown ms st st2.
Proof. intros (l & H1 & H2) H. exists l. by rewrite H. Qed.

(** ** C8: [reset] and [stop] *)

(** On that adapter [reset], even twice in a row, leaves the handle where
    it is. *)
Lemma reset_clears_handle_counterexample :
  fst (reset (snd (reset after_failed_start))) = Return tt ∧
  is_initialized (self (snd (reset (snd (reset after_failed_start))))) = false ∧
  chat_session (self (snd (reset (snd (reset after_failed_start))))) =
    Some new_session.
Proof. vm_compute. done. Qed.

Lemma reset_uninitialized s :
  is_initialized (self s) = false → reset s = (Return tt, s).
Proof.
  intros H. destruct s as [[path fw cs ini] w st]. simpl in H. subst ini.
  unfold reset, mbind, Py_bind, get_self, modify_self. simpl.
  by destruct cs.
Qed.

(** C8 (amended).  [reset] and [stop], called once, twice in a row or on
    an adapter that was never initialized, raise nothing, leave
    [is_initialized] false and do not touch the state dict; called again
    at once, they change nothing.  On an adapter that is not initialized
    they change nothing at all, the session handle included.  On an
    initialized adapter they clear the session handle when clearing the
    workflow stack succeeds. *)
Theorem reset_stop_idempotent s message st :
  stop message s = reset s ∧
  fst (reset s) = Return tt ∧
  is_initialized (self (snd (reset s))) = false ∧
  state (snd (reset s)) = state s ∧
  reset (snd (reset s)) = (Return tt, snd (reset s)) ∧
  (is_initialized (self s) = false → snd (reset s) = s) ∧
  (is_initialized (self s) = true →
   fst (lib_call clear_workflow_stack s) = Return tt →
   chat_session (self (snd (reset s))) = None) ∧
  snd (reset (mkStore (fresh_adapter (workflow_path (self s))) (world s) st)) =
    mkStore (fresh_adapter (workflow_path (self s))) (world s) st.
Proof.
  assert (fst (reset s) = Return tt ∧
          is_initialized (self (snd (reset s))) = false ∧
          state (snd (reset s)) = state s ∧
          (is_initialized (self s) = true →
           fst (lib_call clear_workflow_stack s) = Return tt →
           chat_session (self (snd (reset s))) = None)) as (H1 & H2 & H3 & H4).
  { destruct s as [[path fw cs ini] [fl sch tr] st0].
    unfold reset, mbind, Py_bind, get_self, modify_self, suppress, try_except,
      lib_call, mret, Py_ret. simpl.
    destruct ini, cs as [cs|], fw as [fw|], fl as [|[e|] fl]; simpl;
      repeat split; try done. }
  split; [done|]. split; [done|]. split; [done|]. split; [done|].
  split; [|split; [|split; [done|]]].
  - destruct (reset s) as [r s1] eqn:E. simpl in *.
    by rewrite (reset_uninitialized s1 H2).
  - intros Hi. by rewrite (reset_uninitialized s Hi).
  - by rewrite reset_uninitialized.
Qed.

Lemma reset_stop_idempotent_witness :
  is_initialized (self (running_store [] [])) = true ∧
  fst (lib_call clear_workflow_stack (running_store [] [])) = Return tt ∧
  chat_session (self (snd (reset (running_store [] [])))) = None ∧
  is_initialized (self (snd (reset (running_store [] [])))) = false ∧
  reset (snd (reset (running_store [] []))) =
    (Return tt, snd (reset (running_store [] []))).
Proof.
  destruct (reset_stop_idempotent (running_store [] []) None None)
    as (_ & _ & Hi & _ & Htwice & _ & Hclear & _).
  split; [reflexivity|]. split; [reflexivity|].
  split; [exact (Hclear eq_refl eq_refl)|]. split; [exact Hi|exact Htwice].
Defined.

(** ** C9: initialization happens once *)

Global Instance quiet_preorder : PreOrder quiet.
Proof.
  split.
  - intros s. exists 0. apply steady_refl.
  - intros s s1 s2 [j H1] [k H2]. exists (j + k). by eapply steady_trans.
Qed.

Lemma still_quiet {A : Type} (m : Py A) : still m → preserves quiet m.
Proof. intros H s r s' E. exists 0. by eapply H. Qed.

Lemma quiet_answer : preserves quiet answer.
Proof.
  unfold answer. apply preserves_bind; [apply _| |].
  - intros s r s' H. apply poll_loop_steady in H as (k & _ & H). by exists k.
  - intros v. apply preserves_bind; [apply _|apply still_quiet, still_respond|].
    intros msg. apply preserves_bind; [apply _|apply preserves_get_state, _|].
    intros st. apply preserves_ret, _.
Qed.

Lemma same_sink_answer : preserves same_sink answer.
Proof.
  unfold answer.
  apply preserves_bind; [apply _|apply same_sink_poll_loop|].
  intros v. apply preserves_bind; [apply _|apply same_sink_respond|].
  intros msg. apply preserves_bind; [apply _|apply preserves_get_state, _|].
  intros st. apply preserves_ret, _.
Qed.

Lemma quiet_initialize_calls s s' :
  quiet s s' →
  initialize_calls (trace (world s')) = initialize_calls (trace (world s)).
Proof. intros [k H]. by eapply steady_initialize_calls. Qed.

Lemma quiet_is_initialized s s' :
  quiet s s' → is_initialized (self s') = is_initialized (self s).
Proof. by intros [k [H _]]. Qed.

Lemma quiet_trace s s' c : quiet s s' → c ∈ trace (world s) → c ∈ trace (world s').
Proof. intros [k (_ & _ & _ & _ & ->)] H. apply elem_of_app. by left. Qed.

Lemma quiet_setup s :
  quiet s (mkStore (self s) (world s) (set_up (state s))).
Proof. exists 0. unfold steady. simpl. by rewrite app_nil_r. Qed.

(** The store [generate_next_message] ends in is the one its [try] block
    ends in. *)
Lemma generate_next_message_store message s :
  snd (generate_next_message message s) = snd (turn message s).
Proof.
  unfold generate_next_message, try_except.
  by destruct (turn message s) as [[x|e] s'].
Qed.

Lemma dispatch_initialized_still message s r s' :
  is_initialized (self s) = true →
  dispatch message s = (r, s') → steady 0 s s'.
Proof.
  intros Hi. destruct message as [m|m|tms].
  - rewrite dispatch_follow_up by done.
    apply (preserves_bind (steady 0));
      [apply still__push_user_message|intros _; apply still_history_append].
  - apply still_history_append.
  - apply still_append_tool_messages.
Qed.

Lemma turn_initialized_quiet message s :
  is_initialized (self s) = true → quiet s (snd (turn message s)).
Proof.
  intros Hi. destruct (turn message s) as [r s'] eqn:E. simpl.
  unfold turn in E. apply bind_inv in E as [([] & s1 & H1 & H)|(e & H1 & _)].
  - apply receive_inv, dispatch_initialized_still in H1; [|done].
    apply quiet_answer in H.
    transitivity (mkStore (self s) (world s) (set_up (state s)));
      [apply quiet_setup|].
    transitivity s1; [by exists 0|done].
  - apply receive_inv, dispatch_initialized_still in H1; [|done].
    transitivity (mkStore (self s) (world s) (set_up (state s)));
      [apply quiet_setup|by exists 0].
Qed.

(** Once initialized, no sequence of calls initializes again. *)
Lemma turns_initialized_quiet messages s :
  is_initialized (self s) = true → quiet s (turns messages s).
Proof.
  revert s. induction messages as [|message messages IH]; intros s Hi; simpl.
  - reflexivity.
  - rewrite generate_next_message_store.
    pose proof (turn_initialized_quiet message s Hi) as H.
    transitivity (snd (turn message s)); [done|].
    apply IH. by rewrite (quiet_is_initialized _ _ H).
Qed.

Lemma receive_first m s :
  is_initialized (self s) = false →
  receive (InUser m) s =
  (_initialize_fastworkflow (user_content m);; history_append (MsgUser m))
    (mkStore (self s) (world s) (set_up (state s))).
Proof.
  intros Hi. unfold receive.
  rewrite (bind_Return _ _ _ _ _ (setup_state_spec s)).
  by rewrite dispatch_first.
Qed.

Lemma receive_follow_up m s :
  is_initialized (self s) = true →
  receive (InUser m) s =
  (_push_user_message (user_content m);; history_append (MsgUser m))
    (mkStore (self s) (world s) (set_up (state s))).
Proof.
  intros Hi. unfold receive.
  rewrite (bind_Return _ _ _ _ _ (setup_state_spec s)).
  by rewrite dispatch_follow_up.
Qed.

(** The first user message of an uninitialized adapter. *)
Lemma turn_first m s :
  is_initialized (self s) = false →
  ∃ r0 s0,
    _initialize_fastworkflow (user_content m)
      (mkStore (self s) (world s) (set_up (state s))) = (r0, s0) ∧
    quiet s0 (snd (turn (InUser m) s)) ∧
    (is_initialized (self (snd (turn (InUser m) s))) = true → r0 = Return tt).
Proof.
  intros Hi.
  destruct (_initialize_fastworkflow (user_content m)
              (mkStore (self s) (world s) (set_up (state s))))
    as [r0 s0] eqn:E0.
  exists r0, s0. split; [done|].
  pose proof (_initialize_fastworkflow_first (user_content m)
                (mkStore (self s) (world s) (set_up (state s))) _ _ Hi E0)
    as (_ & _ & _ & _ & Hr).
  destruct (turn (InUser m) s) as [r s'] eqn:E. simpl.
  unfold turn in E.
  apply bind_inv in E as [([] & s1 & H1 & H)|(e & H1 & _)];
    rewrite receive_first in H1 by done.
  - apply bind_inv in H1 as [([] & sa & Ha & H1)|(e' & _ & ?)]; [|done].
    rewrite E0 in Ha. injection Ha as -> ->.
    split; [|done]. apply still_history_append in H1. apply quiet_answer in H.
    transitivity s1; [by exists 0|done].
  - apply bind_inv in H1 as [([] & sa & Ha & H1)|(e' & Ha & _)];
      rewrite E0 in Ha; injection Ha as -> ->.
    + split; [|done]. apply still_history_append in H1. by exists 0.
    + split; [reflexivity|]. intros H. by rewrite H in Hr.
Qed.

(** A user message on an initialized adapter reaches the input sink. *)
Lemma turn_follow_up_sink m s cs :
  is_initialized (self s) = true →
  chat_session (self s) = Some cs →
  failure (user_message_queue cs) = None →
  sink (snd (turn (InUser m) s)) =
  Some (items (user_message_queue cs) ++ [user_content m]).
Proof.
  intros Hi Hc Hf.
  set (s0 := mkStore (self s) (world s) (set_up (state s))).
  assert (∃ s1, _push_user_message (user_content m) s0 = (Return tt, s1) ∧
                sink s1 = Some (items (user_message_queue cs) ++ [user_content m]))
    as (s1 & Hpush & Hsink).
  { unfold _push_user_message, put. simpl. rewrite Hi, Hc, Hf.
    eexists. split; [done|]. done. }
  destruct (turn (InUser m) s) as [r s'] eqn:E. simpl.
  unfold turn in E.
  apply bind_inv in E as [([] & s2 & H2 & H)|(e & H2 & _)];
    rewrite receive_follow_up in H2 by done; fold s0 in H2;
    rewrite (bind_Return _ _ _ _ _ Hpush) in H2;
    apply same_sink_history_append in H2; unfold same_sink in H2.
  - apply same_sink_answer in H. unfold same_sink in H. congruence.
  - congruence.
Qed.

(** Without any [reset] in between, each of the two messages makes an
    initialization call. *)
Lemma initialization_repeated_counterexample :
  initialize_calls
    (trace (world (turns [InUser (mkUser "hello");
                          InUser (mkUser "are you there?")]
                         broken_install_store))) =
  ["hello"; "are you there?"].
Proof. vm_compute. reflexivity. Qed.

(** C9 (amended).  On an uninitialized adapter a user message makes
    exactly one initialization call, with the message's text as
    [initial_message].  If that call succeeds, the text (when not empty)
    is the [startup_command] of [start_workflow], and no later call of
    [generate_next_message] initializes again, whatever the messages.  A
    user message received by an initialized adapter is appended to the
    input sink and makes no initialization call.  (A failed
    initialization leaves the adapter uninitialized: the next user
    message makes a new call.) *)
Theorem initialization_once_until_reset s m :
  is_initialized (self s) = false →
  let s1 := snd (generate_next_message (InUser m) s) in
  initialize_calls (trace (world s1)) =
    initialize_calls (trace (world s)) ++ [user_content m] ∧
  (is_initialized (self s1) = true →
   (str_truthy (user_content m) = true →
    start_workflow (workflow_path (self s)) (user_content m) ∈ trace (world s1)) ∧
   ∀ messages,
     is_initialized (self (turns messages s1)) = true ∧
     initialize_calls (trace (world (turns messages s1))) =
       initialize_calls (trace (world s)) ++ [user_content m]) ∧
  (∀ s2 cs m2,
     is_initialized (self s2) = true →
     chat_session (self s2) = Some cs →
     failure (user_message_queue cs) = None →
     sink (snd (generate_next_message (InUser m2) s2)) =
       Some (items (user_message_queue cs) ++ [user_content m2]) ∧
     initialize_calls (trace (world (snd (generate_next_message (InUser m2) s2)))) =
       initialize_calls (trace (world s2))).
Proof.
  intros Hi s1. subst s1. rewrite generate_next_message_store.
  destruct (turn_first m s Hi) as (r0 & s0 & E0 & Hq & Hok).
  pose proof (_initialize_fastworkflow_first (user_content m)
                (mkStore (self s) (world s) (set_up (state s))) _ _ Hi E0)
    as (_ & _ & Hcalls & _ & Hr). simpl in Hcalls.
  assert (initialize_calls (trace (world (snd (turn (InUser m) s)))) =
          initialize_calls (trace (world s)) ++ [user_content m]) as Hone.
  { by rewrite (quiet_initialize_calls _ _ Hq). }
  split; [done|]. split.
  - intros Hdone. rewrite (Hok Hdone) in Hr.
    destruct Hr as (_ & _ & _ & Hstart). split.
    + intros Ht. eapply quiet_trace; [done|by apply Hstart].
    + intros messages.
      pose proof (turns_initialized_quiet messages _ Hdone) as Hqs.
      split.
      * by rewrite (quiet_is_initialized _ _ Hqs).
      * by rewrite (quiet_initialize_calls _ _ Hqs).
  - intros s2 cs m2 Hi2 Hc2 Hf2. rewrite generate_next_message_store. split.
    + by apply turn_follow_up_sink.
    + apply quiet_initialize_calls. by apply turn_initialized_quiet.
Qed.

Lemma initialization_once_until_reset_witness :
  is_initialized (self cancel_store) = false ∧
  initialize_calls
    (trace (world (snd (generate_next_message cancel_request cancel_store)))) =
    ["I want to cancel order #W123"] ∧
  is_initialized
    (self (snd (generate_next_message cancel_request cancel_store))) = true.
Proof.
  split; [reflexivity|].
  destruct (initialization_once_until_reset cancel_store
              (mkUser "I want to cancel order #W123") eq_refl) as (H & _ & _).
  split; [exact H|]. vm_compute. reflexivity.
Defined.

(* ================================================================= *)
(** * Further properties *)

(** ** [is_stop] *)

Lemma is_prefix_spec p s : is_prefix p s = true ↔ ∃ r, s = p +:+ r.
Proof.
  revert s. induction p as [|a p IH]; intros s; simpl.
  - split; [intros _; by exists s|done].
  - destruct s as [|b s]; simpl.
    + split; [done|]. by intros [r [=]].
    + rewrite andb_true_iff, bool_decide_eq_true, IH. split.
      * intros [-> [r ->]]. by exists r.
      * intros [r [= -> ->]]. split; [done|]. by exists r.
Qed.

Lemma contains_spec needle hay :
  contains needle hay = true ↔ ∃ pre post, hay = pre +:+ needle +:+ post.
Proof.
  split.
  - induction hay as [|c hay IH]; simpl.
    + rewrite orb_false_r. intros [r Hr]%is_prefix_spec. by exists "", r.
    + intros [[r Hr]%is_prefix_spec|H]%orb_true_iff.
      * by exists "", r.
      * destruct (IH H) as (pre & post & ->). by exists (String c pre), post.
  - intros (pre & post & ->).
    induction pre as [|c pre IH]; simpl.
    + destruct (needle +:+ post) eqn:E; simpl.
      * rewrite orb_false_r. apply is_prefix_spec. by exists post.
      * apply orb_true_iff. left. apply is_prefix_spec. by exists post.
    + rewrite IH. apply orb_true_r.
Qed.

Lemma contains_skip a needle p s :
  (∀ r1 r2, p ≠ r1 +:+ String a r2) →
  contains (String a needle) (p +:+ s) = contains (String a needle) s.
Proof.
  induction p as [|b p IH]; intros Hp; simpl; [done|].
  rewrite IH.
  - rewrite bool_decide_eq_false_2; [done|].
    intros ->. by apply (Hp "" p).
  - intros r1 r2 ->. by apply (Hp (String b r1) r2).
Qed.

(** X23.  [is_stop] answers true exactly for the messages whose content
    has the marker [###STOP###] somewhere in it; a message without content
    (one that carries action calls) is never a stop signal. *)
Theorem is_stop_iff_sentinel m :
  is_stop m = true ↔
  ∃ pre post, content m = Some (pre +:+ "###STOP###" +:+ post).
Proof.
  unfold is_stop. destruct (content m) as [c|]; [|split; [done|by intros (?&?&?)]].
  rewrite andb_true_iff, contains_spec. split.
  - intros [_ (pre & post & ->)]. by exists pre, post.
  - intros (pre & post & [= ->]). split; [|by exists pre, post].
    by destruct pre.
Qed.

Lemma is_stop_error_message e :
  is_stop (error_message e) = contains "###STOP###" (str e).
Proof.
  unfold is_stop, error_message. cbn [content].
  rewrite (contains_skip _ "##STOP###" "I encountered an error: " (str e)).
  { done. }
  intros r1 r2 H.
  assert (contains "#" "I encountered an error: " = true) as Hc.
  { apply contains_spec. by exists r1, r2. }
  vm_compute in Hc. discriminate Hc.
Qed.

Lemma is_stop_apology : is_stop apology_message = false.
Proof. vm_compute. reflexivity. Qed.

(** ** The drains: cap, order, failure *)

Lemma record_command_length fw evt acc :
  length (record_command fw evt acc) ≤ S (length acc).
Proof.
  unfold record_command. destruct (is_agent_to_workflow fw evt); [lia|].
  destruct (command_name evt); try lia.
  destruct (0 <? String.length s)%nat; [|lia].
  rewrite length_app. simpl. lia.
Qed.

Lemma record_output_length out acc :
  length (record_output out acc) ≤ S (length acc).
Proof.
  rewrite record_output_utterance, length_app.
  destruct (utterance out); simpl; lia.
Qed.

Lemma drain_trace_length fw budget q acc r q' :
  drain_trace fw budget q acc = (Return r, q') →
  length r ≤ length acc + budget.
Proof.
  revert q acc. induction budget as [|b IH]; intros q acc; simpl.
  - intros [= <- _]. lia.
  - destruct (get_nowait q) as [evt q1| |e]; [|intros [= <- _]; lia|done].
    intros H%IH. pose proof (record_command_length fw evt acc). lia.
Qed.

Lemma drain_outputs_length budget q acc r q' :
  drain_outputs budget q acc = (Return r, q') →
  length r ≤ length acc + budget.
Proof.
  revert q acc. induction budget as [|b IH]; intros q acc; simpl.
  - intros [= <- _]. lia.
  - destruct (get_nowait q) as [out q1| |e]; [|intros [= <- _]; lia|done].
    intros H%IH. pose proof (record_output_length out acc). lia.
Qed.

Lemma _drain_command_trace_length max_drain s r s' :
  _drain_command_trace max_drain s = (Return r, s') → length r ≤ max_drain.
Proof.
  unfold _drain_command_trace.
  destruct (is_initialized (self s)); [|by intros [= <- _]; simpl; lia].
  destruct (chat_session (self s)) as [cs|]; [|by intros [= <- _]; simpl; lia].
  destruct (drain_trace _ _ _ _) as [r0 q'] eqn:E. intros [= -> _].
  apply drain_trace_length in E. simpl in E. lia.
Qed.

Lemma _drain_agent_outputs_length max_drain s r s' :
  _drain_agent_outputs max_drain s = (Return r, s') → length r ≤ max_drain.
Proof.
  unfold _drain_agent_outputs.
  destruct (is_initialized (self s)); [|by intros [= <- _]; simpl; lia].
  destruct (chat_session (self s)) as [cs|]; [|by intros [= <- _]; simpl; lia].
  destruct (drain_outputs _ _ _) as [r0 q'] eqn:E. intros [= -> _].
  apply drain_outputs_length in E. simpl in E. lia.
Qed.

Lemma drain_trace_failing fw e budget l acc :
  length l < budget →
  drain_trace fw budget (mkQueue l (Some e)) acc =
  (Raise e, mkQueue [] (Some e)).
Proof.
  revert l acc. induction budget as [|b IH]; intros l acc Hl; [lia|].
  destruct l as [|x l]; simpl; [done|]. apply IH. simpl in Hl. lia.
Qed.

Lemma drain_trace_enough fw f budget l acc :
  budget ≤ length l →
  drain_trace fw budget (mkQueue l f) acc =
  (Return (acc ++ (take budget l ≫= λ evt, record_command fw evt [])),
   mkQueue (drop budget l) f).
Proof.
  revert l acc. induction budget as [|b IH]; intros l acc Hl; simpl.
  - by rewrite app_nil_r.
  - destruct l as [|x l]; simpl in *; [lia|].
    rewrite IH by lia. rewrite (record_command_app fw x acc).
    by rewrite <- app_assoc.
Qed.

(** X7.  With a session alive and a usable trace queue, one call of
    [_drain_command_trace] takes the first [max_drain] records of the queue
    and nothing else: it returns at most [max_drain] entries, the records
    beyond the cap stay queued in their order, and the other two queues,
    the trace and the state are untouched; draining with cap [max_drain]
    and then with cap [more] yields, one after the other, what a single
    drain with cap [max_drain + more] yields. *)
Theorem _drain_command_trace_cap s cs max_drain :
  is_initialized (self s) = true →
  chat_session (self s) = Some cs →
  failure (command_trace_queue cs) = None →
  ∃ commands s',
    _drain_command_trace max_drain s = (Return commands, s') ∧
    length commands ≤ max_drain ∧
    chat_session (self s') =
      Some (mkSession
              (mkQueue (drop max_drain (items (command_trace_queue cs))) None)
              (command_output_queue cs) (user_message_queue cs)) ∧
    world s' = world s ∧ state s' = state s ∧
    ∀ more, ∃ commands',
      fst (_drain_command_trace more s') = Return commands' ∧
      fst (_drain_command_trace (max_drain + more) s) =
        Return (commands ++ commands').
Proof.
  intros Hi Hc Hf.
  destruct (command_trace_queue cs) as [l f] eqn:Eq. simpl in Hf. subst f.
  assert (∀ k, _drain_command_trace k s =
            (Return (take k l ≫= λ evt, record_command (fastworkflow (self s)) evt []),
             mkStore (with_chat_session
                        (Some (mkSession (mkQueue (drop k l) None)
                                 (command_output_queue cs)
                                 (user_message_queue cs))) (self s))
                     (world s) (state s))) as Hd.
  { intros k. unfold _drain_command_trace.
    by rewrite Hi, Hc, Eq, drain_trace_live. }
  eexists _, _. split; [apply Hd|].
  split; [by eapply _drain_command_trace_length, Hd|].
  simpl. split; [done|split; [done|split; [done|]]].
  intros more. eexists. rewrite Hd. unfold _drain_command_trace. simpl.
  rewrite Hi, drain_trace_live. simpl. split; [done|].
  by rewrite <- take_take_drop, bind_app.
Qed.

(** X8.  With a session alive and a usable output queue, one call of
    [_drain_agent_outputs] takes the first [max_drain] outputs of the
    queue: it returns at most [max_drain] utterances, none of them empty,
    the outputs beyond the cap stay queued in their order, and the other
    queues, the trace and the state are untouched; draining with cap
    [max_drain] and then with cap [more] yields, one after the other, what a
    single drain with cap [max_drain + more] yields. *)
Theorem _drain_agent_outputs_cap s cs max_drain :
  is_initialized (self s) = true →
  chat_session (self s) = Some cs →
  failure (command_output_queue cs) = None →
  ∃ texts s',
    _drain_agent_outputs max_drain s = (Return texts, s') ∧
    length texts ≤ max_drain ∧
    Forall (λ t, t ≠ "") texts ∧
    chat_session (self s') =
      Some (mkSession
              (command_trace_queue cs)
              (mkQueue (drop max_drain (items (command_output_queue cs))) None)
              (user_message_queue cs)) ∧
    world s' = world s ∧ state s' = state s ∧
    ∀ more, ∃ texts',
      fst (_drain_agent_outputs more s') = Return texts' ∧
      fst (_drain_agent_outputs (max_drain + more) s) =
        Return (texts ++ texts').
Proof.
  intros Hi Hc Hf.
  destruct (command_output_queue cs) as [l f] eqn:Eq. simpl in Hf. subst f.
  assert (∀ k, _drain_agent_outputs k s =
            (Return (omap utterance (take k l)),
             mkStore (with_chat_session
                        (Some (mkSession (command_trace_queue cs)
                                 (mkQueue (drop k l) None)
                                 (user_message_queue cs))) (self s))
                     (world s) (state s))) as Hd.
  { intros k. unfold _drain_agent_outputs.
    by rewrite Hi, Hc, Eq, drain_outputs_live. }
  eexists _, _. split; [apply Hd|].
  split; [by eapply _drain_agent_outputs_length, Hd|].
  split.
  { eapply Forall_impl; [by eapply _drain_agent_outputs_truthy, Hd|].
    simpl. by intros [|??]. }
  simpl. split; [done|split; [done|split; [done|]]].
  intros more. eexists. rewrite Hd. unfold _drain_agent_outputs. simpl.
  rewrite Hi, drain_outputs_live. simpl. split; [done|].
  by rewrite <- take_take_drop, omap_app.
Qed.

Lemma _drain_agent_outputs_cap_witness :
  ∃ texts s',
    _drain_agent_outputs 1 two_outputs_store = (Return texts, s') ∧
    length texts ≤ 1 ∧
    Forall (λ t, t ≠ "") texts ∧
    chat_session (self s') =
      Some (mkSession empty_queue (mkQueue [OutStr which_reason] None)
                      empty_queue).
Proof.
  destruct (_drain_agent_outputs_cap two_outputs_store
              (mkSession empty_queue
                 (mkQueue [OutStr checking; OutStr which_reason] None)
                 empty_queue) 1 eq_refl eq_refl eq_refl)
    as (texts & s' & H1 & H2 & H3 & H4 & _).
  by exists texts, s'.
Defined.

Lemma poll_loop_first_raise n v s e s' :
  poll_once v s = (Raise e, s') → poll_loop (S n) v s = (Raise e, s').
Proof. intros H. rewrite poll_loop_S. by apply bind_Raise. Qed.

Lemma max_num_steps_S : max_num_steps = S 4999.
Proof. reflexivity. Qed.

(** X9.  When the runner dies while fewer than 200 records wait in the trace
    queue, the first poll of the turn takes them off the queue and then
    fails: [generate_next_message] reports the failure as an error message
    without action calls, nothing is added to the history after the
    inbound message, and the records are gone from the queue: no later
    turn can surface them. *)
Theorem crash_drops_pending_records message s s1 cs e rest :
  receive message s = (Return tt, s1) →
  is_initialized (self s1) = true →
  chat_session (self s1) = Some cs →
  schedule (world s1) = Crashes e :: rest →
  length (items (command_trace_queue cs)) < 200 →
  ∃ s',
    generate_next_message message s =
      (Return (error_message e, state s1), s') ∧
    tool_calls (error_message e) = None ∧
    chat_session (self s') =
      Some (mkSession (mkQueue [] (Some e))
                      (break_queue e (command_output_queue cs))
                      (break_queue e (user_message_queue cs))) ∧
    trace (world s') = trace (world s1).
Proof.
  intros Hr Hi Hc Hs Hl.
  set (s' := mkStore
               (with_chat_session
                  (Some (mkSession (mkQueue [] (Some e))
                           (break_queue e (command_output_queue cs))
                           (break_queue e (user_message_queue cs))))
                  (self s1))
               (mkWorld (faults (world s1)) rest (trace (world s1)))
               (state s1)).
  assert (poll_once poll_start s1 = (Raise e, s')) as Hp.
  { unfold poll_once.
    assert (runner_turn s1 =
            (Return tt,
             mkStore (with_chat_session (Some (deliver (Crashes e) cs)) (self s1))
                     (mkWorld (faults (world s1)) rest (trace (world s1)))
                     (state s1))) as Ht.
    { unfold runner_turn. by rewrite Hc, Hs. }
    rewrite (bind_Return _ _ _ _ _ Ht).
    apply bind_Raise. unfold _drain_command_trace.
    cbn [self with_chat_session is_initialized chat_session deliver
         command_trace_queue command_output_queue user_message_queue
         fastworkflow break_queue world state].
    rewrite Hi.
    change (break_queue e (command_trace_queue cs))
      with (mkQueue (items (command_trace_queue cs)) (Some e)).
    by rewrite (drain_trace_failing _ e 200 _ [] Hl). }
  exists s'. split; [|done].
  assert (turn message s = (Raise e, s')) as Ht.
  { unfold turn. rewrite (bind_Return _ _ _ _ _ Hr). unfold answer.
    apply bind_Raise. rewrite max_num_steps_S.
    by apply poll_loop_first_raise. }
  by rewrite (generate_next_message_Raise _ _ _ _ Ht).
Qed.

Lemma crash_drops_pending_records_witness :
  ∃ s',
    generate_next_message tool_result crashing_store =
      (Return (error_message runner_stopped,
               state (snd (receive tool_result crashing_store))), s') ∧
    tool_calls (error_message runner_stopped) = None ∧
    chat_session (self s') =
      Some (mkSession (mkQueue [] (Some runner_stopped))
                      (break_queue runner_stopped empty_queue)
                      (break_queue runner_stopped empty_queue)) ∧
    trace (world s') = trace (world (snd (receive tool_result crashing_store))).
Proof.
  apply (crash_drops_pending_records tool_result crashing_store
           (snd (receive tool_result crashing_store))
           (mkSession (mkQueue [cancel_event; status_event] None)
                      empty_queue empty_queue)
           runner_stopped []).
  - apply returned_inv. vm_compute. reflexivity.
  - vm_compute. reflexivity.
  - vm_compute. reflexivity.
  - vm_compute. reflexivity.
  - simpl. lia.
Defined.

(** ** The state dict across a turn *)

Global Instance same_field_preorder key : PreOrder (same_field key).
Proof. split; unfold same_field; [done|]. intros s s1 s2 H1 H2. congruence. Qed.

Lemma same_state_same_field {A : Type} key (m : Py A) :
  preserves same_state m → preserves (same_field key) m.
Proof. intros H s r s' E. unfold same_field. by rewrite (H s r s' E). Qed.

Lemma same_field_history_append key m :
  key ≠ "message_history" → preserves (same_field key) (history_append m).
Proof.
  intros Hk s r s'. unfold history_append, same_field, field.
  destruct (state s) as [d|] eqn:Es; [|intros [= _ <-]; by rewrite Es].
  destruct (d !! "message_history") as [[b|l]|];
    intros [= _ <-]; simpl; rewrite ?Es; try done.
  by rewrite lookup_insert_ne.
Qed.

Lemma same_field_state_setitem key key' v :
  key ≠ key' → preserves (same_field key) (state_setitem key' v).
Proof.
  intros Hk s r s'. unfold state_setitem, same_field, field.
  destruct (state s) as [d|] eqn:Es; intros [= _ <-]; simpl; [|by rewrite Es].
  by rewrite lookup_insert_ne.
Qed.

Lemma same_field_append_tool_messages key tms :
  key ≠ "message_history" → preserves (same_field key) (append_tool_messages tms).
Proof.
  intros Hk. induction tms as [|tm tms IH]; simpl.
  - apply preserves_ret, _.
  - apply preserves_bind; [apply _|by apply same_field_history_append|done].
Qed.

Lemma same_state__initialize_fastworkflow t :
  preserves same_state (_initialize_fastworkflow t).
Proof.
  intros s r s' H. unfold same_state.
  destruct (is_initialized (self s)) eqn:Hi.
  - rewrite _initialize_fastworkflow_again in H by done. by injection H as _ <-.
  - by apply _initialize_fastworkflow_first in H as [? _].
Qed.

Lemma same_field_dispatch key message :
  key ≠ "message_history" → preserves (same_field key) (dispatch message).
Proof.
  intros Hk. destruct message as [m|m|tms]; simpl.
  - apply preserves_bind; [apply _|apply preserves_get_self, _|]. intros a.
    destruct (negb (is_initialized a)).
    + apply preserves_bind; [apply _| |intros _; by apply same_field_history_append].
      apply same_state_same_field, same_state__initialize_fastworkflow.
    + apply preserves_bind; [apply _| |intros _; by apply same_field_history_append].
      apply same_state_same_field, same_state__push_user_message.
  - by apply same_field_history_append.
  - by apply same_field_append_tool_messages.
Qed.

Lemma history_append_field key m s r s' :
  key ≠ "message_history" → history_append m s = (r, s') →
  field key (state s') = field key (state s).
Proof. intros Hk H. by apply (same_field_history_append key m Hk s r s'). Qed.

Lemma state_setitem_field key key' v s r s' :
  key ≠ key' → state_setitem key' v s = (r, s') →
  field key (state s') = field key (state s).
Proof. intros Hk H. by apply (same_field_state_setitem key key' v Hk s r s'). Qed.

Lemma respond_inv v s msg s' :
  respond v s = (Return msg, s') →
  msg = outbound v ∧
  grown [MsgAssistant msg] (state s) (state s') ∧
  field "last_tool_calls" (state s') =
    (if list_truthy (all_commands v)
     then Some (VList (ItemToolCall <$>
                         _convert_commands_to_tool_calls (all_commands v)))
     else field "last_tool_calls" (state s)) ∧
  ∀ key, key ≠ "message_history" → key ≠ "last_tool_calls" →
         field key (state s') = field key (state s).
Proof.
  intros H. split; [by eapply respond_Return|].
  unfold respond in H.
  apply bind_inv in H as [(calls & s1 & H1 & H)|(e' & _ & ?)]; [|done].
  apply bind_inv in H as [([] & s2 & H2 & H)|(e' & _ & ?)]; [|done].
  unfold mret, Py_ret in H. injection H as <- <-.
  pose proof (history_append_inv _ _ _ _ H2) as Hg. simpl in Hg.
  assert ("last_tool_calls" ≠ "message_history") as Hne by done.
  destruct (list_truthy (all_commands v)) eqn:Ec.
  - apply bind_inv in H1 as [([] & s0 & H0 & H1)|(e' & _ & ?)]; [|done].
    unfold mret, Py_ret in H1. injection H1 as <- <-.
    split; [|split].
    + destruct Hg as (l & Hl & Hl'). exists l. split; [|done].
      by rewrite <- (state_setitem_history _ _ _ _ _ Hne H0).
    + rewrite (history_append_field "last_tool_calls" _ _ _ _ Hne H2).
      unfold state_setitem in H0. unfold field.
      destruct (state s) as [d|]; [|done]. injection H0 as <-. simpl.
      by rewrite lookup_insert_eq.
    + intros key Hk1 Hk2.
      rewrite (history_append_field key _ _ _ _ Hk1 H2).
      by rewrite (state_setitem_field key _ _ _ _ _ Hk2 H0).
  - unfold mret, Py_ret in H1. injection H1 as <- <-.
    split; [done|split].
    + by rewrite (history_append_field "last_tool_calls" _ _ _ _ Hne H2).
    + intros key Hk1 Hk2.
      by rewrite (history_append_field key _ _ _ _ Hk1 H2).
Qed.

Lemma turn_Return_states message s msg st s' :
  turn message s = (Return (msg, st), s') →
  ∃ s1 s2 v,
    dispatch message (mkStore (self s) (world s) (set_up (state s))) =
      (Return tt, s1) ∧
    poll_loop max_num_steps poll_start s1 = (Return v, s2) ∧
    state s2 = state s1 ∧
    respond v s2 = (Return msg, s') ∧ st = state s'.
Proof.
  intros H. apply turn_Return in H as (s1 & s2 & v & H1 & H2 & H3 & ->).
  exists s1, s2, v. split; [by apply receive_inv|].
  split; [done|]. split; [by eapply same_state_poll_loop|done].
Qed.

Lemma turn_Return_grown message s msg st s' :
  turn message s = (Return (msg, st), s') →
  grown (inbound message ++ [MsgAssistant msg]) (set_up (state s)) st.
Proof.
  intros H.
  apply turn_Return_states in H as (s1 & s2 & v & H1 & _ & H2 & H3 & ->).
  apply respond_inv in H3 as (_ & Hg & _). rewrite H2 in Hg.
  apply dispatch_inv in H1 as [[-> H1]|H1]; simpl in H1.
  - by rewrite H1 in Hg.
  - by eapply grown_app.
Qed.

(** X16.  When the [try] block of [generate_next_message] returns, the
    history of the returned state is the history of the state as set up
    (the caller's dict, or the fresh one when [state] is [None]) followed
    by the inbound message, or by the tool results of a multi-tool message
    in their order, and then by the returned assistant message: nothing
    else is appended and nothing is dropped. *)
Theorem normal_turn_history message s msg st s' :
  turn message s = (Return (msg, st), s') →
  generate_next_message message s = (Return (msg, st), s') ∧
  grown (inbound message ++ [MsgAssistant msg]) (set_up (state s)) st.
Proof.
  intros H. split; [by apply generate_next_message_Return|].
  by eapply turn_Return_grown.
Qed.

Lemma normal_turn_history_witness :
  grown (inbound cancel_request ++
           [MsgAssistant (mkAssistant "assistant" None (Some [cancel_call]))])
        (set_up (state cancel_store))
        (state (snd (turn cancel_request cancel_store))).
Proof.
  apply (normal_turn_history cancel_request cancel_store
           (mkAssistant "assistant" None (Some [cancel_call]))
           (state (snd (turn cancel_request cancel_store)))
           (snd (turn cancel_request cancel_store))).
  apply turn_returns. vm_compute. reflexivity.
Defined.

(** X17.  When the [try] block returns, the entry [last_tool_calls] of the
    returned state holds the action calls of the returned message if it
    has any, and is what it was otherwise (the calls of an earlier turn
    stay); every other entry apart from the history, [awaiting_response]
    among them, is what it was in the state as set up. *)
Theorem normal_turn_fields message s msg st s' :
  turn message s = (Return (msg, st), s') →
  field "last_tool_calls" st =
    match tool_calls msg with
    | Some calls => Some (VList (ItemToolCall <$> calls))
    | None => field "last_tool_calls" (set_up (state s))
    end ∧
  ∀ key, key ≠ "message_history" → key ≠ "last_tool_calls" →
         field key st = field key (set_up (state s)).
Proof.
  intros H.
  apply turn_Return_states in H as (s1 & s2 & v & H1 & _ & H2 & H3 & ->).
  assert (∀ key, key ≠ "message_history" →
                 field key (state s2) = field key (set_up (state s))) as Hk.
  { intros key Hkey. rewrite H2.
    apply (same_field_dispatch key message Hkey _ _ _ H1). }
  apply respond_inv in H3 as (-> & _ & Hl & Ho). split.
  - rewrite Hl. destruct (list_truthy (all_commands v)) eqn:Ec.
    + apply list_truthy_true in Ec as Hne.
      by rewrite (outbound_tool_calls v Hne).
    + unfold outbound, build_message. rewrite Ec. simpl. rewrite Hk by done.
      by destruct (opt_str_truthy _).
  - intros key Hk1 Hk2. by rewrite Ho, Hk.
Qed.

Lemma normal_turn_fields_witness :
  field "last_tool_calls" (state (snd (turn cancel_request cancel_store))) =
    Some (VList [ItemToolCall cancel_call]) ∧
  ∀ key, key ≠ "message_history" → key ≠ "last_tool_calls" →
         field key (state (snd (turn cancel_request cancel_store))) =
         field key (set_up (state cancel_store)).
Proof.
  apply (normal_turn_fields cancel_request cancel_store
           (mkAssistant "assistant" None (Some [cancel_call]))
           (state (snd (turn cancel_request cancel_store)))
           (snd (turn cancel_request cancel_store))).
  apply turn_returns. vm_compute. reflexivity.
Defined.

(** ** Edge cases of a turn *)

Lemma receive_dispatch message s :
  receive message s =
  dispatch message (mkStore (self s) (world s) (set_up (state s))).
Proof.
  unfold receive. by rewrite (bind_Return _ _ _ _ _ (setup_state_spec s)).
Qed.

Lemma turn_receive_Raise message s e s' :
  receive message s = (Raise e, s') →
  generate_next_message message s = (Return (error_message e, state s'), s').
Proof.
  intros H. apply generate_next_message_Raise. unfold turn.
  by apply bind_Raise.
Qed.

Lemma history_append_error m s e :
  history_error (state s) = Some e → history_append m s = (Raise e, s).
Proof.
  unfold history_error, history_append.
  destruct (state s) as [d|]; [|by intros [= <-]].
  destruct (d !! "message_history") as [[b|l]|]; by intros [= <-].
Qed.

(** X18.  Tool results handed over with a state whose [message_history] is
    missing or is not a list are not recorded and not answered: the first
    append fails, [generate_next_message] returns the error message of
    that failure with the caller's state as it was, and neither the
    adapter nor its queues nor the trace have changed: the turn has not
    polled and not slept. *)
Theorem tool_results_without_history message s e :
  tool_results message = true → inbound message ≠ [] →
  history_error (set_up (state s)) = Some e →
  generate_next_message message s =
    (Return (error_message e, set_up (state s)),
     mkStore (self s) (world s) (set_up (state s))).
Proof.
  intros Ht Hin He.
  set (s0 := mkStore (self s) (world s) (set_up (state s))).
  assert (receive message s = (Raise e, s0)) as Hr.
  { rewrite receive_dispatch. fold s0.
    destruct message as [m|m|[|tm tms]]; try done; simpl.
    - by apply history_append_error.
    - apply bind_Raise. by apply history_append_error. }
  by rewrite (turn_receive_Raise _ _ _ _ Hr).
Qed.

Lemma tool_results_without_history_witness :
  returned_message (fst (generate_next_message tool_result no_history_store)) =
  Some (mkAssistant "assistant"
          (Some "I encountered an error: 'message_history'") None).
Proof.
  rewrite (tool_results_without_history tool_result no_history_store
             (KeyError "message_history") eq_refl ltac:(done) eq_refl).
  reflexivity.
Defined.

(** X19.  A follow-up user message handed over with a state whose
    [message_history] is missing or is not a list has already been put on
    the input sink when the append fails: the runner receives the text,
    but [generate_next_message] returns the error message of the failed
    append, with the caller's state as it was, without polling for the
    runner's answer. *)
Theorem user_message_without_history m s cs e :
  is_initialized (self s) = true →
  chat_session (self s) = Some cs →
  failure (user_message_queue cs) = None →
  history_error (set_up (state s)) = Some e →
  ∃ s',
    generate_next_message (InUser m) s =
      (Return (error_message e, set_up (state s)), s') ∧
    sink s' = Some (items (user_message_queue cs) ++ [user_content m]) ∧
    world s' = world s.
Proof.
  intros Hi Hc Hf He.
  set (s0 := mkStore (self s) (world s) (set_up (state s))).
  set (s1 := mkStore
               (with_chat_session
                  (Some (mkSession (command_trace_queue cs)
                           (command_output_queue cs)
                           (mkQueue (items (user_message_queue cs) ++
                                       [user_content m]) None)))
                  (self s))
               (world s) (set_up (state s))).
  assert (_push_user_message (user_content m) s0 = (Return tt, s1)) as Hpush.
  { unfold _push_user_message, put. simpl. by rewrite Hi, Hc, Hf. }
  assert (receive (InUser m) s = (Raise e, s1)) as Hr.
  { rewrite receive_follow_up by done. fold s0.
    rewrite (bind_Return _ _ _ _ _ Hpush). by apply history_append_error. }
  exists s1. by rewrite (turn_receive_Raise _ _ _ _ Hr).
Qed.

Lemma user_message_without_history_witness :
  ∃ s',
    generate_next_message (InUser (mkUser "hello")) no_history_store =
      (Return (error_message (KeyError "message_history"),
               set_up (state no_history_store)), s') ∧
    sink s' = Some ([] ++ ["hello"]) ∧
    world s' = world no_history_store.
Proof.
  exact (user_message_without_history (mkUser "hello") no_history_store
           new_session (KeyError "message_history")
           eq_refl eq_refl eq_refl eq_refl).
Defined.

(** X10.  When the input sink of an initialized adapter refuses the text,
    the user message is neither queued nor recorded in the history:
    [generate_next_message] returns the error message of that failure with
    the state as set up, and the adapter, its queues and the trace are
    untouched. *)
Theorem closed_sink_reported m s cs e :
  is_initialized (self s) = true →
  chat_session (self s) = Some cs →
  failure (user_message_queue cs) = Some e →
  generate_next_message (InUser m) s =
    (Return (error_message e, set_up (state s)),
     mkStore (self s) (world s) (set_up (state s))).
Proof.
  intros Hi Hc Hf.
  set (s0 := mkStore (self s) (world s) (set_up (state s))).
  assert (receive (InUser m) s = (Raise e, s0)) as Hr.
  { rewrite receive_follow_up by done. fold s0. apply bind_Raise.
    unfold _push_user_message, put. simpl. by rewrite Hi, Hc, Hf. }
  by rewrite (turn_receive_Raise _ _ _ _ Hr).
Qed.

Lemma closed_sink_reported_witness :
  returned_message
    (fst (generate_next_message (InUser (mkUser "hello")) closed_sink_store)) =
  Some (mkAssistant "assistant"
          (Some "I encountered an error: queue is shut down") None).
Proof.
  rewrite (closed_sink_reported (mkUser "hello") closed_sink_store
             (mkSession empty_queue empty_queue (mkQueue [] (Some sink_closed)))
             sink_closed eq_refl eq_refl eq_refl).
  reflexivity.
Defined.

(** X20.  Passing [None] as state is the same as passing the state
    [get_init_state] returns for no history: the two calls of
    [generate_next_message] return the same message and the same state and
    leave the adapter and its surroundings alike; and [get_init_state]
    treats an empty history as no history. *)
Theorem none_state_is_init_state message a w :
  generate_next_message message (mkStore a w None) =
  generate_next_message message (mkStore a w (Some (get_init_state None))) ∧
  get_init_state (Some []) = get_init_state None.
Proof.
  split; [|done].
  assert (turn message (mkStore a w None) =
          turn message (mkStore a w (Some (get_init_state None)))) as H.
  { unfold turn.
    change ((receive message ≫= λ _, answer) (mkStore a w None))
      with (match receive message (mkStore a w None) with
            | (Return a0, s') => answer s'
            | (Raise e, s') => (Raise e, s')
            end).
    change ((receive message ≫= λ _, answer)
              (mkStore a w (Some (get_init_state None))))
      with (match receive message (mkStore a w (Some (get_init_state None))) with
            | (Return a0, s') => answer s'
            | (Raise e, s') => (Raise e, s')
            end).
    by rewrite !receive_dispatch. }
  unfold generate_next_message, try_except. by rewrite H.
Qed.

Lemma same_sink_setup_state : preserves same_sink setup_state.
Proof. unfold setup_state. branches. Qed.

Lemma same_sink_append_tool_messages tms :
  preserves same_sink (append_tool_messages tms).
Proof.
  induction tms as [|tm tms IH]; simpl.
  - apply preserves_ret, _.
  - apply preserves_bind; [apply _|apply same_sink_history_append|done].
Qed.

Lemma tool_results_dispatch message :
  tool_results message = true →
  still (dispatch message) ∧ preserves same_sink (dispatch message).
Proof.
  destruct message as [m|m|tms]; [done|..]; intros _; simpl.
  - split; [apply still_history_append|apply same_sink_history_append].
  - split; [apply still_append_tool_messages|apply same_sink_append_tool_messages].
Qed.

Lemma same_sink_on_error e : preserves same_sink (on_error e).
Proof. unfold on_error. branches. Qed.

Lemma quiet_on_error e : preserves quiet (on_error e).
Proof. apply still_quiet. unfold on_error. branches. Qed.

Lemma same_sink_generate_tool_results message :
  tool_results message = true →
  preserves same_sink (generate_next_message message).
Proof.
  intros Ht. destruct (tool_results_dispatch message Ht) as [_ Hsink].
  unfold generate_next_message, turn, receive.
  apply preserves_try_except; [apply _| |apply same_sink_on_error].
  apply preserves_bind; [apply _| |intros _; apply same_sink_answer].
  apply preserves_bind; [apply _|apply same_sink_setup_state|done].
Qed.

Lemma quiet_generate_tool_results message :
  tool_results message = true →
  preserves quiet (generate_next_message message).
Proof.
  intros Ht. destruct (tool_results_dispatch message Ht) as [Hstill _].
  unfold generate_next_message, turn, receive.
  apply preserves_try_except; [apply _| |apply quiet_on_error].
  apply preserves_bind; [apply _| |intros _; apply quiet_answer].
  apply preserves_bind; [apply _|apply still_quiet, still_setup_state|].
  intros _. by apply still_quiet.
Qed.

(** X11.  Tool results are never forwarded to the runner: whatever the
    adapter's condition, a call of [generate_next_message] with a tool
    message or a multi-tool message leaves the input sink as it was, makes
    no initialization and no library call (the trace grows by calls of
    [time.sleep] only) and keeps the initialized flag. *)
Theorem tool_results_stay_local message s :
  tool_results message = true →
  sink (snd (generate_next_message message s)) = sink s ∧
  quiet s (snd (generate_next_message message s)).
Proof.
  intros Ht.
  destruct (generate_next_message message s) as [r s'] eqn:E. simpl.
  split.
  - by eapply (same_sink_generate_tool_results message Ht).
  - by eapply (quiet_generate_tool_results message Ht).
Qed.

Lemma tool_results_stay_local_witness :
  sink (snd (generate_next_message tool_result stopping_store)) =
    sink stopping_store ∧
  quiet stopping_store (snd (generate_next_message tool_result stopping_store)).
Proof. exact (tool_results_stay_local tool_result stopping_store eq_refl). Defined.

Lemma turn_first_sink m s :
  is_initialized (self s) = false →
  ∃ r0 s0,
    _initialize_fastworkflow (user_content m)
      (mkStore (self s) (world s) (set_up (state s))) = (r0, s0) ∧
    quiet s0 (snd (turn (InUser m) s)) ∧
    same_sink s0 (snd (turn (InUser m) s)) ∧
    (is_initialized (self (snd (turn (InUser m) s))) = true →
     r0 = Return tt ∧ is_initialized (self s0) = true ∧
     chat_session (self s0) = Some new_session ∧
     fastworkflow (self s0) = Some fastworkflow_module).
Proof.
  intros Hi.
  set (s0 := mkStore (self s) (world s) (set_up (state s))).
  destruct (_initialize_fastworkflow (user_content m) s0) as [r1 s1] eqn:E1.
  exists r1, s1. split; [done|].
  pose proof (_initialize_fastworkflow_first (user_content m) s0 _ _ Hi E1)
    as (_ & _ & _ & _ & Hr).
  destruct (turn (InUser m) s) as [r s'] eqn:E. simpl.
  unfold turn in E.
  apply bind_inv in E as [([] & s2 & H2 & H)|(e & H2 & _)];
    rewrite receive_first in H2 by done; fold s0 in H2.
  - apply bind_inv in H2 as [([] & sa & Ha & H2)|(e' & _ & ?)]; [|done].
    rewrite E1 in Ha. injection Ha as -> ->.
    destruct Hr as (Hi1 & Hc & Hf & _).
    split; [|split; [|done]].
    + apply still_history_append in H2. apply quiet_answer in H.
      transitivity s2; [by exists 0|done].
    + apply same_sink_history_append in H2. apply same_sink_answer in H.
      by transitivity s2.
  - apply bind_inv in H2 as [([] & sa & Ha & H2)|(e' & Ha & _)];
      rewrite E1 in Ha; injection Ha as -> ->.
    + destruct Hr as (Hi1 & Hc & Hf & _).
      split; [|split; [|done]].
      * apply still_history_append in H2. by exists 0.
      * by apply same_sink_history_append in H2.
    + split; [reflexivity|]. split; [reflexivity|].
      intros H. by rewrite H in Hr.
Qed.

(** X3.  The text of the message that starts the session is handed to the
    runner as start-up command only: when [generate_next_message] has
    initialized the adapter, the input sink of the new session is empty,
    so the runner does not receive the first message a second time. *)
Theorem startup_text_not_queued m s :
  is_initialized (self s) = false →
  is_initialized (self (snd (generate_next_message (InUser m) s))) = true →
  sink (snd (generate_next_message (InUser m) s)) = Some [].
Proof.
  intros Hi. rewrite generate_next_message_store. intros Hi'.
  destruct (turn_first_sink m s Hi) as (r0 & s0 & _ & _ & Hs & Hr).
  destruct (Hr Hi') as (_ & _ & Hc & _).
  unfold same_sink in Hs. rewrite Hs. unfold sink. by rewrite Hc.
Qed.

Lemma startup_text_not_queued_witness :
  sink (snd (generate_next_message cancel_request cancel_store)) = Some [].
Proof.
  apply (startup_text_not_queued (mkUser "I want to cancel order #W123")
           cancel_store eq_refl).
  vm_compute. reflexivity.
Defined.

(** ** A silent runner *)

Lemma after_poll_nil v :
  after_poll v [] [] =
  mkVars (idle_cycles v + 1) (steps_taken v + 0) (all_commands v) (all_texts v)
         (progress v ++ [false]).
Proof. reflexivity. Qed.

Lemma silent_note c s r s' : silent s → note c s = (r, s') → silent s'.
Proof. intros H [= _ <-]. exact H. Qed.

Lemma _drain_command_trace_off k s :
  is_initialized (self s) = false ∨ chat_session (self s) = None →
  _drain_command_trace k s = (Return [], s).
Proof.
  unfold _drain_command_trace. intros [->| ->]; [done|].
  by destruct (is_initialized (self s)).
Qed.

Lemma _drain_agent_outputs_off k s :
  is_initialized (self s) = false ∨ chat_session (self s) = None →
  _drain_agent_outputs k s = (Return [], s).
Proof.
  unfold _drain_agent_outputs. intros [->| ->]; [done|].
  by destruct (is_initialized (self s)).
Qed.

Lemma poll_once_off v s sa :
  runner_turn s = (Return tt, sa) →
  is_initialized (self sa) = false ∨ chat_session (self sa) = None →
  poll_once v s = (Return (after_poll v [] []), sa).
Proof.
  intros Ha Hoff. unfold poll_once.
  rewrite (bind_Return _ _ _ _ _ Ha).
  rewrite (bind_Return _ _ _ _ _ (_drain_command_trace_off 200 sa Hoff)).
  by rewrite (bind_Return _ _ _ _ _ (_drain_agent_outputs_off 200 sa Hoff)).
Qed.

Lemma silent_poll_once v s :
  silent s →
  ∃ s1, poll_once v s = (Return (after_poll v [] []), s1) ∧ silent s1.
Proof.
  intros [Hi|[Hc|(cs & Hc & Ht & Ho & Hs)]].
  - destruct (runner_turn s) as [r sa] eqn:Ea.
    assert (r = Return tt ∧ is_initialized (self sa) = false) as [-> Hia].
    { unfold runner_turn in Ea.
      destruct (chat_session (self s)), (schedule (world s));
        injection Ea as <- <-; by split. }
    exists sa. split; [|by left]. apply poll_once_off; [done|by left].
  - exists s. split; [|by right; left].
    apply poll_once_off; [|by right]. unfold runner_turn. by rewrite Hc.
  - assert (runner_turn s = (Return tt, s)) as Ha.
    { unfold runner_turn. by rewrite Hc, Hs. }
    destruct (is_initialized (self s)) eqn:Hi.
    + set (s1 := mkStore (with_chat_session (Some cs) (self s)) (world s) (state s)).
      assert (_drain_command_trace 200 s = (Return [], s1)) as H1.
      { unfold _drain_command_trace. rewrite Hi, Hc, Ht.
        unfold empty_queue. rewrite drain_trace_live.
        unfold s1. by destruct cs as [q1 q2 q3]; simpl in *; subst. }
      assert (_drain_agent_outputs 200 s1 = (Return [], s1)) as H2.
      { unfold _drain_agent_outputs. cbn [s1 self with_chat_session
          is_initialized chat_session world state]. rewrite Hi, Ho.
        unfold empty_queue. rewrite drain_outputs_live.
        unfold s1. by destruct cs as [q1 q2 q3]; simpl in *; subst. }
      exists s1. split.
      * unfold poll_once. rewrite (bind_Return _ _ _ _ _ Ha).
        rewrite (bind_Return _ _ _ _ _ H1).
        by rewrite (bind_Return _ _ _ _ _ H2).
      * right; right. by exists cs.
    + exists s. split; [|by left]. apply poll_once_off; [done|by left].
Qed.

Lemma silent_poll_loop n v s :
  silent s →
  idle_cycles v < idle_limit → idle_limit - idle_cycles v ≤ n →
  ∃ v' s',
    poll_loop n v s = (Return v', s') ∧
    all_commands v' = all_commands v ∧ all_texts v' = all_texts v ∧
    idle_cycles v' = idle_limit ∧
    steady (idle_limit - idle_cycles v - 1) s s' ∧ silent s'.
Proof.
  revert v s. induction n as [|n IH]; intros v s Hs Hlt Hn; [lia|].
  destruct (silent_poll_once v s Hs) as (s1 & H1 & Hs1).
  pose proof (still_poll_once _ _ _ _ H1) as Hst1.
  rewrite poll_loop_S, (bind_Return _ _ _ _ _ H1), after_poll_nil.
  cbn [idle_cycles].
  destruct (Nat.leb_spec idle_limit (idle_cycles v + 1)) as [Hle|Hgt].
  - eexists _, s1. split; [reflexivity|]. cbn [all_commands all_texts idle_cycles].
    split; [done|]. split; [done|]. split; [lia|]. split; [|done].
    by replace (idle_limit - idle_cycles v - 1) with 0 by lia.
  - destruct (note time_sleep s1) as [r2 s2] eqn:E2.
    pose proof (note_sleep_steady _ _ _ E2) as Hst2.
    pose proof (silent_note _ _ _ _ Hs1 E2) as Hs2.
    assert (r2 = Return tt) as -> by (by injection E2 as <- _).
    rewrite (bind_Return _ _ _ _ _ E2).
    destruct (IH (mkVars (idle_cycles v + 1) (steps_taken v + 0)
                         (all_commands v) (all_texts v) (progress v ++ [false]))
                 s2 Hs2) as (v' & s' & H & Hc & Ht & Hi & Hst & Hs');
      cbn [idle_cycles]; [lia..|].
    exists v', s'. split; [done|]. split; [done|]. split; [done|].
    split; [done|]. split; [|done].
    cbn [idle_cycles] in Hst.
    replace (idle_limit - idle_cycles v - 1)
      with (0 + 1 + (idle_limit - (idle_cycles v + 1) - 1)) by lia.
    eapply steady_trans; [|exact Hst]. by eapply steady_trans.
Qed.

Lemma idle_limit_pos : 0 < idle_limit ∧ idle_limit ≤ max_num_steps.
Proof. unfold idle_limit, max_num_steps. lia. Qed.

Lemma idle_limit_pred : idle_limit - 0 - 1 = 149.
Proof. reflexivity. Qed.

Lemma outbound_silent v :
  all_commands v = [] → all_texts v = [] → outbound v = apology_message.
Proof. apply outbound_apology. Qed.

Lemma history_error_None st :
  history_error st = None ↔ ∃ l, history_of st = Some (VList l).
Proof.
  unfold history_error, history_of. destruct st as [d|]; simpl.
  - destruct (d !! "message_history") as [[b|l]|]; split;
      try done; try (by intros [? ?]). intros _. by exists l.
  - split; [done|by intros [? ?]].
Qed.

Lemma respond_returns v s l :
  history_of (state s) = Some (VList l) →
  ∃ s', respond v s = (Return (outbound v), s').
Proof.
  intros Hl. unfold respond, outbound.
  destruct (list_truthy (all_commands v)).
  - destruct (state s) as [d|] eqn:Es; [|done].
    set (calls := _convert_commands_to_tool_calls (all_commands v)).
    set (s1 := mkStore (self s) (world s)
                 (Some (<["last_tool_calls" := VList (ItemToolCall <$> calls)]> d))).
    assert (state_setitem "last_tool_calls" (VList (ItemToolCall <$> calls)) s =
            (Return tt, s1)) as H1.
    { unfold state_setitem. by rewrite Es. }
    assert (history_of (state s1) = Some (VList l)) as Hl1.
    { assert ("last_tool_calls" ≠ "message_history") as Hne by done.
      by rewrite (state_setitem_history _ _ _ _ _ Hne H1), Es. }
    destruct (history_append_list
                (MsgAssistant (build_message
                   (if list_truthy (all_texts v) then last (all_texts v) else None)
                   (Some calls))) s1 l Hl1) as [s' H2].
    exists s'.
    rewrite (bind_Return _ _ _ _ _
               (bind_Return _ (λ _, mret (Some calls)) _ _ _ H1)).
    by rewrite (bind_Return _ _ _ _ _ H2).
  - destruct (history_append_list
                (MsgAssistant (build_message
                   (if list_truthy (all_texts v) then last (all_texts v) else None)
                   None)) s l Hl) as [s' H2].
    exists s'. unfold mbind at 1. unfold Py_bind, mret at 1, Py_ret.
    by rewrite (bind_Return _ _ _ _ _ H2).
Qed.

Lemma silent_answer s l :
  silent s → history_of (state s) = Some (VList l) →
  ∃ s',
    answer s = (Return (apology_message, state s'), s') ∧
    steady 149 s s' ∧
    grown [MsgAssistant apology_message] (state s) (state s').
Proof.
  intros Hs Hl.
  destruct (silent_poll_loop max_num_steps poll_start s Hs)
    as (v & s2 & Hp & Hc & Ht & _ & Hst & _).
  { apply idle_limit_pos. }
  { pose proof idle_limit_pos. change (idle_cycles poll_start) with 0. lia. }
  change (idle_limit - idle_cycles poll_start - 1) with 149 in Hst.
  pose proof (same_state_poll_loop _ _ _ _ _ Hp) as Hsame.
  unfold same_state in Hsame.
  destruct (respond_returns v s2 l) as [s' Hr]; [by rewrite Hsame|].
  rewrite (outbound_silent v Hc Ht) in Hr.
  exists s'. split; [|split].
  - unfold answer. rewrite (bind_Return _ _ _ _ _ Hp).
    by rewrite (bind_Return _ _ _ _ _ Hr).
  - pose proof (still_respond _ _ _ _ Hr) as H0.
    apply (steady_trans 149 0 s s2 s' Hst) in H0.
    by replace (149 + 0) with 149 in H0 by done.
  - apply respond_inv in Hr as (_ & Hg & _). by rewrite Hsame in Hg.
Qed.

(** X13.  When the polls of a turn find nothing (the adapter is not
    initialized or has no session, or the session's queues are empty and
    the runner stays inactive), [generate_next_message] gives up after
    exactly 149 calls of [time.sleep] and returns the apology; the inbound
    message and the apology are recorded in the history. *)
Theorem silent_runner_apology message s s1 :
  receive message s = (Return tt, s1) →
  silent s1 →
  history_error (set_up (state s)) = None →
  ∃ s',
    generate_next_message message s =
      (Return (apology_message, state s'), s') ∧
    trace (world s') = trace (world s1) ++ replicate 149 time_sleep ∧
    grown (inbound message ++ [MsgAssistant apology_message])
          (set_up (state s)) (state s').
Proof.
  intros Hr Hs He.
  assert (∃ l, history_of (state s1) = Some (VList l)) as [l Hl].
  { apply history_error_None in He as [l0 Hl0].
    apply receive_inv, dispatch_inv in Hr as [[_ Hr]|(l1 & _ & Hr)].
    - exists l0. simpl in Hr. by rewrite Hr.
    - by eexists. }
  destruct (silent_answer s1 l Hs Hl) as (s' & Ha & Hst & _).
  assert (turn message s = (Return (apology_message, state s'), s')) as Ht.
  { unfold turn. by rewrite (bind_Return _ _ _ _ _ Hr). }
  exists s'. split; [by apply generate_next_message_Return|].
  split; [apply Hst|]. by eapply turn_Return_grown.
Qed.

Lemma silent_runner_apology_witness :
  ∃ s',
    generate_next_message tool_result (running_store [] []) =
      (Return (apology_message, state s'), s') ∧
    trace (world s') =
      trace (world (snd (receive tool_result (running_store [] [])))) ++
      replicate 149 time_sleep ∧
    grown (inbound tool_result ++ [MsgAssistant apology_message])
          (set_up (state (running_store [] []))) (state s').
Proof.
  apply (silent_runner_apology tool_result (running_store [] [])
           (snd (receive tool_result (running_store [] [])))).
  - apply returned_inv. vm_compute. reflexivity.
  - right; right. exists new_session. vm_compute. done.
  - vm_compute. reflexivity.
Defined.

Lemma dispatch_tool_results message s l :
  tool_results message = true →
  history_of (state s) = Some (VList l) →
  ∃ s1, dispatch message s = (Return tt, s1) ∧ steady 0 s s1.
Proof.
  intros Ht Hl. destruct message as [m|m|tms]; [done|..]; simpl.
  - destruct (history_append_list (MsgTool m) s l Hl) as [s1 H1].
    exists s1. split; [done|]. by eapply still_history_append.
  - destruct (append_tool_messages_list tms s l Hl) as [s1 H1].
    exists s1. split; [done|]. by eapply still_append_tool_messages.
Qed.

(** X12.  Tool results sent to an adapter that is not initialized (before
    the first user message, after a failed start or after a reset) are
    recorded, the polls find nothing, and after 149 sleeps
    [generate_next_message] returns the apology: no session is started for
    them and no library call is made. *)
Theorem tool_results_before_start message s :
  is_initialized (self s) = false →
  tool_results message = true →
  history_error (set_up (state s)) = None →
  ∃ s',
    generate_next_message message s =
      (Return (apology_message, state s'), s') ∧
    trace (world s') = trace (world s) ++ replicate 149 time_sleep ∧
    is_initialized (self s') = false ∧
    grown (inbound message ++ [MsgAssistant apology_message])
          (set_up (state s)) (state s').
Proof.
  intros Hi Ht He.
  apply history_error_None in He as [l Hl].
  destruct (dispatch_tool_results message
              (mkStore (self s) (world s) (set_up (state s))) l Ht Hl)
    as (s1 & H1 & Hst1).
  assert (receive message s = (Return tt, s1)) as Hr
    by (by rewrite receive_dispatch).
  assert (is_initialized (self s1) = false) as Hi1.
  { destruct Hst1 as [-> _]. done. }
  assert (∃ l1, history_of (state s1) = Some (VList l1)) as [l1 Hl1].
  { apply dispatch_inv in H1 as [[_ H1]|(l1 & _ & H1)].
    - exists l. by rewrite H1.
    - by eexists. }
  destruct (silent_answer s1 l1 (or_introl Hi1) Hl1) as (s' & Ha & Hst & _).
  assert (turn message s = (Return (apology_message, state s'), s')) as Hturn.
  { unfold turn. by rewrite (bind_Return _ _ _ _ _ Hr). }
  exists s'. split; [|split; [|split]].
  - by apply generate_next_message_Return.
  - destruct Hst1 as (_ & _ & _ & _ & E1). destruct Hst as (_ & _ & _ & _ & E2).
    simpl in E1. rewrite app_nil_r in E1. by rewrite E2, E1.
  - destruct Hst as [-> _]. done.
  - by eapply turn_Return_grown.
Qed.

Lemma tool_results_before_start_witness :
  ∃ s',
    generate_next_message tool_result after_failed_start =
      (Return (apology_message, state s'), s') ∧
    trace (world s') =
      trace (world after_failed_start) ++ replicate 149 time_sleep ∧
    is_initialized (self s') = false ∧
    grown (inbound tool_result ++ [MsgAssistant apology_message])
          (set_up (state after_failed_start)) (state s').
Proof.
  apply (tool_results_before_start tool_result after_failed_start).
  - vm_compute. reflexivity.
  - reflexivity.
  - vm_compute. reflexivity.
Defined.

(** ** Where a stop signal can come from *)

Lemma returned_message_inv {B : Type}
    (x : result (AssistantMessage * B) * Store) msg :
  returned_message (fst x) = Some msg →
  ∃ b, x = (Return (msg, b), snd x).
Proof.
  destruct x as [[[m b]|e] s]; simpl; [|done]. intros [= ->]. by exists b.
Qed.

Lemma nil_or_not {A : Type} (l : list A) : l = [] ∨ l ≠ [].
Proof. destruct l; [by left|by right]. Qed.

(** X24.  A message returned by [generate_next_message] is a stop signal
    only if it carries no action calls and its text comes from the runner
    or from a failure: either no record was collected and the last
    utterance collected from the runner contains [###STOP###], or the turn
    failed and the text of the exception contains it.  The apology is
    never a stop signal. *)
Theorem stop_signal_origin message s msg st s' :
  generate_next_message message s = (Return (msg, st), s') →
  is_stop msg = true →
  tool_calls msg = None ∧
  msg ≠ apology_message ∧
  ((∃ e s0, turn message s = (Raise e, s0) ∧ msg = error_message e ∧
            contains "###STOP###" (str e) = true) ∨
   (∃ s1 s2 v t,
      receive message s = (Return tt, s1) ∧
      poll_loop max_num_steps poll_start s1 = (Return v, s2) ∧
      all_commands v = [] ∧ last (all_texts v) = Some t ∧
      content msg = Some t ∧ contains "###STOP###" t = true)).
Proof.
  intros H Hstop.
  assert (msg ≠ apology_message) as Hna.
  { intros ->. by rewrite is_stop_apology in Hstop. }
  destruct (turn message s) as [[[m0 st0]|e] s0] eqn:E.
  - rewrite (generate_next_message_Return _ _ _ _ E) in H.
    injection H as -> -> ->.
    apply turn_Return_batch in E as (s1 & s2 & v & Hr & Hp & Htr & ->).
    destruct (nil_or_not (all_commands v)) as [Ec|Ec].
    + destruct (nil_or_not (all_texts v)) as [Et|Et].
      * by rewrite (outbound_silent v Ec Et) in Hna.
      * destruct (outbound_content v Htr Ec Et) as (t & Hl & Ho).
        rewrite Ho in Hstop, Hna |- *. split; [done|]. split; [done|]. right.
        exists s1, s2, v, t. repeat split; try done.
        unfold is_stop in Hstop. simpl in Hstop.
        by apply andb_true_iff in Hstop as [_ ?].
    + by rewrite (outbound_tool_calls v Ec) in Hstop.
  - rewrite (generate_next_message_Raise _ _ _ _ E) in H.
    injection H as <- _ _.
    split; [done|]. split; [done|]. left. exists e, s0.
    split; [done|]. split; [done|]. by rewrite <- is_stop_error_message.
Qed.

Lemma stop_signal_origin_witness :
  tool_calls (mkAssistant "assistant" (Some goodbye) None) = None ∧
  mkAssistant "assistant" (Some goodbye) None ≠ apology_message ∧
  ((∃ e s0, turn tool_result goodbye_store = (Raise e, s0) ∧
            mkAssistant "assistant" (Some goodbye) None = error_message e ∧
            contains "###STOP###" (str e) = true) ∨
   (∃ s1 s2 v t,
      receive tool_result goodbye_store = (Return tt, s1) ∧
      poll_loop max_num_steps poll_start s1 = (Return v, s2) ∧
      all_commands v = [] ∧ last (all_texts v) = Some t ∧
      content (mkAssistant "assistant" (Some goodbye) None) = Some t ∧
      contains "###STOP###" t = true)).
Proof.
  destruct (returned_message_inv
              (generate_next_message tool_result goodbye_store)
              (mkAssistant "assistant" (Some goodbye) None))
    as [st H]; [vm_compute; reflexivity|].
  apply (stop_signal_origin _ _ _ _ _ H). vm_compute. reflexivity.
Defined.

(** ** How much a turn can collect *)

Lemma poll_loop_batch n v s v' s' :
  poll_loop n v s = (Return v', s') →
  length (all_commands v') ≤ length (all_commands v) + 200 * n ∧
  length (all_texts v') ≤ length (all_texts v) + 200 * n.
Proof.
  revert v s. induction n as [|n IH]; intros v s.
  - intros [= <- _]. lia.
  - rewrite poll_loop_S. intros H.
    apply bind_inv in H as [(v1 & s1 & H1 & H)|(e & _ & ?)]; [|done].
    apply poll_once_Return in H1 as (commands & texts & sa & sb & _ & Hc & Ht & ->).
    apply _drain_command_trace_length in Hc.
    apply _drain_agent_outputs_length in Ht.
    assert (length (all_commands v') ≤
              length (all_commands (after_poll v commands texts)) + 200 * n ∧
            length (all_texts v') ≤
              length (all_texts (after_poll v commands texts)) + 200 * n)
      as [G1 G2].
    { destruct (idle_limit <=? idle_cycles (after_poll v commands texts))%nat.
      - unfold mret, Py_ret in H. injection H as <- _. lia.
      - apply bind_inv in H as [([] & s2 & _ & H)|(e & _ & ?)]; [|done].
        by apply IH in H. }
    rewrite after_poll_all_commands, length_app in G1.
    rewrite after_poll_all_texts, length_app in G2. lia.
Qed.

(** X15.  The batch of one turn is bounded: the action calls of a
    returned message are at least one and at most 200 for each of the
    5000 iterations of the loop, however fast the runner produces
    records. *)
Theorem tool_calls_bounded message s msg st s' calls :
  generate_next_message message s = (Return (msg, st), s') →
  tool_calls msg = Some calls →
  0 < length calls ∧ length calls ≤ 200 * max_num_steps.
Proof.
  intros H Hc.
  destruct (turn message s) as [[[m0 st0]|e] s0] eqn:E.
  - rewrite (generate_next_message_Return _ _ _ _ E) in H.
    injection H as -> -> ->.
    apply turn_Return_batch in E as (s1 & s2 & v & _ & Hp & Htr & ->).
    apply poll_loop_batch in Hp as [Hp _]. change (length (all_commands poll_start)) with 0 in Hp.
    destruct (nil_or_not (all_commands v)) as [Ec|Ec].
    + destruct (nil_or_not (all_texts v)) as [Et|Et].
      * by rewrite (outbound_silent v Ec Et) in Hc.
      * destruct (outbound_content v Htr Ec Et) as (t & _ & Ho).
        by rewrite Ho in Hc.
    + rewrite (outbound_tool_calls v Ec) in Hc.
      injection Hc as <-. rewrite _convert_length.
      split; [|lia]. destruct (all_commands v); [done|simpl; lia].
  - rewrite (generate_next_message_Raise _ _ _ _ E) in H.
    by injection H as <- _ _.
Qed.

Lemma tool_calls_bounded_witness :
  0 < length [cancel_call] ∧ length [cancel_call] ≤ 200 * max_num_steps.
Proof.
  destruct (returned_message_inv
              (generate_next_message cancel_request cancel_store)
              (mkAssistant "assistant" None (Some [cancel_call])))
    as [st H]; [vm_compute; reflexivity|].
  exact (tool_calls_bounded _ _ _ _ _ [cancel_call] H eq_refl).
Defined.

(** ** Workflows started during an adapter's life *)

Global Instance launches_preorder P : PreOrder (launches P).
Proof.
  split.
  - intros s. split; [done|]. exists []. split; [by rewrite app_nil_r|].
    intros p c H. by apply elem_of_nil in H.
  - intros s s1 s2 (H1 & n1 & T1 & A1) (H2 & n2 & T2 & A2).
    split; [congruence|]. exists (n1 ++ n2).
    split; [by rewrite T2, T1, app_assoc|].
    intros p c [H|H]%elem_of_app; [by apply A1|].
    rewrite <- H1. by apply A2.
Qed.

Lemma launches_impl (P Q : string → Prop) s s' :
  (∀ c, P c → Q c) → launches P s s' → launches Q s s'.
Proof.
  intros HPQ (H1 & new & T & A). split; [done|]. exists new. split; [done|].
  intros p c H. destruct (A p c H) as [? ?]. split; [done|by apply HPQ].
Qed.

Lemma quiet_launches P s s' : quiet s s' → launches P s s'.
Proof.
  intros (k & _ & _ & Hp & _ & Ht). split; [done|].
  exists (replicate k time_sleep). split; [done|].
  intros p c H. by apply elem_of_replicate in H as [? _].
Qed.

Lemma launches_note P c :
  (∀ p t, c ≠ start_workflow p t) → preserves (launches P) (note c).
Proof.
  intros Hc s r s' [= _ <-]. split; [done|]. exists [c]. split; [done|].
  intros p t H. apply list_elem_of_singleton in H. by destruct (Hc p t).
Qed.

Lemma launches_lib_call (P : string → Prop) c s r s' :
  (∀ p t, c = start_workflow p t → p = workflow_path (self s) ∧ P t) →
  lib_call c s = (r, s') → launches P s s'.
Proof.
  intros Hc H.
  assert (s' = mkStore (self s)
                 (mkWorld (tail (faults (world s))) (schedule (world s))
                          (trace (world s) ++ [c]))
                 (state s)) as ->.
  { unfold lib_call in H. by destruct (faults (world s)) as [|[e|] f];
      injection H as _ <-. }
  split; [done|]. exists [c]. split; [done|].
  intros p t H1. apply list_elem_of_singleton in H1. by apply Hc.
Qed.

Lemma launches_modify_self P f :
  (∀ a, workflow_path (f a) = workflow_path a) →
  preserves (launches P) (modify_self f).
Proof.
  intros Hf s r s' [= _ <-]. split; [apply Hf|]. exists [].
  split; [by rewrite app_nil_r|]. intros p c H. by apply elem_of_nil in H.
Qed.

Lemma _initialize_fastworkflow_launches t :
  preserves (launches (λ c, c = t ∧ str_truthy t = true))
            (_initialize_fastworkflow t).
Proof.
  set (P := λ c, c = t ∧ str_truthy t = true).
  assert (∀ c, (∀ p u, c ≠ start_workflow p u) →
               preserves (launches P) (lib_call c)) as Hlib.
  { intros c Hc s r s' H. eapply launches_lib_call; [|exact H].
    intros p u ->. by destruct (Hc p u). }
  unfold _initialize_fastworkflow.
  apply preserves_bind; [apply _|apply preserves_get_self, _|]. intros a.
  destruct (is_initialized a); [apply preserves_ret, _|].
  apply preserves_bind; [apply _|by apply launches_note|]. intros _.
  apply preserves_try_except; [apply _| |intros e; apply preserves_raise, _].
  apply preserves_bind; [apply _|by apply Hlib|]. intros _.
  apply preserves_bind; [apply _|by apply launches_modify_self|]. intros _.
  apply preserves_bind; [apply _|by apply Hlib|]. intros _.
  apply preserves_bind; [apply _|apply preserves_suppress; [apply _|by apply Hlib]|].
  intros _.
  apply preserves_bind; [apply _|by apply Hlib|]. intros _.
  apply preserves_bind; [apply _|by apply launches_modify_self|]. intros _.
  apply preserves_bind; [apply _| |intros _; by apply launches_modify_self].
  destruct (str_truthy t) eqn:Et; [|apply preserves_ret, _].
  intros s r s' H. unfold mbind, Py_bind, get_self in H.
  eapply launches_lib_call; [|exact H].
  by intros p u [= -> ->].
Qed.

Lemma turn_launches message s :
  launches (λ c, message = InUser (mkUser c) ∧ c ≠ "") s (snd (turn message s)).
Proof.
  destruct (is_initialized (self s)) eqn:Hi.
  { by apply quiet_launches, turn_initialized_quiet. }
  destruct message as [m|m|tms].
  - destruct (turn_first m s Hi) as (r0 & s0 & H0 & Hq & _).
    apply _initialize_fastworkflow_launches in H0.
    transitivity s0; [|by apply quiet_launches].
    transitivity (mkStore (self s) (world s) (set_up (state s)));
      [apply quiet_launches, quiet_setup|].
    eapply launches_impl; [|exact H0].
    intros c [Hc Ht]. subst c. destruct m as [c]. simpl in *.
    split; [done|]. intros E. by rewrite E in Ht.
  - apply quiet_launches. rewrite <- generate_next_message_store.
    destruct (generate_next_message (InTool m) s) as [r s'] eqn:E.
    by eapply (quiet_generate_tool_results (InTool m)).
  - apply quiet_launches. rewrite <- generate_next_message_store.
    destruct (generate_next_message (InMultiTool tms) s) as [r s'] eqn:E.
    by eapply (quiet_generate_tool_results (InMultiTool tms)).
Qed.

Lemma reset_cases s :
  fst (reset s) = Return tt ∧
  is_initialized (self (snd (reset s))) = false ∧
  workflow_path (self (snd (reset s))) = workflow_path (self s) ∧
  fastworkflow (self (snd (reset s))) = fastworkflow (self s) ∧
  state (snd (reset s)) = state s ∧
  schedule (world (snd (reset s))) = schedule (world s) ∧
  ((trace (world (snd (reset s))) = trace (world s) ∧
    faults (world (snd (reset s))) = faults (world s)) ∨
   (trace (world (snd (reset s))) = trace (world s) ++ [clear_workflow_stack] ∧
    faults (world (snd (reset s))) = tail (faults (world s)))).
Proof.
  destruct s as [[p fw cs i] [f sch tr] st].
  destruct i, cs as [cs|], fw as [fw|], f as [|[e|] f];
    cbn; repeat split; auto.
Qed.

Lemma reset_launches P s : launches P s (snd (reset s)).
Proof.
  destruct (reset_cases s) as (_ & _ & Hp & _ & _ & _ & [[Ht _]|[Ht _]]);
    (split; [done|]).
  - exists []. split; [by rewrite app_nil_r|].
    intros p c H. by apply elem_of_nil in H.
  - exists [clear_workflow_stack]. split; [done|].
    intros p c H. by apply list_elem_of_singleton in H.
Qed.

Lemma invoke_launches inv s : launches (λ c, c ≠ "") s (invoke inv s).
Proof.
  destruct inv as [message| |message|h]; simpl.
  - rewrite generate_next_message_store.
    eapply launches_impl; [|apply turn_launches]. by intros c [_ ?].
  - apply reset_launches.
  - apply reset_launches.
  - split; [done|]. exists []. split; [by rewrite app_nil_r|].
    intros p c H. by apply elem_of_nil in H.
Qed.

Lemma run_launches invs s : launches (λ c, c ≠ "") s (run invs s).
Proof.
  revert s. induction invs as [|inv invs IH]; intros s; simpl.
  - reflexivity.
  - transitivity (invoke inv s); [apply invoke_launches|apply IH].
Qed.

(** ** The constructor *)

Lemma string_app_assoc' (a b c : string) : (a +:+ b) +:+ c = a +:+ (b +:+ c).
Proof.
  induction a as [|x a IH]; [done|].
  change (String x ((a +:+ b) +:+ c) = String x (a +:+ (b +:+ c))).
  by rewrite IH.
Qed.

Lemma ends_with_sep_app a b :
  b ≠ "" → ends_with_sep (a +:+ b) = ends_with_sep b.
Proof.
  intros Hb. induction a as [|c a IH]; [done|].
  change (String c a +:+ b) with (String c (a +:+ b)).
  destruct (a +:+ b) as [|d r] eqn:E.
  - destruct a; simpl in E; [by subst|done].
  - by rewrite <- IH.
Qed.

Lemma is_prefix_sep_app wt b :
  is_prefix "/" b = false → is_prefix "/" wt = false →
  is_prefix "/" (wt +:+ b) = false.
Proof. destruct wt; simpl; [done|]. by intros _. Qed.

Lemma path_join_examples cwd wt :
  str_truthy cwd = true → ends_with_sep cwd = false →
  is_prefix "/" wt = false →
  path_join cwd ["examples"; wt +:+ "_workflow"] =
  cwd +:+ "/examples/" +:+ wt +:+ "_workflow".
Proof.
  intros Hc He Hw. unfold path_join. cbn [foldl].
  assert (join_step cwd "examples" = cwd +:+ "/examples") as ->.
  { unfold join_step. change (is_prefix "/" "examples") with false.
    cbv iota. by rewrite Hc, He. }
  unfold join_step.
  rewrite (is_prefix_sep_app wt "_workflow" eq_refl Hw).
  rewrite (str_truthy_app cwd "/examples" Hc).
  rewrite (ends_with_sep_app cwd "/examples") by done.
  change (ends_with_sep "/examples") with false. cbv iota beta.
  change (negb true || false) with false. cbv iota.
  by rewrite string_app_assoc'.
Qed.

Lemma __init___Return fs workflow_type a :
  __init__ fs workflow_type = Return a →
  a = fresh_adapter (workflow_path a) ∧
  workflow_path a =
    path_join (getcwd fs) ["examples"; workflow_type +:+ "_workflow"] ∧
  path_exists fs (workflow_path a) = true.
Proof.
  unfold __init__, _find_workflow_path.
  destruct (path_exists fs _) eqn:E; [|done]. by intros [= <-].
Qed.

(** X1.  An adapter the constructor returns is uninitialized, without
    module and session, and its workflow path existed at construction
    time; with a working directory that is not empty and does not end in
    a separator, and a workflow type that does not start with one, the
    path is [<cwd>/examples/<type>_workflow].  Through any sequence of
    calls of [generate_next_message], [reset], [stop] and
    [get_init_state] the path stays the same, and every workflow started
    is started on that path, with a start-up command that is not empty. *)
Theorem constructed_path_is_used fs workflow_type a w st invs :
  __init__ fs workflow_type = Return a →
  is_initialized a = false ∧ chat_session a = None ∧ fastworkflow a = None ∧
  path_exists fs (workflow_path a) = true ∧
  (str_truthy (getcwd fs) = true → ends_with_sep (getcwd fs) = false →
   is_prefix "/" workflow_type = false →
   workflow_path a =
     getcwd fs +:+ "/examples/" +:+ workflow_type +:+ "_workflow") ∧
  workflow_path (self (run invs (mkStore a w st))) = workflow_path a ∧
  ∃ new,
    trace (world (run invs (mkStore a w st))) = trace w ++ new ∧
    ∀ p c, start_workflow p c ∈ new → p = workflow_path a ∧ c ≠ "".
Proof.
  intros H. apply __init___Return in H as (Ha & Hp & He).
  split; [by rewrite Ha|]. split; [by rewrite Ha|]. split; [by rewrite Ha|].
  split; [done|]. split.
  { intros H1 H2 H3. rewrite Hp. by apply path_join_examples. }
  apply (run_launches invs (mkStore a w st)).
Qed.

Lemma constructed_path_is_used_witness :
  is_initialized (fresh_adapter "/home/user/bench/examples/retail_workflow") =
    false ∧
  path_exists home "/home/user/bench/examples/retail_workflow" = true ∧
  ∃ new,
    trace (world (run [Generate cancel_request; ResetAdapter]
                      (mkStore
                         (fresh_adapter "/home/user/bench/examples/retail_workflow")
                         cancel_world None))) =
      trace cancel_world ++ new ∧
    ∀ p c, start_workflow p c ∈ new →
           p = "/home/user/bench/examples/retail_workflow" ∧ c ≠ "".
Proof.
  destruct (constructed_path_is_used home "retail"
              (fresh_adapter "/home/user/bench/examples/retail_workflow")
              cancel_world None [Generate cancel_request; ResetAdapter])
    as (H1 & _ & _ & H2 & _ & _ & H3).
  - vm_compute. reflexivity.
  - split; [exact H1|]. split; [exact H2|exact H3].
Defined.

(** ** Initialization over an adapter's life *)

Lemma _initialize_fastworkflow_reliable t s :
  is_initialized (self s) = false → faults (world s) = [] →
  ∃ s', _initialize_fastworkflow t s = (Return tt, s') ∧
        faults (world s') = [] ∧ is_initialized (self s') = true.
Proof.
  destruct s as [[p fw cs i] [f sch tr] st]. simpl. intros -> ->.
  unfold _initialize_fastworkflow. destruct (str_truthy t) eqn:Et;
    unfold mbind, Py_bind, get_self, note, try_except, suppress, lib_call,
      modify_self, mret, Py_ret, raise; cbn;
    (eexists; split; [reflexivity|]; split; reflexivity).
Qed.

Lemma quiet_faults s s' : quiet s s' → faults (world s') = faults (world s).
Proof. by intros (k & _ & _ & _ & H & _). Qed.

Lemma generate_quiet message s :
  is_initialized (self s) = true ∨ tool_results message = true →
  quiet s (snd (generate_next_message message s)).
Proof.
  intros [Hi|Ht].
  - rewrite generate_next_message_store. by apply turn_initialized_quiet.
  - destruct (generate_next_message message s) as [r s'] eqn:E.
    by eapply (quiet_generate_tool_results message Ht).
Qed.

Lemma generate_first_reliable m s :
  is_initialized (self s) = false → faults (world s) = [] →
  is_initialized (self (snd (generate_next_message (InUser m) s))) = true ∧
  faults (world (snd (generate_next_message (InUser m) s))) = [] ∧
  initialize_calls (trace (world (snd (generate_next_message (InUser m) s)))) =
    initialize_calls (trace (world s)) ++ [user_content m].
Proof.
  intros Hi Hf. rewrite generate_next_message_store.
  destruct (turn_first_sink m s Hi) as (r0 & s0 & H0 & Hq & _ & _).
  destruct (_initialize_fastworkflow_reliable (user_content m)
              (mkStore (self s) (world s) (set_up (state s))) Hi Hf)
    as (s0' & H0' & Hf0 & Hi0).
  rewrite H0' in H0. injection H0 as <- <-.
  apply _initialize_fastworkflow_first in H0' as (_ & _ & Hc & _); [|done].
  rewrite (quiet_is_initialized _ _ Hq), (quiet_faults _ _ Hq),
    (quiet_initialize_calls _ _ Hq).
  done.
Qed.

Lemma invoke_reliable inv s :
  faults (world s) = [] →
  faults (world (invoke inv s)) = [] ∧
  initialize_calls (trace (world (invoke inv s))) ++
    expected_initializations (is_initialized (self (invoke inv s))) [] =
  initialize_calls (trace (world s)) ++
    expected_initializations (is_initialized (self s)) [inv] ∧
  ∀ rest,
    expected_initializations (is_initialized (self s)) (inv :: rest) =
    expected_initializations (is_initialized (self s)) [inv] ++
    expected_initializations (is_initialized (self (invoke inv s))) rest.
Proof.
  intros Hf. destruct inv as [message| |message|h]; cbn [invoke].
  - destruct (is_initialized (self s)) eqn:Hi.
    + pose proof (generate_quiet message s (or_introl Hi)) as Hq.
      rewrite (quiet_faults _ _ Hq), (quiet_initialize_calls _ _ Hq),
        (quiet_is_initialized _ _ Hq), Hi.
      by destruct message.
    + destruct message as [m|m|tms].
      * destruct (generate_first_reliable m s Hi Hf) as (-> & -> & ->).
        simpl. by rewrite app_nil_r.
      * pose proof (generate_quiet (InTool m) s (or_intror eq_refl)) as Hq.
        by rewrite (quiet_faults _ _ Hq), (quiet_initialize_calls _ _ Hq),
          (quiet_is_initialized _ _ Hq), Hi.
      * pose proof (generate_quiet (InMultiTool tms) s (or_intror eq_refl)) as Hq.
        by rewrite (quiet_faults _ _ Hq), (quiet_initialize_calls _ _ Hq),
          (quiet_is_initialized _ _ Hq), Hi.
  - destruct (reset_cases s) as (_ & -> & _ & _ & _ & _ & [[-> ->]|[-> ->]]);
      rewrite ?Hf, ?initialize_calls_app; simpl; rewrite ?app_nil_r; done.
  - unfold stop.
    destruct (reset_cases s) as (_ & -> & _ & _ & _ & _ & [[-> ->]|[-> ->]]);
      rewrite ?Hf, ?initialize_calls_app; simpl; rewrite ?app_nil_r; done.
  - simpl. done.
Qed.

(** X5.  With a library that does not fail, the initialization calls of
    an adapter's life are exactly the user messages that find the adapter
    uninitialized, each with its own text: the first user message, and
    the first one after every [reset] or [stop]; tool results never
    initialize, and between two resets there is at most one
    initialization. *)
Theorem initializations_of_a_life invs s :
  faults (world s) = [] →
  initialize_calls (trace (world (run invs s))) =
  initialize_calls (trace (world s)) ++
  expected_initializations (is_initialized (self s)) invs.
Proof.
  revert s. induction invs as [|inv invs IH]; intros s Hf.
  - simpl. by rewrite app_nil_r.
  - destruct (invoke_reliable inv s Hf) as (Hf' & H1 & H2).
    change (run (inv :: invs) s) with (run invs (invoke inv s)).
    rewrite (IH _ Hf'), H2, app_assoc, <- H1.
    simpl. by rewrite app_nil_r.
Qed.

Lemma initializations_of_a_life_witness :
  initialize_calls
    (trace (world (run [Generate cancel_request; Generate tool_result;
                        Generate (InUser (mkUser "and order #W456"));
                        ResetAdapter; Generate tool_result;
                        Generate (InUser (mkUser "hello"))]
                       cancel_store))) =
  initialize_calls (trace (world cancel_store)) ++
  ["I want to cancel order #W123"; "hello"].
Proof.
  exact (initializations_of_a_life
           [Generate cancel_request; Generate tool_result;
            Generate (InUser (mkUser "and order #W456"));
            ResetAdapter; Generate tool_result;
            Generate (InUser (mkUser "hello"))]
           cancel_store eq_refl).
Defined.

(** ** The session of an initialized adapter *)

Global Instance session_kept_preorder : PreOrder session_kept.
Proof.
  split; unfold session_kept.
  - by intros s.
  - intros s s1 s2 H1 H2 H. by apply H2, H1.
Qed.

Lemma same_sink_session_kept {A : Type} (m : Py A) :
  preserves same_sink m → preserves session_kept m.
Proof.
  intros Hm s r s' E. specialize (Hm s r s' E).
  unfold same_sink, sink, session_kept in *.
  by destruct (chat_session (self s)), (chat_session (self s')).
Qed.

Lemma session_kept__push_user_message t :
  preserves session_kept (_push_user_message t).
Proof.
  intros s r s'. unfold _push_user_message, session_kept.
  destruct (is_initialized (self s)); [|by intros [= _ <-]].
  destruct (chat_session (self s)) as [cs|] eqn:Ec; [|by intros [= _ <-]].
  destruct (put t (user_message_queue cs)); intros [= _ <-]; simpl;
    rewrite ?Ec; done.
Qed.

Lemma session_kept_dispatch_initialized message s :
  is_initialized (self s) = true →
  ∀ r s', dispatch message s = (r, s') → session_kept s s'.
Proof.
  intros Hi r s'. destruct message as [m|m|tms].
  - rewrite dispatch_follow_up by done. revert s r s' Hi.
    assert (preserves session_kept
              (_push_user_message (user_content m);;
               history_append (MsgUser m))) as H; [|by intros; eapply H].
    apply preserves_bind; [apply _|apply session_kept__push_user_message|].
    intros _. apply same_sink_session_kept, same_sink_history_append.
  - by apply same_sink_session_kept, same_sink_history_append.
  - by apply same_sink_session_kept, same_sink_append_tool_messages.
Qed.

Lemma session_kept_generate_initialized message s :
  is_initialized (self s) = true →
  session_kept s (snd (generate_next_message message s)).
Proof.
  intros Hi. rewrite generate_next_message_store.
  destruct (turn message s) as [r s'] eqn:E. simpl. unfold turn in E.
  apply bind_inv in E as [([] & s1 & H1 & H)|(e & H1 & _)];
    apply receive_inv, session_kept_dispatch_initialized in H1; try done.
  apply (same_sink_session_kept _ same_sink_answer) in H.
  unfold session_kept in *. simpl in *. auto.
Qed.

Lemma generate_coherent message s :
  coherent (self s) → coherent (self (snd (generate_next_message message s))).
Proof.
  intros Hco. destruct (is_initialized (self s)) eqn:Hi.
  - destruct (Hco Hi) as [Hf Hc].
    pose proof (generate_quiet message s (or_introl Hi)) as (k & _ & Hf' & _).
    pose proof (session_kept_generate_initialized message s Hi Hc) as Hc'.
    intros _. by rewrite Hf'.
  - destruct message as [m|m|tms].
    + rewrite generate_next_message_store. intros Hi'.
      destruct (turn_first_sink m s Hi) as (r0 & s0 & _ & Hq & Hs & Hr).
      destruct (Hr Hi') as (_ & _ & Hc & Hf).
      destruct Hq as (k & _ & Hf' & _). rewrite Hf'. split; [done|].
      unfold same_sink, sink in Hs. rewrite Hc in Hs. simpl in Hs.
      by destruct (chat_session (self (snd (turn (InUser m) s)))).
    + pose proof (generate_quiet (InTool m) s (or_intror eq_refl)) as Hq.
      intros H. by rewrite (quiet_is_initialized _ _ Hq), Hi in H.
    + pose proof (generate_quiet (InMultiTool tms) s (or_intror eq_refl)) as Hq.
      intros H. by rewrite (quiet_is_initialized _ _ Hq), Hi in H.
Qed.

Lemma invoke_coherent inv s : coherent (self s) → coherent (self (invoke inv s)).
Proof.
  destruct inv as [message| |message|h]; cbn [invoke].
  - apply generate_coherent.
  - intros _ H. destruct (reset_cases s) as (_ & H' & _). by rewrite H' in H.
  - intros _ H. unfold stop in H.
    destruct (reset_cases s) as (_ & H' & _). by rewrite H' in H.
  - done.
Qed.

Lemma run_coherent invs s : coherent (self s) → coherent (self (run invs s)).
Proof.
  revert s. induction invs as [|inv invs IH]; intros s H; [done|].
  change (run (inv :: invs) s) with (run invs (invoke inv s)).
  by apply IH, invoke_coherent.
Qed.

(** X6.  On an adapter that started uninitialized, whatever calls were made
    since, an initialized adapter holds the module and a session: a user
    message that arrives then is never dropped silently.  It is put on the
    input sink of that session behind the texts already waiting there,
    unless the sink itself refuses it. *)
Theorem user_message_never_dropped path w st invs m :
  is_initialized
    (self (run invs (mkStore (fresh_adapter path) w st))) = true →
  ∃ cs,
    chat_session (self (run invs (mkStore (fresh_adapter path) w st))) =
      Some cs ∧
    fastworkflow (self (run invs (mkStore (fresh_adapter path) w st))) =
      Some fastworkflow_module ∧
    (failure (user_message_queue cs) = None →
     sink (snd (generate_next_message (InUser m)
                  (run invs (mkStore (fresh_adapter path) w st)))) =
       Some (items (user_message_queue cs) ++ [user_content m])).
Proof.
  set (s := run invs (mkStore (fresh_adapter path) w st)). intros Hi.
  assert (coherent (self s)) as Hco by (by apply run_coherent).
  destruct (Hco Hi) as [Hf [cs Hc]]. exists cs. split; [done|]. split; [done|].
  intros Hfail. rewrite generate_next_message_store.
  by apply turn_follow_up_sink.
Qed.

Lemma user_message_never_dropped_witness :
  ∃ cs,
    chat_session
      (self (run [Generate tool_result; ResetAdapter; Generate cancel_request]
                 (mkStore (fresh_adapter retail) cancel_world None))) =
      Some cs ∧
    fastworkflow
      (self (run [Generate tool_result; ResetAdapter; Generate cancel_request]
                 (mkStore (fresh_adapter retail) cancel_world None))) =
      Some fastworkflow_module ∧
    (failure (user_message_queue cs) = None →
     sink (snd (generate_next_message (InUser (mkUser "hello"))
                  (run [Generate tool_result; ResetAdapter; Generate cancel_request]
                       (mkStore (fresh_adapter retail) cancel_world None)))) =
       Some (items (user_message_queue cs) ++ ["hello"])).
Proof.
  apply (user_message_never_dropped retail cancel_world None
           [Generate tool_result; ResetAdapter; Generate cancel_request]
           (mkUser "hello")).
  vm_compute. reflexivity.
Defined.

(** ** Failures of [clear_workflow_stack] *)

(** X22.  When [clear_workflow_stack] raises during [reset] (or [stop]),
    the exception is swallowed and the adapter is marked uninitialized,
    but the session handle is not cleared: the statement that clears it
    sits behind the failed call in the same suppressed block. *)
Theorem reset_keeps_session_when_clear_fails s cs e rest :
  is_initialized (self s) = true →
  chat_session (self s) = Some cs →
  fastworkflow (self s) = Some fastworkflow_module →
  faults (world s) = Some e :: rest →
  ∃ s',
    reset s = (Return tt, s') ∧
    is_initialized (self s') = false ∧
    chat_session (self s') = Some cs ∧
    trace (world s') = trace (world s) ++ [clear_workflow_stack] ∧
    faults (world s') = rest.
Proof.
  destruct s as [[p fw c i] [f sch tr] st]. simpl.
  intros -> -> -> ->. eexists. split; [reflexivity|]. done.
Qed.

Lemma reset_keeps_session_when_clear_fails_witness :
  ∃ s',
    reset failing_reset_store = (Return tt, s') ∧
    is_initialized (self s') = false ∧
    chat_session (self s') = Some new_session ∧
    trace (world s') =
      trace (world failing_reset_store) ++ [clear_workflow_stack] ∧
    faults (world s') = [].
Proof.
  exact (reset_keeps_session_when_clear_fails failing_reset_store new_session
           stack_error [] eq_refl eq_refl eq_refl eq_refl).
Defined.

Lemma _initialize_fastworkflow_clear_fails t s e rest :
  is_initialized (self s) = false →
  faults (world s) = None :: None :: Some e :: rest →
  (∀ f, f ∈ take 2 rest → f = None) →
  ∃ s', _initialize_fastworkflow t s = (Return tt, s') ∧
        is_initialized (self s') = true ∧
        clear_workflow_stack ∈ trace (world s').
Proof.
  destruct s as [[p fw cs i] [f sch tr] st]. simpl. intros -> -> Hrest.
  assert (rest = [] ∨ (∃ r, rest = None :: r ∧ (r = [] ∨ ∃ r', r = None :: r')))
    as Hcases.
  { destruct rest as [|f1 [|f2 r']].
    - by left.
    - right. rewrite (Hrest f1) by (simpl; set_solver). eauto.
    - right. rewrite (Hrest f1), (Hrest f2) by (simpl; set_solver). eauto. }
  unfold _initialize_fastworkflow.
  destruct Hcases as [->|(r & -> & [->|(r' & ->)])];
    destruct (str_truthy t) eqn:Et;
    unfold mbind, Py_bind, get_self, note, try_except, suppress, lib_call,
      modify_self, mret, Py_ret, raise; cbn;
    (eexists; split; [reflexivity|]; split; [reflexivity|]; cbn;
     rewrite !elem_of_app, !list_elem_of_singleton; tauto).
Qed.

(** X2.  A failure of [clear_workflow_stack] during initialization does not
    fail the initialization: with the other library calls succeeding, the
    first user message leaves the adapter initialized, and the exception
    is reported nowhere. *)
Theorem clear_failure_suppressed m s e rest :
  is_initialized (self s) = false →
  faults (world s) = None :: None :: Some e :: rest →
  (∀ f, f ∈ take 2 rest → f = None) →
  is_initialized (self (snd (generate_next_message (InUser m) s))) = true ∧
  clear_workflow_stack ∈
    trace (world (snd (generate_next_message (InUser m) s))).
Proof.
  intros Hi Hf Hrest. rewrite generate_next_message_store.
  destruct (turn_first_sink m s Hi) as (r0 & s0 & H0 & Hq & _ & _).
  destruct (_initialize_fastworkflow_clear_fails (user_content m)
              (mkStore (self s) (world s) (set_up (state s))) e rest Hi Hf Hrest)
    as (s0' & H0' & Hi0 & Ht0).
  rewrite H0' in H0. injection H0 as <- <-.
  split; [by rewrite (quiet_is_initialized _ _ Hq)|by eapply quiet_trace].
Qed.

Lemma clear_failure_suppressed_witness :
  is_initialized
    (self (snd (generate_next_message cancel_request failing_clear_store))) =
    true ∧
  clear_workflow_stack ∈
    trace (world (snd (generate_next_message cancel_request
                         failing_clear_store))).
Proof.
  apply (clear_failure_suppressed (mkUser "I want to cancel order #W123")
           failing_clear_store stack_error []); [done|done|].
  intros f H. by apply elem_of_nil in H.
Defined.

(** ** An empty first message *)

Lemma workflow_starts_app t1 t2 :
  workflow_starts (t1 ++ t2) = workflow_starts t1 ++ workflow_starts t2.
Proof.
  induction t1 as [|c t1 IH]; [done|].
  destruct c; simpl; by rewrite IH.
Qed.

Lemma workflow_starts_none t :
  (∀ p c, start_workflow p c ∉ t) → workflow_starts t = [].
Proof.
  induction t as [|x t IH]; intros H; [done|].
  assert (workflow_starts t = []) as Ht.
  { apply IH. intros p c Hin. apply (H p c). by right. }
  destruct x as [?| | | | |p c|]; simpl; try done.
  destruct (H p c). by left.
Qed.

(** X4.  An empty first user message creates the session without starting
    the workflow, and the adapter counts as initialized all the same: no
    later message of the same life starts it either, whatever the
    evaluator sends, until a [reset]. *)
Theorem empty_first_message_starts_nothing m s messages :
  is_initialized (self s) = false →
  user_content m = "" →
  is_initialized (self (snd (generate_next_message (InUser m) s))) = true →
  workflow_starts
    (trace (world (turns messages (snd (generate_next_message (InUser m) s))))) =
  workflow_starts (trace (world s)).
Proof.
  intros Hi Hm Hi'.
  pose proof (turns_initialized_quiet messages _ Hi') as (k & _ & _ & _ & _ & Ht).
  rewrite Ht, workflow_starts_app.
  rewrite (workflow_starts_none (replicate k time_sleep)).
  2:{ intros p c H. by apply elem_of_replicate in H as [? _]. }
  rewrite app_nil_r, generate_next_message_store.
  destruct (turn_launches (InUser m) s) as (_ & new & Hn & Hall).
  rewrite Hn, workflow_starts_app, (workflow_starts_none new).
  { by rewrite app_nil_r. }
  intros p c H. destruct (Hall p c H) as (_ & [= Hc] & Hne).
  destruct m as [t]. simpl in *. congruence.
Qed.

Lemma empty_first_message_starts_nothing_witness :
  workflow_starts
    (trace (world (turns [InUser (mkUser "hello")]
                     (snd (generate_next_message (InUser (mkUser ""))
                             idle_store))))) =
  workflow_starts (trace (world idle_store)).
Proof.
  apply (empty_first_message_starts_nothing (mkUser "") idle_store
           [InUser (mkUser "hello")] eq_refl eq_refl).
  vm_compute. reflexivity.
Defined.

(** ** How long a turn takes *)

Lemma after_poll_idle_le v commands texts :
  idle_cycles (after_poll v commands texts) ≤ S (idle_cycles v).
Proof.
  destruct (after_poll_progress v commands texts) as (b & _ & _ & ->).
  destruct b; lia.
Qed.

Lemma poll_loop_sleeps n v s v' s' :
  poll_loop n v s = (Return v', s') →
  ∃ k, steady k s s' ∧ k ≤ n ∧
       (k = n ∨ idle_limit ≤ idle_cycles v + k + 1).
Proof.
  revert v s. induction n as [|n IH]; intros v s.
  - intros [= <- <-]. exists 0. split; [apply steady_refl|]. lia.
  - rewrite poll_loop_S. intros H.
    apply bind_inv in H as [(v1 & s1 & H1 & H)|(e & _ & ?)]; [|done].
    pose proof (still_poll_once _ _ _ _ H1) as Hst1.
    apply poll_once_Return in H1 as (commands & texts & sa & sb & _ & _ & _ & ->).
    pose proof (after_poll_idle_le v commands texts) as Hle.
    destruct (Nat.leb_spec idle_limit
                (idle_cycles (after_poll v commands texts))) as [Hb|Hb].
    + unfold mret, Py_ret in H. injection H as <- <-.
      exists 0. split; [done|]. lia.
    + apply bind_inv in H as [([] & s2 & H2 & H)|(e & _ & ?)]; [|done].
      apply note_sleep_steady in H2.
      apply IH in H as (k & Hk & Hkn & Hor).
      exists (0 + 1 + k). split; [|lia].
      eapply steady_trans; [|exact Hk]. by eapply steady_trans.
Qed.

(** X14.  A turn that returns normally has slept at least 149 times and at
    most 5000 times, 0.15 s each, between receiving the message and
    building the answer: the loop only ends after 150 consecutive idle
    polls or after all its iterations, even when the runner's answer was
    there at the first poll. *)
Theorem turn_sleeps_at_least message s msg st s' :
  turn message s = (Return (msg, st), s') →
  ∃ s1 k,
    receive message s = (Return tt, s1) ∧
    trace (world s') = trace (world s1) ++ replicate k time_sleep ∧
    idle_limit - 1 ≤ k ∧ k ≤ max_num_steps.
Proof.
  intros H. apply turn_Return in H as (s1 & s2 & v & Hr & Hp & Hresp & _).
  apply poll_loop_sleeps in Hp as (k & Hk & Hkn & Hor).
  apply still_respond in Hresp.
  pose proof (steady_trans k 0 s1 s2 s' Hk Hresp) as (_ & _ & _ & _ & Ht).
  exists s1, k. split; [done|]. split; [by rewrite Nat.add_0_r in Ht|].
  split; [|done]. change (idle_cycles poll_start) with 0 in Hor.
  pose proof idle_limit_pos. lia.
Qed.

Lemma turn_sleeps_at_least_witness :
  ∃ s1 k,
    receive cancel_request cancel_store = (Return tt, s1) ∧
    trace (world (snd (turn cancel_request cancel_store))) =
      trace (world s1) ++ replicate k time_sleep ∧
    idle_limit - 1 ≤ k ∧ k ≤ max_num_steps.
Proof.
  apply (turn_sleeps_at_least cancel_request cancel_store
           (mkAssistant "assistant" None (Some [cancel_call]))
           (state (snd (turn cancel_request cancel_store)))).
  apply turn_returns. vm_compute. reflexivity.
Defined.

(** ** The first turn of a task *)

(** X21.  A task started from the state [get_init_state] returns for a
    given history continues that history: when the [try] block of the
    first call of [generate_next_message] returns, the history of the
    returned state is the given history (empty when none was given)
    followed by the inbound message and the returned message. *)
Theorem fresh_task_history h message a w msg st s' :
  turn message (mkStore a w (Some (get_init_state h))) =
    (Return (msg, st), s') →
  history_of st =
  Some (VList (ItemMessage <$>
                 (default [] h ++ inbound message ++ [MsgAssistant msg]))).
Proof.
  intros H. apply turn_Return_grown in H as (l & Hl & ->).
  unfold history_of, get_init_state in Hl. simpl in Hl.
  rewrite lookup_insert_eq in Hl. injection Hl as <-.
  destruct h as [h|]; simpl; [by rewrite (fmap_app _ h)|done].
Qed.

Lemma fresh_task_history_witness :
  history_of (state (snd (turn cancel_request
                            (mkStore (fresh_adapter retail) cancel_world
                               (Some (get_init_state None)))))) =
  Some (VList (ItemMessage <$>
                 (default [] None ++ inbound cancel_request ++
                  [MsgAssistant
                     (mkAssistant "assistant" None (Some [cancel_call]))]))).
Proof.
  apply (fresh_task_history None cancel_request (fresh_adapter retail)
           cancel_world (mkAssistant "assistant" None (Some [cancel_call]))
           _ (snd (turn cancel_request
                     (mkStore (fresh_adapter retail) cancel_world
                        (Some (get_init_state None)))))).
  apply turn_returns. vm_compute. reflexivity.
Defined.

Lemma _drain_command_trace_cap_witness :
  ∃ commands s',
    _drain_command_trace 1
      (running_store [cancel_event; status_event] []) =
      (Return commands, s') ∧
    length commands ≤ 1 ∧
    chat_session (self s') =
      Some (mkSession (mkQueue [status_event] None) (mkQueue [] None)
                      empty_queue).
Proof.
  destruct (_drain_command_trace_cap
              (running_store [cancel_event; status_event] [])
              (mkSession (mkQueue [cancel_event; status_event] None)
                         (mkQueue [] None) empty_queue)
              1 eq_refl eq_refl eq_refl)
    as (commands & s' & H1 & H2 & H3 & _).
  by exists commands, s'.
Defined.

(** ** C10: the state returned with an error message *)

Lemma set_up_Some st : ∃ d, set_up st = Some d.
Proof. unfold set_up. by eexists. Qed.

Lemma grown_Some ms st st' : grown ms st st' → is_Some st'.
Proof.
  intros (l & _ & H). unfold history_of in H. by destruct st'.
Qed.

Lemma respond_Raise_state v s e s' :
  respond v s = (Raise e, s') → is_Some (state s) → is_Some (state s').
Proof.
  unfold respond. intros H [d Hd].
  apply bind_inv in H as [(calls & s1 & H1 & H)|(e' & H1 & _)].
  - assert (is_Some (state s1)) as Hs1.
    { destruct (list_truthy (all_commands v)).
      - apply bind_inv in H1 as [([] & s0 & H0 & H1)|(e' & _ & ?)]; [|done].
        unfold mret, Py_ret in H1. injection H1 as _ <-.
        unfold state_setitem in H0. rewrite Hd in H0. by injection H0 as <-.
      - unfold mret, Py_ret in H1. injection H1 as _ <-. by rewrite Hd. }
    apply bind_inv in H as [([] & s2 & _ & H)|(e' & H2 & _)]; [done|].
    apply history_append_inv in H2. by subst.
  - destruct (list_truthy (all_commands v)); [|done].
    apply bind_inv in H1 as [([] & s0 & _ & H1)|(e'' & H0 & _)]; [done|].
    unfold state_setitem in H0. by rewrite Hd in H0.
Qed.

Lemma turn_Raise_state message s e s' :
  turn message s = (Raise e, s') → is_Some (state s').
Proof.
  intros H. destruct (set_up_Some (state s)) as [d Hd].
  apply turn_Raise in H
    as [H|[(s1 & H1 & H2)|(s1 & s2 & v & H1 & H2 & H3)]].
  - apply receive_inv, dispatch_inv in H. simpl in H. by rewrite H, Hd.
  - apply receive_inv, dispatch_inv in H1. simpl in H1.
    apply same_state_poll_loop in H2. unfold same_state in H2. rewrite H2.
    destruct H1 as [[_ ->]|H1]; [by rewrite Hd|by eapply grown_Some].
  - apply receive_inv, dispatch_inv in H1. simpl in H1.
    apply same_state_poll_loop in H2. unfold same_state in H2.
    apply (respond_Raise_state _ _ _ _ H3). rewrite H2.
    destruct H1 as [[_ ->]|H1]; [by rewrite Hd|by eapply grown_Some].
Qed.

(** The fresh dict with the given messages as its history. *)
Lemma fresh_history_append m s l :
  state s = Some (<["message_history" := VList l]> initial_state) →
  history_append m s =
  (Return tt,
   mkStore (self s) (world s)
     (Some (<["message_history" := VList (l ++ [ItemMessage m])]> initial_state))).
Proof.
  intros Hs. unfold history_append. rewrite Hs, lookup_insert_eq.
  by rewrite insert_insert_eq.
Qed.

Lemma fresh_append_tool_messages tms s l :
  state s = Some (<["message_history" := VList l]> initial_state) →
  ∃ s', append_tool_messages tms s = (Return tt, s') ∧
        state s' =
          Some (<["message_history" :=
                    VList (l ++ (ItemMessage <$> (MsgTool <$> tms)))]>
                  initial_state).
Proof.
  revert s l. induction tms as [|tm tms IH]; intros s l Hs.
  - exists s. split; [done|]. simpl. by rewrite app_nil_r.
  - simpl. rewrite (bind_Return _ _ _ _ _ (fresh_history_append _ _ _ Hs)).
    destruct (IH (mkStore (self s) (world s)
                    (Some (<["message_history" :=
                              VList (l ++ [ItemMessage (MsgTool tm)])]>
                            initial_state)))
                 (l ++ [ItemMessage (MsgTool tm)]) eq_refl) as (s' & H & Hs').
    exists s'. split; [done|]. by rewrite Hs', <- app_assoc.
Qed.

Lemma initial_state_fresh :
  initial_state = <["message_history" := VList []]> initial_state.
Proof. unfold initial_state. by rewrite insert_insert_eq. Qed.

Lemma fresh_dispatch message s r s' :
  state s = Some initial_state →
  dispatch message s = (r, s') →
  match r with
  | Return _ =>
      state s' =
        Some (<["message_history" := VList (ItemMessage <$> inbound message)]>
                initial_state)
  | Raise _ => state s' = Some initial_state
  end.
Proof.
  intros Hs H.
  destruct r as [[]|e]; [|by rewrite (dispatch_inv _ _ _ _ H)].
  assert (∀ s0, state s0 = state s →
                state s0 = Some (<["message_history" := VList []]> initial_state))
    as Hfresh.
  { intros s0 ->. by rewrite Hs, <- initial_state_fresh. }
  destruct message as [m|m|tms]; simpl in *.
  - apply bind_inv in H as [(a & s0 & H0 & H)|(e & _ & ?)]; [|done].
    injection H0 as <- <-.
    destruct (negb (is_initialized (self s)));
      apply bind_inv in H as [([] & s1 & H1 & H)|(e & _ & ?)]; try done.
    + apply same_state__initialize_fastworkflow in H1.
      rewrite (fresh_history_append _ _ _ (Hfresh _ H1)) in H.
      by injection H as <-.
    + apply same_state__push_user_message in H1.
      rewrite (fresh_history_append _ _ _ (Hfresh _ H1)) in H.
      by injection H as <-.
  - rewrite (fresh_history_append _ _ _ (Hfresh _ eq_refl)) in H.
    by injection H as <-.
  - destruct (fresh_append_tool_messages tms s [] (Hfresh _ eq_refl))
      as (s1 & H1 & Hs1).
    rewrite H1 in H. by injection H as <-.
Qed.

Lemma fresh_turn_Raise message s e s' :
  state s = None →
  turn message s = (Raise e, s') →
  state s' = Some initial_state ∨
  state s' =
    Some (<["message_history" := VList (ItemMessage <$> inbound message)]>
            initial_state).
Proof.
  intros Hn H.
  assert (state (mkStore (self s) (world s) (set_up (state s))) =
          Some initial_state) as H0 by (by rewrite Hn).
  apply turn_Raise in H
    as [H|[(s1 & H1 & H2)|(s1 & s2 & v & H1 & H2 & H3)]].
  - left. apply receive_inv in H. by apply (fresh_dispatch _ _ _ _ H0 H).
  - right. apply receive_inv in H1.
    apply same_state_poll_loop in H2. unfold same_state in H2. rewrite H2.
    by apply (fresh_dispatch _ _ _ _ H0 H1).
  - apply receive_inv in H1. apply (fresh_dispatch _ _ _ _ H0) in H1.
    apply same_state_poll_loop in H2. unfold same_state in H2.
    destruct (respond_returns v s2 (ItemMessage <$> inbound message))
      as [s3 H4].
    { unfold history_of. rewrite H2, H1. simpl. by rewrite lookup_insert_eq. }
    by rewrite H4 in H3.
Qed.

(** C10.  When the [try] block raises [e], [generate_next_message]
    returns the error message together with the value the variable
    [state] has at that moment.  The history in that state is the history
    of the state as set up, either unchanged or followed by the inbound
    message(s) of this turn: the error message is not appended.  The
    state is never [None]: the set-up is the first statement of the block
    and does not fail, so a call made with [state = None] returns the dict
    built there, with an empty history or with the inbound message(s) as
    its history. *)
Theorem error_path_returns_state_at_failure message s e s' :
  turn message s = (Raise e, s') →
  generate_next_message message s =
    (Return (error_message e, state s'), s') ∧
  (history_of (state s') = history_of (set_up (state s)) ∨
   grown (inbound message) (set_up (state s)) (state s')) ∧
  is_Some (state s') ∧
  (state s = None →
   state s' = Some initial_state ∨
   state s' =
     Some (<["message_history" := VList (ItemMessage <$> inbound message)]>
             initial_state)).
Proof.
  intros H. split; [by apply generate_next_message_Raise|].
  split; [|split; [by eapply turn_Raise_state|
                   intros Hn; by eapply fresh_turn_Raise]].
  apply turn_Raise in H
    as [H|[(s1 & H1 & H2)|(s1 & s2 & v & H1 & H2 & H3)]].
  - apply receive_inv, dispatch_inv in H. simpl in H. left. by rewrite H.
  - apply receive_inv, dispatch_inv in H1. simpl in H1.
    apply same_state_poll_loop in H2. unfold same_state in H2.
    rewrite H2. destruct H1 as [[_ ->]|H1]; [by left|by right].
  - apply receive_inv, dispatch_inv in H1. simpl in H1.
    apply same_state_poll_loop in H2. unfold same_state in H2.
    apply respond_Raise in H3. rewrite H2 in H3.
    destruct H1 as [[_ H1]|H1].
    + left. by rewrite H3, H1.
    + right. by eapply grown_history.
Qed.

Lemma error_path_returns_state_at_failure_witness :
  fst (turn tool_result stopping_store) = Raise runner_stopped ∧
  fst (generate_next_message tool_result stopping_store) =
    Return (error_message runner_stopped,
            state (snd (turn tool_result stopping_store))) ∧
  is_Some (state (snd (turn tool_result stopping_store))) ∧
  history_of (state (snd (turn tool_result stopping_store))) =
    Some (VList [ItemMessage (MsgTool (mkTool "call_0" "order #W123 is pending"))]).
Proof.
  assert (turn tool_result stopping_store =
          (Raise runner_stopped, snd (turn tool_result stopping_store))) as H
    by (apply raised_inv; vm_compute; reflexivity).
  split; [by rewrite H at 1|].
  destruct (error_path_returns_state_at_failure _ _ _ _ H) as (Hg & _ & Hs & _).
  split; [by rewrite Hg|]. split; [exact Hs|]. vm_compute. reflexivity.
Defined.

(** Called with [state = None], a turn that fails as early as a turn can,
    in the initialization started by its first statement after the
    set-up, returns the dict the set-up built, not [None]. *)
Lemma error_state_none_counterexample :
  state missing_assets_store = None ∧
  raised (fst (turn cancel_request missing_assets_store)) =
    Some missing_assets ∧
  snd <$> returned
            (fst (generate_next_message cancel_request missing_assets_store)) =
    Some (Some initial_state) ∧
  snd <$> returned
            (fst (generate_next_message cancel_request missing_assets_store)) ≠
    Some None.
Proof.
  assert (raised (fst (turn cancel_request missing_assets_store)) =
          Some missing_assets) as Hr by (vm_compute; reflexivity).
  split; [done|]. split; [exact Hr|].
  apply raised_inv in Hr.
  assert (state (snd (turn cancel_request missing_assets_store)) =
          Some initial_state) as Hs.
  { destruct (fresh_turn_Raise cancel_request missing_assets_store _ _
                eq_refl Hr) as [H|H]; [done|].
    assert (history_of (state (snd (turn cancel_request missing_assets_store))) =
            Some (VList [])) as Hh by (vm_compute; reflexivity).
    rewrite H in Hh. unfold history_of in Hh. simpl in Hh.
    rewrite lookup_insert_eq in Hh. done. }
  rewrite (generate_next_message_Raise _ _ _ _ Hr).
  change (Some (state (snd (turn cancel_request missing_assets_store))) =
            Some (Some initial_state) ∧
          Some (state (snd (turn cancel_request missing_assets_store))) ≠
            Some None).
  rewrite Hs. split; done.
Qed.
